(** * Crawl orchestration engine: a shallow embedding and its properties

    The development follows the JavaScript sources of the crawler:
    - the crawler back-ends ([BaseCrawler], [PuppeteerCrawler],
      [CheerioCrawler], [PlaywrightCrawler], [SeleniumCrawler] and the
      factory [createCrawler]);
    - the service [UniversalCrawler] (option validation, fingerprint,
      [saveArticle], [extractArticleContent], [crawlInternalLinks],
      [crawlSource], the page pool, [testSelector] and its helpers);
    - the [Scheduler] service (cron callback, manual run, the registry
      of cron jobs, [calculateNextRun]);
    - the crawl routes [GET /crawl/:sourceId] and [POST /crawler/crawl],
      and the two test-selector routes;
    - the helpers of [GET /api/farsnews] in the server file
      ([extractArticleContent], [crawlInternalLinks]);
    - the [DatabaseAdapter] (connections and transactions).

    JavaScript values are modelled by [Js.value]; asynchronous functions
    are state transformers over a [World] that may return or throw; the
    network, the DOM and the URL parser are oracles collected in a record.
    Strings are byte strings (the UTF-8 encoding of the JavaScript text). *)

From Stdlib Require Import ZArith List String Ascii Bool Lia DecimalString.
Import ListNotations.

Local Open Scope string_scope.
Local Open Scope Z_scope.

Set Warnings "-register-all".

(* ------------------------------------------------------------------ *)
(** ** JavaScript values and the string primitives the sources use     *)
(* ------------------------------------------------------------------ *)

Module Js.

(** The values that reach the modelled code.  Numbers are the ones its
    callers produce: integers (SQL INTEGER columns, [parseInt] results)
    and [NaN] ([parseInt] of a non-numeric text). *)
Inductive value : Type :=
| VUndefined
| VNull
| VBool (b : bool)
| VInt (z : Z)
| VNaN
| VStr (s : string)
| VArray (items : list value)
| VObject (fields : list (string * value)).

(** [typeof v === 'number'] *)
Definition is_number (v : value) : bool :=
  match v with
  | VInt _ | VNaN => true
  | _ => false
  end.

(** ToBoolean *)
Definition truthy (v : value) : bool :=
  match v with
  | VUndefined | VNull | VNaN => false
  | VBool b => b
  | VInt z => negb (z =? 0)
  | VStr s => negb (String.eqb s "")
  | VArray _ | VObject _ => true
  end.

(** Truthiness of a nullable TEXT column ([None] is NULL). *)
Definition truthy_text (o : option string) : bool :=
  match o with
  | Some s => truthy (VStr s)
  | None => false
  end.

(** [String(v)] for such a column, as the DOM applies it to a selector. *)
Definition to_string (o : option string) : string :=
  match o with
  | Some s => s
  | None => "null"
  end.

(** [a || b] *)
Definition or (a b : value) : value := if truthy a then a else b.

(** A destructuring default [{ f = d } = options]: used only when the
    property is [undefined]. *)
Definition default (v d : value) : value :=
  match v with
  | VUndefined => d
  | _ => v
  end.

(** [v < k] and [v > k] for a number [v] and an integer literal [k]:
    every comparison with [NaN] is false. *)
Definition lt_int (v : value) (k : Z) : bool :=
  match v with
  | VInt z => z <? k
  | _ => false
  end.

Definition gt_int (v : value) (k : Z) : bool :=
  match v with
  | VInt z => z >? k
  | _ => false
  end.

(** [a !== b] against the literals the scheduler compares with. *)
Definition strict_neq_false (v : value) : bool :=
  match v with
  | VBool false => false
  | _ => true
  end.

Definition strict_neq_undefined (v : value) : bool :=
  match v with
  | VUndefined => false
  | _ => true
  end.

(** Property read [o.k]: [undefined] when the object has no such key. *)
Fixpoint assoc (k : string) (fields : list (string * value)) : value :=
  match fields with
  | [] => VUndefined
  | (k', v) :: rest => if String.eqb k k' then v else assoc k rest
  end.

(** The callers read the properties of objects; a read of a property
    of [null] or of [undefined], which throws, is not in the model. *)
Definition get (o : value) (k : string) : value :=
  match o with
  | VObject fields => assoc k fields
  | _ => VUndefined
  end.

Definition keys (o : value) : list string :=
  match o with
  | VObject fields => map fst fields
  | _ => []
  end.

(** [Math.min(n, limit)] as the bound of [for (i = 0; i < ...; i++)]:
    the number of iterations, for a limit that is a number, as are the
    limits that pass [validateCrawlOptions].  With [NaN] the test
    [i < NaN] fails at once. *)
Definition loop_bound (n : nat) (limit : value) : nat :=
  match limit with
  | VInt z => Z.to_nat (Z.min (Z.of_nat n) z)
  | _ => 0%nat
  end.

(** *** Strings *)

Fixpoint prefixb (p s : string) : bool :=
  match p, s with
  | EmptyString, _ => true
  | String a p', String b s' => Ascii.eqb a b && prefixb p' s'
  | String _ _, EmptyString => false
  end.

(** [s.startsWith(p)] *)
Definition startsWith (s p : string) : bool := prefixb p s.

(** [s.includes(p)] *)
Fixpoint includes (s p : string) : bool :=
  prefixb p s ||
  match s with
  | EmptyString => false
  | String _ s' => includes s' p
  end.

(** White space removed by [trim]: the code points of one byte, then
    those of two and of three bytes in UTF-8 (U+00A0; U+1680, U+2000 to
    U+200A, U+2028, U+2029, U+202F, U+205F, U+3000 and U+FEFF). *)
Definition is_space (c : ascii) : bool :=
  let n := nat_of_ascii c in
  ((9 <=? n) && (n <=? 13))%nat || (n =? 32)%nat.

Definition is_space2 (c1 c2 : ascii) : bool :=
  (nat_of_ascii c1 =? 194)%nat && (nat_of_ascii c2 =? 160)%nat.

Definition is_space3 (c1 c2 c3 : ascii) : bool :=
  let a := nat_of_ascii c1 in
  let b := nat_of_ascii c2 in
  let c := nat_of_ascii c3 in
  ((a =? 225) && (b =? 154) && (c =? 128))%nat
  || ((a =? 226) && (b =? 128)
      && (((128 <=? c) && (c <=? 138)) || (c =? 168) || (c =? 169) || (c =? 175)))%nat
  || ((a =? 226) && (b =? 129) && (c =? 159))%nat
  || ((a =? 227) && (b =? 128) && (c =? 128))%nat
  || ((a =? 239) && (b =? 187) && (c =? 191))%nat.

Fixpoint trimStart (s : string) : string :=
  match s with
  | EmptyString => EmptyString
  | String c1 s1 =>
      if is_space c1 then trimStart s1
      else
        match s1 with
        | String c2 s2 =>
            if is_space2 c1 c2 then trimStart s2
            else
              match s2 with
              | String c3 s3 => if is_space3 c1 c2 c3 then trimStart s3 else s
              | EmptyString => s
              end
        | EmptyString => s
        end
  end.

Fixpoint rev_string (acc s : string) : string :=
  match s with
  | EmptyString => acc
  | String c s' => rev_string (String c acc) s'
  end.

(** The same on the reversed text, whose code points are read from
    their last byte. *)
Fixpoint trimStart_reversed (s : string) : string :=
  match s with
  | EmptyString => EmptyString
  | String c1 s1 =>
      if is_space c1 then trimStart_reversed s1
      else
        match s1 with
        | String c2 s2 =>
            if is_space2 c2 c1 then trimStart_reversed s2
            else
              match s2 with
              | String c3 s3 => if is_space3 c3 c2 c1 then trimStart_reversed s3 else s
              | EmptyString => s
              end
        | EmptyString => s
        end
  end.

Definition trimEnd (s : string) : string :=
  rev_string EmptyString (trimStart_reversed (rev_string EmptyString s)).

(** [s.trim()] *)
Definition trim (s : string) : string := trimEnd (trimStart s).

(** [parts.join(sep)] *)
Fixpoint join (sep : string) (parts : list string) : string :=
  match parts with
  | [] => ""
  | [p] => p
  | p :: rest => p ++ sep ++ join sep rest
  end.

Definition lower_ascii (c : ascii) : ascii :=
  let n := nat_of_ascii c in
  if ((65 <=? n) && (n <=? 90))%nat then ascii_of_nat (n + 32) else c.

(** [s.toLowerCase()] on the one-byte letters. *)
Fixpoint toLowerCase (s : string) : string :=
  match s with
  | EmptyString => EmptyString
  | String c s' => String (lower_ascii c) (toLowerCase s')
  end.

(** [s.length]: UTF-16 code units of a UTF-8 byte string.  A byte
    10xxxxxx continues a code point; a code point of four bytes takes
    two units. *)
Fixpoint length (s : string) : nat :=
  match s with
  | EmptyString => 0%nat
  | String c s' =>
      let n := nat_of_ascii c in
      ((if (128 <=? n) && (n <? 192) then 0 else if (240 <=? n) then 2 else 1)
       + length s')%nat
  end.

(** [arr.slice(0, n)] *)
Definition slice0 {A : Type} (n : nat) (l : list A) : list A := firstn n l.

(** The slices [l.slice(i, i + n)] for [i = 0, n, 2n, ...] below
    [l.length]; [fuel] bounds their number. *)
Fixpoint chunks {A : Type} (fuel n : nat) (l : list A) : list (list A) :=
  match fuel, l with
  | O, _ | _, [] => []
  | S fuel', _ => firstn n l :: chunks fuel' n (skipn n l)
  end.

(** [parseInt(v)] in base ten: the digits after optional white space
    and sign, [NaN] when there is none. *)
Fixpoint digits (acc : option Z) (s : string) : option Z :=
  match s with
  | EmptyString => acc
  | String c s' =>
      let n := nat_of_ascii c in
      if ((48 <=? n) && (n <=? 57))%nat then
        digits (Some (10 * match acc with Some a => a | None => 0 end
                      + Z.of_nat (n - 48))) s'
      else acc
  end.

Definition hex_value (c : ascii) : option Z :=
  let n := nat_of_ascii c in
  if ((48 <=? n) && (n <=? 57))%nat then Some (Z.of_nat (n - 48))
  else if ((97 <=? n) && (n <=? 102))%nat then Some (Z.of_nat (n - 87))
  else if ((65 <=? n) && (n <=? 70))%nat then Some (Z.of_nat (n - 55))
  else None.

Fixpoint hex_digits (acc : option Z) (s : string) : option Z :=
  match s with
  | EmptyString => acc
  | String c s' =>
      match hex_value c with
      | Some d => hex_digits (Some (16 * match acc with Some a => a | None => 0 end + d)) s'
      | None => acc
      end
  end.

(** The digits [parseInt] reads with no radix given: hexadecimal after
    [0x] or [0X], decimal otherwise. *)
Definition magnitude (s : string) : option Z :=
  match s with
  | String "0" (String "x" s') | String "0" (String "X" s') => hex_digits None s'
  | _ => digits None s
  end.

Definition parseInt (v : value) : value :=
  match v with
  | VInt z => VInt z
  | VStr s =>
      match trimStart s with
      | String "-" s' =>
          match magnitude s' with Some z => VInt (- z) | None => VNaN end
      | String "+" s' =>
          match magnitude s' with Some z => VInt z | None => VNaN end
      | s' =>
          match magnitude s' with Some z => VInt z | None => VNaN end
      end
  | _ => VNaN
  end.

(** [String(n)] for an integer of at most 2^53 in absolute value. *)
Definition string_of_Z (z : Z) : string := NilZero.string_of_int (Z.to_int z).

End Js.

(* ------------------------------------------------------------------ *)
(** ** [crypto.createHash('md5')]: RFC 1321                            *)
(* ------------------------------------------------------------------ *)

Module MD5.

Definition w32 (x : Z) : Z := x mod 2 ^ 32.

Definition rotl (x : Z) (c : Z) : Z :=
  w32 (Z.lor (Z.shiftl x c) (Z.shiftr (w32 x) (32 - c))).

Definition not32 (x : Z) : Z := Z.lxor (w32 x) 0xffffffff.

Definition K : list Z :=
  [ 0xd76aa478; 0xe8c7b756; 0x242070db; 0xc1bdceee;
    0xf57c0faf; 0x4787c62a; 0xa8304613; 0xfd469501;
    0x698098d8; 0x8b44f7af; 0xffff5bb1; 0x895cd7be;
    0x6b901122; 0xfd987193; 0xa679438e; 0x49b40821;
    0xf61e2562; 0xc040b340; 0x265e5a51; 0xe9b6c7aa;
    0xd62f105d; 0x02441453; 0xd8a1e681; 0xe7d3fbc8;
    0x21e1cde6; 0xc33707d6; 0xf4d50d87; 0x455a14ed;
    0xa9e3e905; 0xfcefa3f8; 0x676f02d9; 0x8d2a4c8a;
    0xfffa3942; 0x8771f681; 0x6d9d6122; 0xfde5380c;
    0xa4beea44; 0x4bdecfa9; 0xf6bb4b60; 0xbebfbc70;
    0x289b7ec6; 0xeaa127fa; 0xd4ef3085; 0x04881d05;
    0xd9d4d039; 0xe6db99e5; 0x1fa27cf8; 0xc4ac5665;
    0xf4292244; 0x432aff97; 0xab9423a7; 0xfc93a039;
    0x655b59c3; 0x8f0ccc92; 0xffeff47d; 0x85845dd1;
    0x6fa87e4f; 0xfe2ce6e0; 0xa3014314; 0x4e0811a1;
    0xf7537e82; 0xbd3af235; 0x2ad7d2bb; 0xeb86d391 ].

Definition S : list Z :=
  [ 7; 12; 17; 22; 7; 12; 17; 22; 7; 12; 17; 22; 7; 12; 17; 22;
    5; 9; 14; 20; 5; 9; 14; 20; 5; 9; 14; 20; 5; 9; 14; 20;
    4; 11; 16; 23; 4; 11; 16; 23; 4; 11; 16; 23; 4; 11; 16; 23;
    6; 10; 15; 21; 6; 10; 15; 21; 6; 10; 15; 21; 6; 10; 15; 21 ].

Record state : Type := mkState { sa : Z; sb : Z; sc : Z; sd : Z }.

Definition init : state :=
  mkState 0x67452301 0xefcdab89 0x98badcfe 0x10325476.

(** One of the 64 operations of a block; [m] holds its 16 words. *)
Definition round (m : list Z) (st : state) (i : nat) : state :=
  let '(mkState a b c d) := st in
  let iz := Z.of_nat i in
  let '(f, g) :=
    if (i <? 16)%nat then
      (Z.lor (Z.land b c) (Z.land (not32 b) d), iz)
    else if (i <? 32)%nat then
      (Z.lor (Z.land d b) (Z.land (not32 d) c), (5 * iz + 1) mod 16)
    else if (i <? 48)%nat then
      (Z.lxor (Z.lxor b c) d, (3 * iz + 5) mod 16)
    else
      (Z.lxor c (Z.lor b (not32 d)), (7 * iz) mod 16) in
  let f' := w32 (f + a + nth i K 0 + nth (Z.to_nat g) m 0) in
  mkState d (w32 (b + rotl f' (nth i S 0))) b c.

Definition block (st : state) (m : list Z) : state :=
  let st' := fold_left (round m) (seq 0 64) st in
  mkState (w32 (sa st + sa st')) (w32 (sb st + sb st'))
          (w32 (sc st + sc st')) (w32 (sd st + sd st')).

(** Little-endian bytes of a number, [n] of them. *)
Fixpoint le_bytes (n : nat) (x : Z) : list Z :=
  match n with
  | O => []
  | Datatypes.S n' => (x mod 256) :: le_bytes n' (x / 256)
  end.

Fixpoint le_word (bs : list Z) : Z :=
  match bs with
  | [] => 0
  | b :: rest => b + 256 * le_word rest
  end.

Definition bytes_of_string (s : string) : list Z :=
  map (fun c => Z.of_nat (nat_of_ascii c)) (list_ascii_of_string s).

(** The message followed by 0x80, zero bytes up to 56 modulo 64, and its
    length in bits on 8 bytes. *)
Definition pad (msg : list Z) : list Z :=
  let len := Z.of_nat (List.length msg) in
  let zeros := Z.to_nat ((55 - len) mod 64) in
  msg ++ [0x80] ++ repeat 0 zeros ++ le_bytes 8 ((8 * len) mod 2 ^ 64).

Definition words_of_block (bs : list Z) : list Z :=
  map le_word (Js.chunks 16 4 bs).

Definition digest (msg : list Z) : list Z :=
  let p := pad msg in
  let blocks := Js.chunks (List.length p) 64 p in
  let st := fold_left (fun st b => block st (words_of_block b)) blocks init in
  le_bytes 4 (sa st) ++ le_bytes 4 (sb st) ++ le_bytes 4 (sc st) ++ le_bytes 4 (sd st).

Definition hex_digit (n : Z) : ascii :=
  if n <? 10 then ascii_of_nat (Z.to_nat (48 + n))
  else ascii_of_nat (Z.to_nat (87 + n)).

Fixpoint hex (bs : list Z) : string :=
  match bs with
  | [] => EmptyString
  | b :: rest => String (hex_digit (b / 16)) (String (hex_digit (b mod 16)) (hex rest))
  end.

(** [crypto.createHash('md5').update(s).digest('hex')] *)
Definition hexdigest (s : string) : string := hex (digest (bytes_of_string s)).

End MD5.

Arguments MD5.hexdigest : simpl never.


(* ------------------------------------------------------------------ *)
(** ** The storage collaborator                                        *)
(* ------------------------------------------------------------------ *)

(** What an awaited call produces: a value, or an exception carrying the
    [message] of the JavaScript error. *)
Inductive outcome (A : Type) : Type :=
| Returned (a : A)
| Threw (msg : string).

Arguments Returned {A} a.
Arguments Threw {A} msg.

Module Db.

(** Table [articles]: [link] and [hash] are UNIQUE. *)
Record article_row : Type := mkArticleRow {
  a_id : Z;
  a_source_id : Z;
  a_title : string;
  a_link : string;
  a_content : string;
  a_hash : string;
  a_depth : Z
}.

(** Table [news_sources]; [None] is NULL. *)
Record source_row : Type := mkSourceRow {
  s_id : Z;
  s_name : string;
  base_url : string;
  crawler_type : option string;
  list_selector : string;
  title_selector : option string;
  content_selector : option string;
  link_selector : option string;
  s_active : bool
}.

(** Table [crawl_history]. *)
Record history_row : Type := mkHistoryRow {
  h_source_id : Z;
  total_found : Z;
  total_processed : Z;
  new_articles : Z;
  h_crawl_depth : Js.value;
  h_duration_ms : Z
}.

(** Table [crawl_logs], written by [logger.logCrawlOperation]. *)
Record log_row : Type := mkLogRow {
  l_source_id : Z;
  l_action : string;
  l_status : string;
  l_message : string;
  l_articles_found : Z;
  l_articles_processed : Z;
  l_duration_ms : Z
}.

(** Table [schedules]: the crawl settings are read back as JavaScript
    values (the driver returns numbers, booleans or null). *)
Record schedule_row : Type := mkScheduleRow {
  sch_id : Z;
  sch_source_id : Z;
  cron_expression : string;
  is_active : Js.value;
  crawl_depth : Js.value;
  full_content : Js.value;
  article_limit : Js.value;
  timeout_ms : Js.value;
  follow_links : Js.value;
  last_run : option nat
}.

(** The database.  [calls] counts the statements executed so far and is
    the logical time of CURRENT_TIMESTAMP; [fault n] is the error, if
    any, with which the driver answers statement number [n] (a lost
    connection, a unique-constraint violation raised by a concurrent
    writer, ...). *)
Record t : Type := mkDb {
  articles : list article_row;
  news_sources : list source_row;
  crawl_history : list history_row;
  crawl_logs : list log_row;
  schedules : list schedule_row;
  calls : nat;
  fault : nat -> option string
}.

Definition tick (d : t) : t :=
  mkDb (articles d) (news_sources d) (crawl_history d) (crawl_logs d)
       (schedules d) (S (calls d)) (fault d).

Definition with_articles (d : t) (l : list article_row) : t :=
  mkDb l (news_sources d) (crawl_history d) (crawl_logs d)
       (schedules d) (calls d) (fault d).

Definition with_history (d : t) (l : list history_row) : t :=
  mkDb (articles d) (news_sources d) l (crawl_logs d)
       (schedules d) (calls d) (fault d).

Definition with_logs (d : t) (l : list log_row) : t :=
  mkDb (articles d) (news_sources d) (crawl_history d) l
       (schedules d) (calls d) (fault d).


(** One statement: the driver answers with its injected error or runs
    the statement. *)
Definition statement {A : Type} (body : t -> A * t) (d : t) : outcome A * t :=
  match fault d (calls d) with
  | Some msg => (Threw msg, tick d)
  | None => let '(a, d') := body (tick d) in (Returned a, d')
  end.

(** [SELECT id FROM articles WHERE hash = ? OR link = ?] through [db.get]:
    the first matching row, or [undefined]. *)
Definition matches (hash link : string) (r : article_row) : bool :=
  String.eqb (a_hash r) hash || String.eqb (a_link r) link.

Definition select_article (hash link : string) : t -> outcome (option Z) * t :=
  statement (fun d => (option_map a_id (find (matches hash link) (articles d)), d)).

(** The callback context of [db.run]. *)
Record run_context : Type := mkRun { lastID : Js.value; changes : Js.value }.

Definition next_id (d : t) : Z :=
  1 + fold_right Z.max 0 (map a_id (articles d)).

(** [INSERT OR IGNORE INTO articles (...) VALUES (...)]: a row that would
    break a UNIQUE constraint is dropped without error and [changes] is
    0 (the PostgreSQL adapter rewrites it to ON CONFLICT DO NOTHING and
    reports [rowCount]). *)
Definition insert_or_ignore_article
    (source_id : Z) (title link content hash : string) (depth : Z)
    : t -> outcome run_context * t :=
  statement (fun d =>
    if existsb (matches hash link) (articles d)
    then (mkRun Js.VNull (Js.VInt 0), d)
    else
      let id := next_id d in
      (mkRun (Js.VInt id) (Js.VInt 1),
       with_articles d
         (articles d ++ [mkArticleRow id source_id title link content hash depth]))).

(** [SELECT * FROM news_sources WHERE id = ? AND active = true] *)
Definition select_source (id : Z) : t -> outcome (option source_row) * t :=
  statement (fun d =>
    (find (fun s => (s_id s =? id) && s_active s) (news_sources d), d)).

(** [INSERT INTO crawl_history ...] *)
Definition insert_history (row : history_row) : t -> outcome unit * t :=
  statement (fun d => (tt, with_history d (crawl_history d ++ [row]))).

(** [INSERT INTO crawl_logs ...] *)
Definition insert_log (row : log_row) : t -> outcome unit * t :=
  statement (fun d => (tt, with_logs d (crawl_logs d ++ [row]))).





Definition fault_free (d : t) : Prop := forall n, fault d n = None.

End Db.

(* ------------------------------------------------------------------ *)
(** ** The network, the DOM and the browsers                           *)
(* ------------------------------------------------------------------ *)

Module Web.

(** What the crawlers read of a DOM element. *)
Record element : Type := mkElement {
  textContent : string;            (* el.textContent, cheerio's .text() *)
  getAttribute_href : option string; (* el.getAttribute('href'), .attr('href') *)
  href : string;                   (* el.href, resolved by the browser *)
  getText : string                 (* WebDriver's rendered text *)
}.

(** A loaded document, as the two selector engines read it: the
    elements a selector matches in document order, or [None] when
    evaluating the selector throws.  [querySelectorAll] is the engine
    of the browser (the page functions, WebDriver's [By.css]);
    [cheerio] is [$(selector)] of cheerio, which also reads selectors
    the browser refuses, such as the jQuery extensions [:first] and
    [:contains]. *)
Record document : Type := mkDocument {
  querySelectorAll : string -> option (list element);
  cheerio : string -> option (list element)
}.

Record t : Type := mkWeb {
  (** [page.goto(url, {waitUntil})], [axios.get(url)], [driver.get(url)]:
      the first argument names the wait condition or the client. *)
  navigate : string -> string -> outcome document;
  (** [new URL(u)]: its [protocol] and [host], [None] when it throws. *)
  URL_parts : string -> option (string * string);
  (** [new URL(u).origin] *)
  URL_origin : string -> option string;
  (** [new URL(u, base).href] *)
  URL_resolve : string -> string -> option string;
  (** Starting a browser for a back-end: the error, if it cannot. *)
  launch : string -> option string;
  (** Whether [page.goto('about:blank')] throws for a page. *)
  reset_throws : nat -> bool;
  (** Seconds measured with [Date.now()] around a run. *)
  elapsed : Z
}.

End Web.

(* ------------------------------------------------------------------ *)
(** ** The page pool                                                   *)
(* ------------------------------------------------------------------ *)

Module Pool.

(** [pagePool] in array order ([push] appends, [pop] takes the last
    one); [closed] collects the pages destroyed by [page.close()];
    [created] numbers the pages made by [browser.newPage()]. *)
Record t : Type := mkPool {
  pagePool : list nat;
  closed : list nat;
  created : nat
}.

Definition empty : t := mkPool [] [] 0.

Definition maxConcurrentPages : nat := 5.

(** [getOrCreatePage]: it touches the pool in one synchronous step, then
    at most waits for the browser. *)
Definition getOrCreatePage (w : Web.t) (kind : string) (p : t) : outcome nat * t :=
  if (0 <? List.length (pagePool p))%nat then
    (Returned (last (pagePool p) 0%nat),
     mkPool (removelast (pagePool p)) (closed p) (created p))
  else
    match Web.launch w kind with
    | Some msg => (Threw msg, p)
    | None => (Returned (created p), mkPool (pagePool p) (closed p) (S (created p)))
    end.

(** [releasePage] run without interruption. *)
Definition releasePage (w : Web.t) (page : nat) (p : t) : t :=
  if (List.length (pagePool p) <? maxConcurrentPages)%nat then
    if Web.reset_throws w page
    then mkPool (pagePool p) (closed p ++ [page]) (created p)
    else mkPool (pagePool p ++ [page]) (closed p) (created p)
  else mkPool (pagePool p) (closed p ++ [page]) (created p).

(** *** Interleaved callers

    [releasePage] is an async function: the test
    [pagePool.length < maxConcurrentPages] runs when it is called, then
    it waits for [page.goto('about:blank')], and [pagePool.push(page)]
    runs when that promise settles.  Other callers run in between.  A
    state is the pool and the pages whose reset is pending. *)
Record async_state : Type := mkAsync {
  pool : t;
  resetting : list nat
}.

Inductive action : Type :=
| Acquire                         (* a call of getOrCreatePage *)
| ReleaseCall (page : nat)        (* releasePage up to its first await *)
| ResetSettled (page : nat).      (* the continuation after page.goto *)

Definition remove_page (page : nat) (l : list nat) : list nat :=
  filter (fun q => negb (Nat.eqb q page)) l.

Definition step (w : Web.t) (kind : string) (a : action) (s : async_state) : async_state :=
  match a with
  | Acquire => mkAsync (snd (getOrCreatePage w kind (pool s))) (resetting s)
  | ReleaseCall page =>
      if (List.length (pagePool (pool s)) <? maxConcurrentPages)%nat
      then mkAsync (pool s) (resetting s ++ [page])
      else mkAsync (mkPool (pagePool (pool s)) (closed (pool s) ++ [page]) (created (pool s)))
                   (resetting s)
  | ResetSettled page =>
      if existsb (Nat.eqb page) (resetting s) then
        if Web.reset_throws w page
        then mkAsync (mkPool (pagePool (pool s)) (closed (pool s) ++ [page]) (created (pool s)))
                     (remove_page page (resetting s))
        else mkAsync (mkPool (pagePool (pool s) ++ [page]) (closed (pool s)) (created (pool s)))
                     (remove_page page (resetting s))
      else s
  end.

Definition run (w : Web.t) (kind : string) (acts : list action) (s : async_state) : async_state :=
  fold_left (fun s a => step w kind a s) acts s.

(** A schedule in which every release runs to its end before anything
    else happens. *)
Fixpoint sequential (acts : list action) : Prop :=
  match acts with
  | [] => True
  | Acquire :: rest => sequential rest
  | ReleaseCall p :: ResetSettled q :: rest => p = q /\ sequential rest
  | _ => False
  end.

End Pool.

(* ------------------------------------------------------------------ *)
(** ** The world of a run and its monad                                *)
(* ------------------------------------------------------------------ *)

(** What a run does that can be observed from outside, in order. *)
Inductive event : Type :=
| EvCreateCrawler (kind : string)          (* createCrawler picked a back-end *)
| EvGoto (how url : string)                (* a navigation or an HTTP GET *)
| EvCrawlSource (sourceId : Z) (options : Js.value) (* crawlSource is called *)
| EvCrawlSettled (result : outcome Js.value)        (* its promise settles *)
| EvUpdateLastRun (id : Z).                (* updateLastRun is called *)

Record World : Type := mkWorld {
  db : Db.t;
  upool : Pool.t;          (* the page pool of the UniversalCrawler *)
  log : list event
}.

(** An async function: from a world to a settled promise and a world. *)
Definition M (A : Type) : Type := World -> outcome A * World.

Definition ret {A : Type} (a : A) : M A := fun s => (Returned a, s).

Definition throw {A : Type} (msg : string) : M A := fun s => (Threw msg, s).

Definition bind {A B : Type} (m : M A) (k : A -> M B) : M B :=
  fun s =>
    match m s with
    | (Returned a, s') => k a s'
    | (Threw e, s') => (Threw e, s')
    end.

Declare Scope js_scope.
Delimit Scope js_scope with js.
Notation "x <- m ;; k" := (bind m (fun x => k))
  (at level 61, m at next level, right associativity) : js_scope.
Notation "m ;; k" := (bind m (fun _ => k))
  (at level 61, right associativity) : js_scope.
Local Open Scope js_scope.

(** [try { m } catch (e) { h e }] *)
Definition try_catch {A : Type} (m : M A) (h : string -> M A) : M A :=
  fun s =>
    match m s with
    | (Threw e, s') => h e s'
    | r => r
    end.

(** [try { m } finally { f }] *)
Definition finally {A : Type} (m : M A) (f : M unit) : M A :=
  fun s =>
    let '(r, s') := m s in
    match f s' with
    | (Returned _, s'') => (r, s'')
    | (Threw e, s'') => (Threw e, s'')
    end.

(** A synchronous computation that may throw. *)
Definition lift {A : Type} (o : outcome A) : M A := fun s => (o, s).

Definition emit (e : event) : M unit :=
  fun s => (Returned tt, mkWorld (db s) (upool s) (log s ++ [e])).

(** A statement sent to the database. *)
Definition query {A : Type} (q : Db.t -> outcome A * Db.t) : M A :=
  fun s => let '(r, d) := q (db s) in (r, mkWorld d (upool s) (log s)).

(** [await page.goto(url, { waitUntil: how })] and the like. *)
Definition goto (w : Web.t) (how url : string) : M Web.document :=
  emit (EvGoto how url) ;; lift (Web.navigate w how url).

(** [for (const x of l) acc = body(acc, x)] *)
Fixpoint foldM {A B : Type} (body : B -> A -> M B) (l : list A) (acc : B) : M B :=
  match l with
  | [] => ret acc
  | x :: rest => acc' <- body acc x ;; foldM body rest acc'
  end.

(** An article object as the crawlers build it; [hash] and [depth] are
    absent on some paths. *)
Record article : Type := mkArticle {
  title : string;
  link : string;
  content : string;
  hash : option string;
  depth : option Z
}.

(* ------------------------------------------------------------------ *)
(** ** crawler-factory: the back-ends                                  *)
(* ------------------------------------------------------------------ *)

Module BaseCrawler.

(** [generateHash(title, link)] *)
Definition generateHash (title link : string) : string :=
  MD5.hexdigest (title ++ link).

(** [normalizeUrl(url, baseUrl)] *)
Definition normalizeUrl (w : Web.t) (url baseUrl : string) : outcome string :=
  if Js.startsWith url "http" then Returned url
  else if Js.startsWith url "/" then
    match Web.URL_parts w baseUrl with
    | Some (protocol, host) => Returned (protocol ++ "//" ++ host ++ url)
    | None => Threw "Invalid URL"
    end
  else
    match Web.URL_resolve w url baseUrl with
    | Some h => Returned h
    | None => Threw "Invalid URL"
    end.

End BaseCrawler.

(** The hrefs kept by [.filter(href => href)] and [if (href)]. *)
Definition truthy_hrefs (els : list Web.element) : list string :=
  flat_map (fun el =>
              match Web.getAttribute_href el with
              | Some h => if Js.truthy (Js.VStr h) then [h] else []
              | None => []
              end) els.

(** The selector engine of the browser. *)
Definition css_select (doc : Web.document) (selector : string)
    : M (list Web.element) :=
  match Web.querySelectorAll doc selector with
  | Some els => ret els
  | None => throw "SyntaxError: not a valid selector"
  end.

(** The selector engine of cheerio. *)
Definition cheerio_select (doc : Web.document) (selector : string)
    : M (list Web.element) :=
  match Web.cheerio doc selector with
  | Some els => ret els
  | None => throw "SyntaxError: not a valid selector"
  end.

(** [document.querySelectorAll(selector)]: the DOM refuses the empty
    selector. *)
Definition querySelectorAll (doc : Web.document) (selector : string)
    : M (list Web.element) :=
  if String.eqb selector "" then throw "SyntaxError: The provided selector is empty"
  else css_select doc selector.

(** [document.querySelector(selector)] *)
Definition querySelector (doc : Web.document) (selector : string)
    : M (option Web.element) :=
  els <- querySelectorAll doc selector ;; ret (hd_error els).

Module PuppeteerCrawler.

(** The function evaluated in the page for one article. *)
Definition evaluate_article (doc : Web.document)
    (titleSelector contentSelector : option string) : M (string * string) :=
  titleEl <- querySelector doc (Js.to_string titleSelector) ;;
  let title :=
    match titleEl with
    | Some el => Js.trim (Web.textContent el)
    | None => ""
    end in
  if Js.truthy_text contentSelector then
    contentEls <- querySelectorAll doc (Js.to_string contentSelector) ;;
    ret (title, Js.join " " (map (fun el => Js.trim (Web.textContent el)) contentEls))
  else ret (title, "").

(** The body of the inner [try] once the page shows [doc]; [None] when
    the item is not pushed. *)
Definition extract_item (doc : Web.document) (source : Db.source_row)
    (fullContent : Js.value) (link : string) : M (option article) :=
  a <- evaluate_article doc (Db.title_selector source) (Db.content_selector source) ;;
  let '(title, content) := a in
  if Js.truthy (Js.VStr title) then
    ret (Some (mkArticle title link
                 (if Js.truthy fullContent then content else "")
                 (Some (BaseCrawler.generateHash title link)) None))
  else ret None.

Definition push (articles : list article) (a : option article) : list article :=
  match a with
  | Some x => articles ++ [x]
  | None => articles
  end.

(** One turn of the [for] loop. *)
Definition crawl_item (w : Web.t) (how : string) (source : Db.source_row)
    (fullContent : Js.value) (articles : list article) (raw : string)
    : M (list article) :=
  link <- lift (BaseCrawler.normalizeUrl w raw (Db.base_url source)) ;;
  try_catch
    (doc <- goto w how link ;;
     a <- extract_item doc source fullContent link ;;
     ret (push articles a))
    (fun _ => ret articles).

(** The body of the outer [try]. *)
Definition crawl_page (w : Web.t) (how : string) (source : Db.source_row)
    (limit fullContent : Js.value) : M (list article) :=
  doc <- goto w how (Db.base_url source) ;;
  els <- querySelectorAll doc (Db.list_selector source) ;;
  let links := truthy_hrefs els in
  foldM (crawl_item w how source fullContent)
        (firstn (Js.loop_bound (List.length links) limit) links) [].

(** [crawl(options)] on the instance made for the run: its own pool is
    empty, and dies with the instance when the run closes it. *)
Definition crawl (w : Web.t) (source : Db.source_row) (options : Js.value)
    : M (list article) :=
  let limit := Js.default (Js.get options "limit") (Js.VInt 10) in
  let fullContent := Js.default (Js.get options "fullContent") (Js.VBool true) in
  match Pool.getOrCreatePage w "puppeteer" Pool.empty with
  | (Threw e, _) => throw e
  | (Returned page, pool) =>
      finally
        (try_catch (crawl_page w "networkidle2" source limit fullContent)
                   (fun e => throw e))
        (let _ := Pool.releasePage w page pool in ret tt)
  end.

End PuppeteerCrawler.

Module CheerioCrawler.

(** [$(selector)]: an empty selection for a falsy selector. *)
Definition select (doc : Web.document) (selector : option string)
    : M (list Web.element) :=
  if Js.truthy_text selector then cheerio_select doc (Js.to_string selector) else ret [].

(** The body of the inner [try] once the page is loaded in [doc]. *)
Definition extract_item (doc : Web.document) (source : Db.source_row)
    (fullContent : Js.value) (link : string) : M (option article) :=
  titleEls <- select doc (Db.title_selector source) ;;
  let title :=
    match hd_error titleEls with
    | Some el => Js.trim (Web.textContent el)
    | None => Js.trim ""
    end in
  content <-
    (if Js.truthy fullContent && Js.truthy_text (Db.content_selector source) then
       contentEls <- select doc (Db.content_selector source) ;;
       ret (Js.join " " (map (fun el => Js.trim (Web.textContent el)) contentEls))
     else ret "") ;;
  if Js.truthy (Js.VStr title) then
    ret (Some (mkArticle title link content
                 (Some (BaseCrawler.generateHash title link)) None))
  else ret None.

Definition crawl_item (w : Web.t) (source : Db.source_row)
    (fullContent : Js.value) (articles : list article) (link : string)
    : M (list article) :=
  try_catch
    (doc <- goto w "axios" link ;;
     a <- extract_item doc source fullContent link ;;
     ret (PuppeteerCrawler.push articles a))
    (fun _ => ret articles).

(** The [.each] over the list selector: every href is normalised. *)
Definition collect_links (w : Web.t) (source : Db.source_row) (els : list Web.element)
    : M (list string) :=
  foldM (fun links h =>
           l <- lift (BaseCrawler.normalizeUrl w h (Db.base_url source)) ;;
           ret (links ++ [l])%list)
        (truthy_hrefs els) [].

Definition crawl (w : Web.t) (source : Db.source_row) (options : Js.value)
    : M (list article) :=
  let limit := Js.default (Js.get options "limit") (Js.VInt 10) in
  let fullContent := Js.default (Js.get options "fullContent") (Js.VBool true) in
  try_catch
    (doc <- goto w "axios" (Db.base_url source) ;;
     els <- select doc (Some (Db.list_selector source)) ;;
     links <- collect_links w source els ;;
     foldM (crawl_item w source fullContent)
           (firstn (Js.loop_bound (List.length links) limit) links) [])
    (fun e => throw e).

End CheerioCrawler.

Module PlaywrightCrawler.

Definition initBrowser (w : Web.t) : M unit :=
  match Web.launch w "playwright" with
  | Some _ => throw "Playwright not installed. Please install with: npm install playwright"
  | None => ret tt
  end.

(** The page function and the loop are those of the Puppeteer back-end;
    the wait condition is [networkidle]. *)
Definition crawl (w : Web.t) (source : Db.source_row) (options : Js.value)
    : M (list article) :=
  let limit := Js.default (Js.get options "limit") (Js.VInt 10) in
  let fullContent := Js.default (Js.get options "fullContent") (Js.VBool true) in
  try_catch
    (initBrowser w ;;
     PuppeteerCrawler.crawl_page w "networkidle" source limit fullContent)
    (fun e => throw e).

End PlaywrightCrawler.

Module SeleniumCrawler.

Definition initDriver (w : Web.t) : M unit :=
  match Web.launch w "selenium" with
  | Some _ =>
      throw "Selenium WebDriver not installed. Please install with: npm install selenium-webdriver"
  | None => ret tt
  end.

(** The loop over [linkElements]: an element whose href cannot be
    normalised is skipped.  WebDriver's [getAttribute('href')] is the
    resolved link. *)
Definition collect_links (w : Web.t) (source : Db.source_row) (els : list Web.element)
    : M (list string) :=
  foldM (fun links el =>
           try_catch
             (if Js.truthy (Js.VStr (Web.href el)) then
                l <- lift (BaseCrawler.normalizeUrl w (Web.href el) (Db.base_url source)) ;;
                ret (links ++ [l])%list
              else ret links)
             (fun _ => ret links))
        els [].

(** [driver.findElements(By.css(selector))]: a NULL selector is refused. *)
Definition findElements (doc : Web.document) (selector : option string)
    : M (list Web.element) :=
  match selector with
  | Some sel => querySelectorAll doc sel
  | None => throw "InvalidSelectorError"
  end.

Definition extract_item (doc : Web.document) (source : Db.source_row)
    (fullContent : Js.value) (link : string) : M (option article) :=
  title <-
    try_catch
      (els <- findElements doc (Db.title_selector source) ;;
       match els with
       | el :: _ => ret (Web.getText el)
       | [] => throw "no such element"
       end)
      (fun _ => ret "") ;;
  content <-
    (if Js.truthy fullContent && Js.truthy_text (Db.content_selector source) then
       try_catch
         (els <- findElements doc (Db.content_selector source) ;;
          ret (Js.join " "
                 (flat_map (fun el =>
                              if Js.truthy (Js.VStr (Js.trim (Web.getText el)))
                              then [Js.trim (Web.getText el)] else [])
                           els)))
         (fun _ => ret "")
     else ret "") ;;
  if Js.truthy (Js.VStr title) then
    ret (Some (mkArticle (Js.trim title) link content
                 (Some (BaseCrawler.generateHash (Js.trim title) link)) None))
  else ret None.

Definition crawl_item (w : Web.t) (source : Db.source_row)
    (fullContent : Js.value) (articles : list article) (link : string)
    : M (list article) :=
  try_catch
    (doc <- goto w "webdriver" link ;;
     a <- extract_item doc source fullContent link ;;
     ret (PuppeteerCrawler.push articles a))
    (fun _ => ret articles).

Definition crawl (w : Web.t) (source : Db.source_row) (options : Js.value)
    : M (list article) :=
  let limit := Js.default (Js.get options "limit") (Js.VInt 10) in
  let fullContent := Js.default (Js.get options "fullContent") (Js.VBool true) in
  try_catch
    (initDriver w ;;
     doc <- goto w "webdriver" (Db.base_url source) ;;
     els <- querySelectorAll doc (Db.list_selector source) ;;
     links <- collect_links w source els ;;
     foldM (crawl_item w source fullContent)
           (firstn (Js.loop_bound (List.length links) limit) links) [])
    (fun e => throw e).

End SeleniumCrawler.

(** The classes of the factory. *)
Inductive crawler : Type :=
| Puppeteer
| Cheerio
| Playwright
| Selenium
| WebDriver.

Definition crawlerType (source : Db.source_row) : string :=
  match Db.crawler_type source with
  | Some t => if Js.truthy (Js.VStr t) then t else "puppeteer"
  | None => "puppeteer"
  end.

(** [createCrawler(source)] *)
Definition createCrawler (source : Db.source_row) : crawler :=
  let t := Js.toLowerCase (crawlerType source) in
  if String.eqb t "cheerio" then Cheerio
  else if String.eqb t "playwright" then Playwright
  else if String.eqb t "selenium" then Selenium
  else if String.eqb t "webdriver" then WebDriver
  else Puppeteer.

Definition crawler_name (c : crawler) : string :=
  match c with
  | Puppeteer => "PuppeteerCrawler"
  | Cheerio => "CheerioCrawler"
  | Playwright => "PlaywrightCrawler"
  | Selenium => "SeleniumCrawler"
  | WebDriver => "WebDriverCrawler"
  end.

(** [crawler.crawl(options)], by dynamic dispatch. *)
Definition crawler_crawl (w : Web.t) (c : crawler) (source : Db.source_row)
    (options : Js.value) : M (list article) :=
  match c with
  | Puppeteer => PuppeteerCrawler.crawl w source options
  | Cheerio => CheerioCrawler.crawl w source options
  | Playwright => PlaywrightCrawler.crawl w source options
  | Selenium | WebDriver => SeleniumCrawler.crawl w source options
  end.

(** What the [try] around the extraction of an item leaves to push: the
    article it built, nothing when it built none or threw. *)
Definition pushed (extract : M (option article)) (s : World) : option article :=
  match fst (extract s) with
  | Returned o => o
  | Threw _ => None
  end.

(* ------------------------------------------------------------------ *)
(** ** services/crawler: the UniversalCrawler                          *)
(* ------------------------------------------------------------------ *)

Module UniversalCrawler.

(** [generateHash(title, link)] *)
Definition generateHash (title link : string) : string :=
  MD5.hexdigest (title ++ link).

(** *** The pool of the service *)

(** [initBrowser()] of the service.  The file requires neither
    [chrome-launcher] nor [puppeteer]: [Launcher] and [puppeteer] are
    not declared in it.  [this.browser] is [null] from the constructor
    on and is assigned by this function only, after the calls that use
    the two names: the first statement of the body throws a
    ReferenceError on every call. *)
Definition initBrowser_error : string := "Launcher is not defined".

Definition initBrowser : M nat := throw initBrowser_error.

(** [getOrCreatePage()]: the pop of an idle page; with none,
    [initBrowser] throws before [browser.newPage()] is reached. *)
Definition getOrCreatePage (w : Web.t) : M nat :=
  fun s =>
    if (0 <? List.length (Pool.pagePool (upool s)))%nat then
      let '(r, p) := Pool.getOrCreatePage w "universal" (upool s) in
      (r, mkWorld (db s) p (log s))
    else initBrowser s.

Definition releasePage (w : Web.t) (page : nat) : M unit :=
  fun s => (Returned tt, mkWorld (db s) (Pool.releasePage w page (upool s)) (log s)).

(** *** [validateCrawlOptions] *)

Definition err_limit : string := "تعداد اخبار باید بین 1 تا 100 باشد".
Definition err_crawlDepth : string := "عمق کرال باید بین 0 تا 5 باشد".
Definition err_waitTime : string :=
  "زمان انتظار باید بین 1000 تا 30000 میلی‌ثانیه باشد".
Definition err_timeout : string :=
  "Timeout باید بین 30000 تا 900000 میلی‌ثانیه باشد".
Definition err_navigationTimeout : string :=
  "Navigation timeout باید بین 30000 تا 900000 میلی‌ثانیه باشد".

(** [typeof v !== 'number' || v < lo || v > hi] *)
Definition rejected (v : Js.value) (lo hi : Z) : bool :=
  negb (Js.is_number v) || Js.lt_int v lo || Js.gt_int v hi.

Record validation : Type := mkValidation {
  isValid : bool;
  errors : list string
}.

Definition validateCrawlOptions (options : Js.value) : validation :=
  let limit := Js.default (Js.get options "limit") (Js.VInt 10) in
  let crawlDepth := Js.default (Js.get options "crawlDepth") (Js.VInt 0) in
  let waitTime := Js.default (Js.get options "waitTime") (Js.VInt 3000) in
  let timeout := Js.default (Js.get options "timeout") (Js.VInt 180000) in
  let navigationTimeout :=
    Js.default (Js.get options "navigationTimeout") (Js.VInt 120000) in
  let errors :=
    ((if rejected limit 1 100 then [err_limit] else [])
     ++ (if rejected crawlDepth 0 5 then [err_crawlDepth] else [])
     ++ (if rejected waitTime 1000 30000 then [err_waitTime] else [])
     ++ (if rejected timeout 30000 900000 then [err_timeout] else [])
     ++ (if rejected navigationTimeout 30000 900000
         then [err_navigationTimeout] else []))%list in
  mkValidation (List.length errors =? 0)%nat errors.

(** *** [saveArticle] *)

Record save_result : Type := mkSaved { id : Js.value; isNew : bool }.

Definition is_unique_violation (message : string) : bool :=
  Js.includes message "UNIQUE constraint failed"
  || Js.includes message "duplicate key"
  || Js.includes message "violates unique constraint".

Definition saveArticle (sourceId : Z) (a : article) : M save_result :=
  let hash := generateHash (title a) (link a) in
  try_catch
    (existingArticle <- query (Db.select_article hash (link a)) ;;
     match existingArticle with
     | Some row_id => ret (mkSaved (Js.VInt row_id) false)
     | None =>
         this <- query (Db.insert_or_ignore_article sourceId (title a) (link a)
                          (content a) hash
                          (match depth a with Some d => d | None => 0 end)) ;;
         let hasChanges :=
           if Js.is_number (Db.changes this) then Js.gt_int (Db.changes this) 0
           else match Db.lastID this with
                | Js.VUndefined | Js.VNull => false
                | _ => true
                end in
         ret (mkSaved (if hasChanges then Db.lastID this else Js.VNull) hasChanges)
     end)
    (fun message =>
       if is_unique_violation message then ret (mkSaved Js.VNull false)
       else throw message).

(** *** [extractArticleContent] *)

Record extracted : Type := mkExtracted {
  e_title : string;
  e_content : string;
  internalLinks : list (string * string)     (* url, text *)
}.

Definition dquote : string := String (ascii_of_nat 34) EmptyString.

Definition alternativeSelectors : list string :=
  ["h1"; "h2"; ".title"; ".headline";
   "[class*=" ++ dquote ++ "title" ++ dquote ++ "]";
   "[class*=" ++ dquote ++ "headline" ++ dquote ++ "]"].

(** The title function evaluated in the page. *)
Fixpoint first_alternative (doc : Web.document) (alts : list string) : M string :=
  match alts with
  | [] => ret ""
  | altSelector :: rest =>
      altElement <- querySelector doc altSelector ;;
      match altElement with
      | Some el =>
          if (10 <? Js.length (Js.trim (Web.textContent el)))%nat
          then ret (Js.trim (Web.textContent el))
          else first_alternative doc rest
      | None => first_alternative doc rest
      end
  end.

Definition evaluate_title (doc : Web.document) (selector : string) : M string :=
  element <- querySelector doc selector ;;
  match element with
  | Some el => ret (Js.trim (Web.textContent el))
  | None => first_alternative doc alternativeSelectors
  end.

Definition newline : string := String (ascii_of_nat 10) EmptyString.

Definition evaluate_content (doc : Web.document) (selector : string) : M string :=
  elements <- querySelectorAll doc selector ;;
  ret (Js.join newline (map (fun el => Js.trim (Web.textContent el)) elements)).

Definition is_internal (baseUrl : string) (el : Web.element) : bool :=
  Js.truthy (Js.VStr (Web.href el))
  && Js.includes (Web.href el) baseUrl
  && negb (Js.includes (Web.href el) "#")
  && negb (Js.includes (Web.href el) "javascript:").

Definition evaluate_links (doc : Web.document) (baseUrl : string)
    (linkSelector : option string) : M (list (string * string)) :=
  elements <- querySelectorAll doc
                (if Js.truthy_text linkSelector then Js.to_string linkSelector else "a") ;;
  let links :=
    map (fun el => (Web.href el, Js.trim (Web.textContent el)))
        (filter (is_internal baseUrl) elements) in
  ret (Js.slice0 3 links).

Definition untitled : string := "بدون عنوان".
Definition extraction_failed : string := "خطا در استخراج".

(** [extractArticleContent(page, url, selectors, options)], for options
    that are not [null]: the two timeouts read from them do not enter
    the model, and at [null] their destructuring, which comes before
    the [try], throws a TypeError. *)
Definition extractArticleContent (w : Web.t) (page : nat) (url : string)
    (selectors : Db.source_row) (options : Js.value) : M extracted :=
  try_catch
    (doc <- try_catch (goto w "domcontentloaded" url)
                      (fun _ => goto w "load" url) ;;
     title <- (if Js.truthy_text (Db.title_selector selectors)
               then evaluate_title doc (Js.to_string (Db.title_selector selectors))
               else ret "") ;;
     content <- (if Js.truthy_text (Db.content_selector selectors)
                 then evaluate_content doc (Js.to_string (Db.content_selector selectors))
                 else ret "") ;;
     origin <- lift (match Web.URL_origin w url with
                     | Some o => Returned o
                     | None => Threw "Invalid URL"
                     end) ;;
     internalLinks <- evaluate_links doc origin (Db.link_selector selectors) ;;
     ret (mkExtracted (if Js.truthy (Js.VStr title) then title else untitled)
                      content internalLinks))
    (fun _ => ret (mkExtracted extraction_failed "" [])).

(** *** [crawlInternalLinks] *)

(** The async arrow function mapped over a chunk, after it has taken
    its page. *)
Definition link_body (w : Web.t) (sourceId : Z) (selectors : Db.source_row)
    (currentDepth : Z) (dedicatedPage : nat) (linkInfo : string * string)
    : M (option article) :=
  finally
    (try_catch
       (articleData <- extractArticleContent w dedicatedPage (fst linkInfo) selectors
                         (Js.VObject [("waitTime", Js.VInt 2000); ("timeout", Js.VInt 60000)]) ;;
        let article :=
          mkArticle (e_title articleData) (fst linkInfo) (e_content articleData)
                    None (Some (currentDepth + 1)) in
        saveResult <- saveArticle sourceId article ;;
        if isNew saveResult then ret (Some article) else ret None)
       (fun _ => ret None))
    (releasePage w dedicatedPage).

(** [chunk.map(async (linkInfo) => ...)]: each call of the arrow
    function runs up to its first await, so every task of the chunk
    takes its page before any of them goes on. *)
Definition start_task (w : Web.t) (started : list ((string * string) * outcome nat))
    (linkInfo : string * string) : M (list ((string * string) * outcome nat)) :=
  fun s =>
    let '(page, s') := getOrCreatePage w s in
    (Returned (started ++ [(linkInfo, page)])%list, s').

(** [Promise.allSettled] and the filter on fulfilled, truthy values: a
    task that could not take a page is a rejected promise and is
    dropped.  The bodies of the tasks are taken one after the other:
    one of the orders in which their awaits may resolve. *)
Definition finish_task (w : Web.t) (sourceId : Z) (selectors : Db.source_row)
    (currentDepth : Z) (results : list article)
    (task : (string * string) * outcome nat) : M (list article) :=
  match snd task with
  | Threw _ => ret results
  | Returned dedicatedPage =>
      r <- try_catch
             (link_body w sourceId selectors currentDepth dedicatedPage (fst task))
             (fun _ => ret None) ;;
      ret (PuppeteerCrawler.push results r)
  end.

Definition settle_chunk (w : Web.t) (sourceId : Z) (selectors : Db.source_row)
    (currentDepth : Z) (results : list article) (chunk : list (string * string))
    : M (list article) :=
  started <- foldM (start_task w) chunk [] ;;
  foldM (finish_task w sourceId selectors currentDepth) started results.

Definition crawlInternalLinks (w : Web.t) (page : nat) (links : list (string * string))
    (sourceId : Z) (selectors : Db.source_row) (currentDepth maxDepth : Z)
    : M (list article) :=
  if (currentDepth >=? maxDepth) || (List.length links =? 0)%nat then ret []
  else
    let linksToProcess := Js.slice0 2 links in
    let chunkSize := 2%nat in
    foldM (settle_chunk w sourceId selectors currentDepth)
          (Js.chunks (List.length linksToProcess) chunkSize linksToProcess) [].

(** *** [crawlSource] and its helpers *)

Definition getSource (sourceId : Z) : M (option Db.source_row) :=
  query (Db.select_source sourceId).

(** [logger.logCrawlOperation(sourceId, action, status, message, stats)] *)
Definition logCrawlOperation (sourceId : Z) (action status message : string)
    (articlesFound articlesProcessed duration : Z) : M unit :=
  query (Db.insert_log
           (Db.mkLogRow sourceId action status message
                        articlesFound articlesProcessed duration)).

Definition logCrawlHistory (sourceId : Z) (totalFound totalProcessed newArticles : Z)
    (crawlDepth : Js.value) (duration : Z) : M unit :=
  query (Db.insert_history
           (Db.mkHistoryRow sourceId totalFound totalProcessed newArticles
                            crawlDepth duration)).

Definition article_object (a : article) : Js.value :=
  Js.VObject
    ([("title", Js.VStr (title a)); ("link", Js.VStr (link a));
      ("content", Js.VStr (content a))]
     ++ match hash a with
        | Some h => [("hash", Js.VStr h)]
        | None => []
        end
     ++ match depth a with
        | Some d => [("depth", Js.VInt d)]
        | None => []
        end)%list.

(** One turn of the loop that stores the crawled articles; [acc] is the
    count of new ones with [mainArticles]. *)
Definition save_step (sourceId : Z) (acc : Z * list article) (a : article)
    : M (Z * list article) :=
  saveResult <- saveArticle sourceId a ;;
  if isNew saveResult
  then ret (fst acc + 1, (snd acc ++ [a])%list)
  else ret acc.

Definition save_all (sourceId : Z) (articles : list article) : M (Z * list article) :=
  foldM (save_step sourceId) articles (0, []).

Definition invalid_options : string := "تنظیمات نامعتبر: ".

(** The body of the inner [try]: crawl with the chosen back-end, store,
    log, and build the result. *)
Definition crawl_and_store (w : Web.t) (sourceId : Z) (source : Db.source_row)
    (crawler : crawler) (limit fullContent crawlDepth : Js.value) : M Js.value :=
  articles <- crawler_crawl w crawler source
                (Js.VObject [("limit", limit); ("fullContent", fullContent)]) ;;
  saved <- save_all sourceId articles ;;
  let '(newArticlesCount, mainArticles) := saved in
  let duration := Web.elapsed w in
  logCrawlOperation sourceId "crawl" "success"
    ("کرال منبع " ++ Db.s_name source ++ " تکمیل شد")
    (Z.of_nat (List.length articles)) newArticlesCount (duration * 1000) ;;
  logCrawlHistory sourceId
    (Z.of_nat (List.length articles)) (Z.of_nat (List.length articles))
    newArticlesCount crawlDepth (duration * 1000) ;;
  ret (Js.VObject
         [("success", Js.VBool true);
          ("source", Js.VStr (Db.s_name source));
          ("sourceId", Js.VInt sourceId);
          ("crawlerType", Js.VStr (crawlerType source));
          ("totalArticles", Js.VInt (Z.of_nat (List.length mainArticles)));
          ("newArticles", Js.VInt newArticlesCount);
          ("internalArticles", Js.VInt 0);
          ("duration", Js.VInt duration);
          ("articles",
           Js.VArray (map article_object (Js.slice0 5 mainArticles)))]).

(** The body of the outer [catch]. *)
Definition report_failure (w : Web.t) (sourceId : Z) (message : string) : M Js.value :=
  let duration := Web.elapsed w in
  try_catch
    (logCrawlOperation sourceId "crawl" "error" ("خطا در کرال: " ++ message)
       0 0 (duration * 1000))
    (fun _ => ret tt) ;;
  ret (Js.VObject
         [("success", Js.VBool false);
          ("error", Js.VStr message);
          ("source", Js.VInt sourceId);
          ("duration", Js.VInt duration)]).

(** [crawlSource(sourceId, options)], for options that are not [null]:
    at [null] the destructuring of the options, which comes before the
    [try], throws a TypeError.  The id is printed in the message of a
    missing source as JavaScript prints an integer up to 2^53. *)
Definition crawlSource (w : Web.t) (sourceId : Z) (options : Js.value) : M Js.value :=
  let limit := Js.default (Js.get options "limit") (Js.VInt 10) in
  let crawlDepth := Js.default (Js.get options "crawlDepth") (Js.VInt 0) in
  let fullContent := Js.default (Js.get options "fullContent") (Js.VBool true) in
  let validation := validateCrawlOptions options in
  if negb (isValid validation) then
    ret (Js.VObject
           [("success", Js.VBool false);
            ("error", Js.VStr (invalid_options ++ Js.join ", " (errors validation)));
            ("source", Js.VInt sourceId)])
  else
    try_catch
      (source <- getSource sourceId ;;
       match source with
       | None =>
           throw ("منبع خبری با شناسه " ++ Js.string_of_Z sourceId ++ " یافت نشد")
       | Some source =>
           logCrawlOperation sourceId "start" "running"
             ("شروع کرال منبع " ++ Db.s_name source) 0 0 0 ;;
           let crawler := createCrawler source in
           emit (EvCreateCrawler (crawler_name crawler)) ;;
           try_catch
             (crawl_and_store w sourceId source crawler limit fullContent crawlDepth)
             (fun crawlerError => throw crawlerError)
       end)
      (report_failure w sourceId).

End UniversalCrawler.

(* ------------------------------------------------------------------ *)
(** ** services/scheduler                                              *)
(* ------------------------------------------------------------------ *)

Module Scheduler.

(** The [crawlOptions] object built from a schedule row. *)
Definition crawlOptions (s : Db.schedule_row) : Js.value :=
  Js.VObject
    [("limit", Js.or (Db.article_limit s) (Js.VInt 10));
     ("crawlDepth",
      if Js.strict_neq_undefined (Db.crawl_depth s) then Db.crawl_depth s
      else Js.VInt 0);
     ("fullContent", Js.or (Db.full_content s) (Js.VBool false));
     ("timeout", Js.or (Db.timeout_ms s) (Js.VInt 300000));
     ("followLinks", Js.VBool (Js.strict_neq_false (Db.follow_links s)))].






(** [this.jobs]: the running jobs by schedule id, each with the schedule
    its callback captured. *)
Definition jobs : Type := list (Z * Db.schedule_row).

Definition stopJob (js : jobs) (scheduleId : Z) : jobs :=
  filter (fun j => negb (fst j =? scheduleId)) js.

Definition startJob (js : jobs) (schedule : Db.schedule_row) : jobs :=
  (Db.sch_id schedule, schedule) :: stopJob js (Db.sch_id schedule).




End Scheduler.


(* ------------------------------------------------------------------ *)
(** ** routes/api: the crawl routes                                    *)
(* ------------------------------------------------------------------ *)

Module Api.

(** [GET /crawl/:sourceId?limit=&depth=&full=]: the body of the answer
    is the result of [crawlSource]. *)
Definition get_crawl (w : Web.t) (sourceId : Z) (query_string : Js.value) : M Js.value :=
  let limit := Js.default (Js.get query_string "limit") (Js.VInt 10) in
  let depth := Js.default (Js.get query_string "depth") (Js.VInt 0) in
  let full := Js.default (Js.get query_string "full") (Js.VBool true) in
  UniversalCrawler.crawlSource w sourceId
    (Js.VObject
       [("limit", Js.parseInt limit);
        ("crawlDepth", Js.parseInt depth);
        ("fullContent",
         Js.VBool match full with Js.VStr s => String.eqb s "true" | _ => false end)]).

(** [POST /crawler/crawl] with a truthy [source_id]. *)
Definition post_crawler_crawl (w : Web.t) (source_id : Z) (body : Js.value) : M Js.value :=
  let limit := Js.default (Js.get body "limit") (Js.VInt 10) in
  let depth := Js.default (Js.get body "depth") (Js.VInt 0) in
  let full_content := Js.default (Js.get body "full_content") (Js.VBool true) in
  result <- UniversalCrawler.crawlSource w source_id
              (Js.VObject
                 [("limit", Js.parseInt limit);
                  ("crawlDepth", Js.parseInt depth);
                  ("fullContent", full_content)]) ;;
  ret (Js.VObject
         [("success", Js.VBool true);
          ("processed", Js.or (Js.get result "processed") (Js.VInt 0));
          ("new_articles", Js.or (Js.get result "newArticles") (Js.VInt 0));
          ("duplicates", Js.or (Js.get result "duplicates") (Js.VInt 0));
          ("errors", Js.or (Js.get result "errors") (Js.VInt 0));
          ("message", Js.VStr "کرال با موفقیت انجام شد")]).

End Api.

(* ------------------------------------------------------------------ *)
(** ** More string primitives                                          *)
(* ------------------------------------------------------------------ *)

Module Text.

(** [s.split(' ')] *)
Fixpoint split_from (current : string) (s : string) : list string :=
  match s with
  | EmptyString => [current]
  | String c rest =>
      if Ascii.eqb c " " then current :: split_from "" rest
      else split_from (current ++ String c "") rest
  end.

Definition split (s : string) : list string := split_from "" s.

(** [s.substring(0, n)] in UTF-16 code units, on the UTF-8 bytes of the
    text: a code point of one unit has one to three bytes, one of two
    units has four.  A code point of two units cut in its middle leaves
    a lone surrogate, which is written out as U+FFFD. *)
Definition take_bytes (k : nat) (s : string) : string :=
  String.substring 0 k s.

Definition drop_bytes (k : nat) (s : string) : string :=
  String.substring k (String.length s - k) s.

Definition code_point_bytes (c : ascii) : nat :=
  let n := nat_of_ascii c in
  if (n <? 128)%nat then 1
  else if (n <? 224)%nat then 2
  else if (n <? 240)%nat then 3
  else 4.

Definition replacement_character : string :=
  String (ascii_of_nat 239) (String (ascii_of_nat 191) (String (ascii_of_nat 189) "")).

Fixpoint substring0 (fuel units : nat) (s : string) : string :=
  match fuel, units, s with
  | O, _, _ | _, O, _ | _, _, EmptyString => ""
  | S fuel', S units', String c _ =>
      let k := code_point_bytes c in
      if (k =? 4)%nat then
        match units' with
        | O => replacement_character
        | S units'' => take_bytes 4 s ++ substring0 fuel' units'' (drop_bytes 4 s)
        end
      else take_bytes k s ++ substring0 fuel' units' (drop_bytes k s)
  end.

(** [s.substring(0, n)] *)
Definition substring (n : nat) (s : string) : string := substring0 n n s.

End Text.

(* ------------------------------------------------------------------ *)
(** ** services/crawler: [testSelector] and its helpers                *)
(* ------------------------------------------------------------------ *)

(** The setters of the timeouts and [page.close()] are taken not to
    throw; the two waits after the navigation sit in a [try] of their
    own, whose [catch] only logs. *)
Module SelectorTest.

(** The four options, as integers; the routes pass none, so that the
    defaults of the destructuring apply. *)
Record options : Type := mkOptions {
  waitTime : Z;
  timeout : Z;
  defaultTimeout : Z;
  readyStateTimeout : Z
}.

Definition defaults : options := mkOptions 3000 20000 15000 5000.

(** What the page functions read besides the text and the links of an
    element, and the clock. *)
Record page_env : Type := mkEnv {
  tagName : Web.element -> string;
  className : Web.element -> Js.value;
  element_id : Web.element -> string;
  attributes : Web.element -> list (string * string);
  document_title : Web.document -> string;
  location_href : Web.document -> string;
  readyState : Web.document -> string;
  duration_ms : Z;                 (* Date.now() - startTime *)
  timestamp : string               (* new Date().toISOString() *)
}.

Definition err_timeout : string := "Timeout باید بین 5000 تا 120000 میلی‌ثانیه باشد".
Definition err_waitTime : string := "زمان انتظار باید بین 1000 تا 30000 میلی‌ثانیه باشد".
Definition err_required : string := "URL و سلکتور الزامی هستند".
Definition err_url : string := "فرمت URL نامعتبر است".
Definition err_not_found : string := "سلکتور در صفحه یافت نشد".

(** The checks at the head of the [try]: the message of the first that
    fails. *)
Definition refusal (w : Web.t) (url selector : string) (o : options) : option string :=
  if (timeout o <? 5000) || (timeout o >? 120000) then Some err_timeout
  else if (waitTime o <? 1000) || (waitTime o >? 30000) then Some err_waitTime
  else if negb (Js.truthy (Js.VStr url)) || negb (Js.truthy (Js.VStr selector))
  then Some err_required
  else match Web.URL_parts w url with
       | None => Some err_url
       | Some _ => None
       end.

Definition sample_href (el : Web.element) : Js.value :=
  if Js.truthy (Js.VStr (Web.href el)) then Js.VStr (Web.href el)
  else match Web.getAttribute_href el with
       | Some h => if Js.truthy (Js.VStr h) then Js.VStr h else Js.VNull
       | None => Js.VNull
       end.

Definition numbered {A : Type} (l : list A) : list (Z * A) :=
  combine (map Z.of_nat (seq 1 (List.length l))) l.

(** The samples of the three kinds of test. *)
Definition sample (env : page_env) (testType : string) (numbered_el : Z * Web.element)
    : Js.value :=
  let '(index, el) := numbered_el in
  let text := Js.trim (Web.textContent el) in
  if String.eqb testType "list" then
    Js.VObject [("index", Js.VInt index);
                ("text", Js.VStr (Text.substring 150 text));
                ("href", sample_href el);
                ("tagName", Js.VStr (Js.toLowerCase (tagName env el)));
                ("className", Js.or (className env el) (Js.VStr ""));
                ("id", Js.VStr (element_id env el))]
  else if String.eqb testType "content" then
    Js.VObject [("index", Js.VInt index);
                ("text", Js.VStr (Text.substring 300 text));
                ("tagName", Js.VStr (Js.toLowerCase (tagName env el)));
                ("className", Js.or (className env el) (Js.VStr ""));
                ("id", Js.VStr (element_id env el))]
  else
    Js.VObject [("index", Js.VInt index);
                ("text", Js.VStr (Text.substring 200 text));
                ("tagName", Js.VStr (Js.toLowerCase (tagName env el)));
                ("className", Js.or (className env el) (Js.VStr ""));
                ("id", Js.VStr (element_id env el));
                ("attributes",
                 Js.VObject (map (fun a => (fst a, Js.VStr (snd a))) (attributes env el)))].

(** The page function that extracts the samples; its own [catch]
    answers with an error object. *)
Definition evaluate_samples (env : page_env) (doc : Web.document)
    (selector testType : string) : M Js.value :=
  try_catch
    (elements <- querySelectorAll doc selector ;;
     let shown := if String.eqb testType "list" then 5%nat else 3%nat in
     ret (Js.VObject
            [("count", Js.VInt (Z.of_nat (List.length elements)));
             ("samples",
              Js.VArray (map (sample env testType)
                             (numbered (Js.slice0 shown elements))))]))
    (fun message =>
       ret (Js.VObject
              [("error", Js.VStr ("خطا در اجرای سلکتور: " ++ message));
               ("count", Js.VInt 0);
               ("samples", Js.VArray [])])).

Record suggestion : Type := mkSuggestion {
  s_selector : string;
  s_count : nat;
  s_description : string
}.

Definition commonTags : list string :=
  ["a"; "h1"; "h2"; "h3"; "p"; "div"; "span"; "article"].

(** One turn of the loops that propose a selector: kept when it matches
    an element. *)
Definition propose (doc : Web.document) (selector description : string)
    (suggestions : list suggestion) : M (list suggestion) :=
  elements <- querySelectorAll doc selector ;;
  if (0 <? List.length elements)%nat
  then ret (suggestions ++ [mkSuggestion selector (List.length elements) description])%list
  else ret suggestions.

(** [classNames.add(cls.trim())] on a set kept in insertion order. *)
Definition add_class (classNames : list string) (cls : string) : list string :=
  if existsb (String.eqb cls) classNames then classNames
  else (classNames ++ [cls])%list.

(** The class names of the page that tell of news, articles or links. *)
Definition collect_classes (env : page_env) (classNames : list string)
    (el : Web.element) : list string :=
  match className env el with
  | Js.VStr c =>
      if Js.truthy (Js.VStr c) then
        fold_left
          (fun names cls =>
             if (Js.truthy (Js.VStr (Js.trim cls)) && Js.includes cls "news")
                || Js.includes cls "article" || Js.includes cls "link"
             then add_class names (Js.trim cls)
             else names)
          (Text.split c) classNames
      else classNames
  | _ => classNames
  end.

(** [generateSelectorSuggestions(page, originalSelector)] *)
Definition generateSelectorSuggestions (env : page_env) (doc : Web.document)
    : M (list suggestion) :=
  try_catch
    (by_tag <- foldM (fun suggestions tag =>
                        propose doc tag ("همه تگ‌های " ++ tag) suggestions)
                     commonTags [] ;;
     allElements <- querySelectorAll doc "*" ;;
     let classNames := fold_left (collect_classes env) allElements [] in
     suggestions <- foldM (fun suggestions className =>
                             propose doc ("." ++ className)
                                     ("عناصر با کلاس " ++ className) suggestions)
                          (Js.slice0 5 classNames) by_tag ;;
     ret (Js.slice0 10 suggestions))
    (fun _ => ret []).

Definition suggestion_object (s : suggestion) : Js.value :=
  Js.VObject [("selector", Js.VStr (s_selector s));
              ("count", Js.VInt (Z.of_nat (s_count s)));
              ("description", Js.VStr (s_description s))].

(** [getPageInfo(page)] *)
Definition getPageInfo (env : page_env) (doc : Web.document) : M Js.value :=
  try_catch
    (all <- querySelectorAll doc "*" ;;
     links <- querySelectorAll doc "a" ;;
     images <- querySelectorAll doc "img" ;;
     ret (Js.VObject
            [("title", Js.VStr (document_title env doc));
             ("url", Js.VStr (location_href env doc));
             ("totalElements", Js.VInt (Z.of_nat (List.length all)));
             ("links", Js.VInt (Z.of_nat (List.length links)));
             ("images", Js.VInt (Z.of_nat (List.length images)));
             ("readyState", Js.VStr (readyState env doc))]))
    (fun _ => ret (Js.VObject [])).

(** [await page.close()] *)
Definition close_page (page : nat) : M unit :=
  fun s =>
    (Returned tt,
     mkWorld (db s)
             (Pool.mkPool (Pool.pagePool (upool s)) (Pool.closed (upool s) ++ [page])
                          (Pool.created (upool s)))
             (log s)).

(** [page.isClosed()] *)
Definition isClosed (page : nat) (s : World) : bool :=
  existsb (Nat.eqb page) (Pool.closed (upool s)).

(** The [try] block from the navigation on, for the page it took. *)
Definition on_page (env : page_env) (w : Web.t) (page : nat)
    (url selector testType : string) : M Js.value :=
  doc <- try_catch (goto w "domcontentloaded" url) (fun _ => goto w "load" url) ;;
  element <- querySelector doc selector ;;
  match element with
  | None =>
      suggestions <- generateSelectorSuggestions env doc ;;
      pageInfo <- getPageInfo env doc ;;
      ret (Js.VObject
             [("success", Js.VBool false);
              ("error", Js.VStr err_not_found);
              ("url", Js.VStr url);
              ("selector", Js.VStr selector);
              ("type", Js.VStr testType);
              ("suggestions", Js.VArray (map suggestion_object suggestions));
              ("pageInfo", pageInfo)])
  | Some _ =>
      result <- evaluate_samples env doc selector testType ;;
      close_page page ;;
      ret (Js.VObject
             [("success", Js.VBool true);
              ("url", Js.VStr url);
              ("selector", Js.VStr selector);
              ("type", Js.VStr testType);
              ("result", result);
              ("duration", Js.VInt (duration_ms env));
              ("timestamp", Js.VStr (timestamp env));
              ("performance",
               Js.VObject
                 [("loadTime", Js.VInt (duration_ms env));
                  ("elementsFound", Js.get result "count");
                  ("status",
                   Js.VStr (if Js.gt_int (Js.get result "count") 0
                            then "excellent" else "warning"))])])
  end.

(** The kind of an error and the advice that goes with it. *)
Definition classify (message : string) : string * string :=
  if Js.includes message "Navigation timeout" then
    ("timeout",
     "صفحه در زمان مقرر بارگذاری نشد. ممکن است سایت کند باشد یا مشکل اتصال وجود داشته باشد.")
  else if Js.includes message "net::ERR_" then
    ("network", "مشکل در اتصال به سایت. لطفاً URL را بررسی کنید.")
  else if Js.includes message "Protocol error" then
    ("browser", "مشکل در مرورگر. ممکن است نیاز به راه‌اندازی مجدد باشد.")
  else ("unknown", "").

(** The object the [catch] returns. *)
Definition failure (env : page_env) (url selector testType message : string) : Js.value :=
  Js.VObject
    [("success", Js.VBool false);
     ("error", Js.VStr message);
     ("errorType", Js.VStr (fst (classify message)));
     ("suggestion", Js.VStr (snd (classify message)));
     ("url", Js.VStr url);
     ("selector", Js.VStr selector);
     ("type", Js.VStr testType);
     ("duration", Js.VInt (duration_ms env));
     ("timestamp", Js.VStr (timestamp env))].

(** The [try] block: the page it took, if it came that far, and how it
    ended. *)
Definition attempt (env : page_env) (w : Web.t) (url selector testType : string)
    (o : options) (s : World) : option nat * outcome Js.value * World :=
  match refusal w url selector o with
  | Some message => (None, Threw message, s)
  | None =>
      match UniversalCrawler.getOrCreatePage w s with
      | (Threw message, s1) => (None, Threw message, s1)
      | (Returned page, s1) =>
          let '(r, s2) := on_page env w page url selector testType s1 in
          (Some page, r, s2)
      end
  end.

(** [testSelector(url, selector, type, options)]: the [try], the
    [catch] that turns an error into an answer, and the [finally] that
    closes the page when one was taken and is still open. *)
Definition testSelector (env : page_env) (w : Web.t) (url selector testType : string)
    (o : options) : M Js.value :=
  fun s =>
    let '(page, r, s1) := attempt env w url selector testType o s in
    let answer :=
      match r with
      | Returned v => v
      | Threw message => failure env url selector testType message
      end in
    match page with
    | Some p =>
        if isClosed p s1 then (Returned answer, s1)
        else (Returned answer, snd (close_page p s1))
    | None => (Returned answer, s1)
    end.

(** The routes [POST /test-selector] and [POST /crawler/test-selector],
    for a body whose [url] and [selector] are texts: the status of the
    answer. *)
Definition status_of (errorType : Js.value) : Z :=
  match errorType with
  | Js.VStr t =>
      if String.eqb t "timeout" || String.eqb t "network" then 408
      else if String.eqb t "browser" then 503
      else 400
  | _ => 400
  end.

Definition post_test_selector (env : page_env) (w : Web.t) (url selector testType : string)
    : M Z :=
  if negb (Js.truthy (Js.VStr url)) || negb (Js.truthy (Js.VStr selector)) then ret 400
  else
    match Web.URL_parts w url with
    | None => ret 400
    | Some _ =>
        result <- testSelector env w url selector testType defaults ;;
        if Js.truthy (Js.get result "success") then ret 200
        else ret (status_of (Js.get result "errorType"))
    end.

End SelectorTest.

(* ------------------------------------------------------------------ *)
(** ** The server file: the helpers of [GET /api/farsnews]              *)
(* ------------------------------------------------------------------ *)

Module Farsnews.

(** The browser of the server file: the site, and the address a loaded
    page reports as [window.location.href]. *)
Record browser : Type := mkBrowser {
  web : Web.t;
  location_href : Web.document -> string
}.

Record link_info : Type := mkLink {
  l_title : string;
  l_link : string
}.

Record extracted : Type := mkExtracted {
  e_content : string;
  e_internalLinks : list link_info
}.

(** The articles [crawlInternalLinks] builds; their dates, read from
    the clock, are not part of the model. *)
Record article : Type := mkArticle {
  a_title : string;
  a_link : string;
  a_content : string;
  a_summary : string;
  a_depth : Z
}.

Definition content_selectors : list string :=
  ["article .content"; ".article-content"; ".news-content"; ".post-content";
   "[class*=" ++ UniversalCrawler.dquote ++ "content" ++ UniversalCrawler.dquote ++ "]";
   "main p"; ".entry-content"].

(** The loop over the selectors: the text of the first element whose
    trimmed text is longer than 100, [""] when there is none. *)
Fixpoint first_content (doc : Web.document) (selectors : list string) : M string :=
  match selectors with
  | [] => ret ""
  | selector :: rest =>
      element <- querySelector doc selector ;;
      match element with
      | Some el =>
          if (100 <? Js.length (Js.trim (Web.textContent el)))%nat
          then ret (Js.trim (Web.textContent el))
          else first_content doc rest
      | None => first_content doc rest
      end
  end.

Definition not_extractable : string := "محتوای مقاله قابل استخراج نیست".

(** The fall-back on the paragraphs of the page. *)
Definition paragraphs_content (doc : Web.document) : M string :=
  paragraphs <- querySelectorAll doc "p" ;;
  let text :=
    Js.join " "
      (filter (fun t => (20 <? Js.length t)%nat)
              (map (fun p => Js.trim (Web.textContent p)) paragraphs)) in
  ret (if (100 <? Js.length text)%nat then text else not_extractable).

(** One turn of [links.forEach]. *)
Definition collect_link (here : string) (internalLinks : list link_info)
    (el : Web.element) : list link_info :=
  match Web.getAttribute_href el with
  | None => internalLinks
  | Some href =>
      let title := Js.trim (Web.textContent el) in
      if Js.truthy (Js.VStr href) && Js.truthy (Js.VStr title)
         && (10 <? Js.length title)%nat
      then
        if Js.includes href "farsnews.ir" || Js.startsWith href "/" then
          let fullLink :=
            if Js.startsWith href "http" then href
            else "https://www.farsnews.ir" ++ href in
          if negb (existsb (fun l => String.eqb (l_link l) fullLink) internalLinks)
             && negb (String.eqb fullLink here)
          then (internalLinks ++ [mkLink title fullLink])%list
          else internalLinks
        else internalLinks
      else internalLinks
  end.

(** The function evaluated in the page. *)
Definition evaluate (b : browser) (doc : Web.document) : M extracted :=
  found <- first_content doc content_selectors ;;
  content <- (if Js.truthy (Js.VStr found) then ret found else paragraphs_content doc) ;;
  links <- querySelectorAll doc "a[href]" ;;
  let internalLinks := fold_left (collect_link (location_href b doc)) links [] in
  ret (mkExtracted content (Js.slice0 5 internalLinks)).

Definition extraction_error : string := "خطا در استخراج محتوا".

(** [extractArticleContent(page, url)]; setting the headers and the
    wait after the navigation are taken not to throw. *)
Definition extractArticleContent (b : browser) (url : string) : M extracted :=
  try_catch
    (doc <- goto (web b) "networkidle0" url ;;
     evaluate b doc)
    (fun _ => ret (mkExtracted extraction_error [])).

(** The article built for a link and what its page gave. *)
Definition article_of (link : link_info) (result : extracted) (currentDepth : Z) : article :=
  mkArticle (l_title link) (l_link link) (e_content result)
    (Text.substring 200 (e_content result) ++ "...")
    (currentDepth + 1).

(** [crawlInternalLinks(page, links, maxDepth, currentDepth)]: [fuel]
    counts the levels left below [maxDepth], one per recursive call. *)
Fixpoint crawl_levels (fuel : nat) (b : browser) (links : list link_info)
    (maxDepth currentDepth : Z) : M (list article) :=
  match fuel with
  | O => ret []
  | S fuel' =>
      if (currentDepth >=? maxDepth) || (List.length links =? 0)%nat then ret []
      else
        foldM
          (fun crawledArticles link =>
             extracted <- try_catch
                            (result <- extractArticleContent b (l_link link) ;;
                             ret (Some result))
                            (fun _ => ret None) ;;
             match extracted with
             | None => ret crawledArticles
             | Some result =>
                 let pushed :=
                   (crawledArticles ++ [article_of link result currentDepth])%list in
                 if negb (List.length (e_internalLinks result) =? 0)%nat
                    && (currentDepth + 1 <? maxDepth)
                 then
                   try_catch
                     (deeperArticles <- crawl_levels fuel' b (e_internalLinks result)
                                          maxDepth (currentDepth + 1) ;;
                      ret (pushed ++ deeperArticles)%list)
                     (fun _ => ret pushed)
                 else ret pushed
             end)
          (Js.slice0 3 links) []
  end.

Definition crawlInternalLinks (b : browser) (links : list link_info)
    (maxDepth currentDepth : Z) : M (list article) :=
  crawl_levels (Z.to_nat (maxDepth - currentDepth)) b links maxDepth currentDepth.

(** The largest number of articles [levels] levels can give: three per
    level for each article of the level above. *)
Fixpoint most_articles (levels : nat) : nat :=
  match levels with
  | O => 0
  | S levels' => 3 * (1 + most_articles levels')
  end.

End Farsnews.

(* ------------------------------------------------------------------ *)
(** ** services/scheduler: [calculateNextRun]                          *)
(* ------------------------------------------------------------------ *)

Module Moment.

(** A moment of moment-timezone in a zone whose offset does not change
    over the computation: the minutes elapsed on the wall clock of the
    zone since 1970-01-01T00:00 of that clock, then the seconds and
    milliseconds within the minute. *)
Record t : Type := mkMoment {
  minute : Z;
  second : Z;
  millisecond : Z
}.

(** [m.minutes()] *)
Definition minutes (m : t) : Z := minute m mod 60.

(** The time value of the Date a moment keeps, which is shifted to the
    wall clock.  A Date holds at most 8.64e15 milliseconds on either
    side of 1970; a setter that leaves this range makes it invalid. *)
Definition time_value (m : t) : Z :=
  (minute m * 60 + second m) * 1000 + millisecond m.

Definition max_time : Z := 8640000000000000.

Definition checked (m : t) : option t :=
  if Z.abs (time_value m) <=? max_time then Some m else None.

(** [m.minutes(v)]: the minute of the hour is set; a value out of 0..59
    bubbles up to the hour; the setter ignores [NaN]. *)
Definition set_minutes (v : Js.value) (m : t) : option t :=
  match v with
  | Js.VInt n => checked (mkMoment (minute m - minute m mod 60 + n) (second m) (millisecond m))
  | _ => Some m
  end.

(** [m.seconds(0).milliseconds(0)] *)
Definition on_the_minute (m : t) : option t := checked (mkMoment (minute m) 0 0).

(** [m.add(n, 'minutes')], [m.add(1, 'hour')] *)
Definition add_minutes (n : Z) (m : t) : option t :=
  checked (mkMoment (minute m + n) (second m) (millisecond m)).

(** The next call on a moment: an invalid moment stays invalid. *)
Definition and_then (m : option t) (f : t -> option t) : option t :=
  match m with
  | Some x => f x
  | None => None
  end.

(** [m.toISOString()], as the moment it renders: [null] for an invalid
    moment and for one whose time in UTC is out of the range of Date;
    [offset] is the offset of the zone in minutes east of UTC. *)
Definition toISOString (offset : Z) (m : option t) : option t :=
  and_then m (fun x =>
    if Z.abs (time_value x - offset * 60000) <=? max_time then Some x else None).

(** A moment of our era in a zone of the Earth: the fields of a wall
    clock, after 1970 and before the year 20000. *)
Definition ordinary (offset : Z) (m : t) : Prop :=
  0 <= second m < 60
  /\ 0 <= millisecond m < 1000
  /\ 0 <= minute m <= 10 ^ 10
  /\ - 1000 <= offset <= 1000.

End Moment.

Module NextRun.

(** [s.substring(2)] for a text that starts with two one-byte letters. *)
Definition substring2 (s : string) : string :=
  match s with
  | String _ (String _ rest) => rest
  | _ => ""
  end.

(** [Math.ceil(currentMinute / interval) * interval] for a minute of
    the hour: a division by zero gives [Infinity] or [NaN], and the
    product with zero [NaN]. *)
Definition next_minute (currentMinute : Z) (interval : Js.value) : Js.value :=
  match interval with
  | Js.VInt i => if i =? 0 then Js.VNaN else Js.VInt (- ((- currentMinute) / i) * i)
  | _ => Js.VNaN
  end.

(** The branch of [*/10 * * * *]: [nextRun] is [now] on the minute;
    when [nextMinute >= 60] an hour is added and the minute set to 0,
    otherwise the minute is set to [nextMinute]. *)
Definition every_ten_minutes (now : Moment.t) : option Moment.t :=
  let nextMinute := next_minute (Moment.minutes now) (Js.VInt 10) in
  let nextRun := Moment.on_the_minute now in
  match nextMinute with
  | Js.VInt n =>
      if 60 <=? n
      then Moment.and_then (Moment.and_then nextRun (Moment.add_minutes 60))
                           (Moment.set_minutes (Js.VInt 0))
      else Moment.and_then nextRun (Moment.set_minutes (Js.VInt n))
  | _ => Moment.and_then nextRun (Moment.set_minutes nextMinute)
  end.

(** The branch of a minute field [*/interval]: the same, with the
    minute set to [nextMinute - 60] after the hour is added. *)
Definition every_interval (now : Moment.t) (interval : Js.value) : option Moment.t :=
  let nextMinute := next_minute (Moment.minutes now) interval in
  let nextRun := Moment.on_the_minute now in
  match nextMinute with
  | Js.VInt n =>
      if 60 <=? n
      then Moment.and_then (Moment.and_then nextRun (Moment.add_minutes 60))
                           (Moment.set_minutes (Js.VInt (n - 60)))
      else Moment.and_then nextRun (Moment.set_minutes (Js.VInt n))
  | _ => Moment.and_then nextRun (Moment.set_minutes nextMinute)
  end.

(** [calculateNextRun(cronExpression)] at the moment [now], a valid
    moment of a zone of offset [offset]: [None] is [null]; the moment
    returned is the one [toISOString] renders.  The numbers of the
    computation are exact for an interval below 2^53. *)
Definition calculateNextRun (offset : Z) (now : Moment.t) (cronExpression : string)
    : option Moment.t :=
  let parts := Text.split cronExpression in
  if negb (List.length parts =? 5)%nat then None
  else
    let minute := hd "" parts in
    if String.eqb cronExpression "*/10 * * * *" then
      Moment.toISOString offset (every_ten_minutes now)
    else if Js.startsWith minute "*/" then
      Moment.toISOString offset
        (every_interval now (Js.parseInt (Js.VStr (substring2 minute))))
    else Moment.toISOString offset (Moment.add_minutes 10 now).

End NextRun.

(* ------------------------------------------------------------------ *)
(** ** services/scheduler: the registry of cron jobs                   *)
(* ------------------------------------------------------------------ *)

Module Jobs.

(** A task made by [cron.schedule]: its callback reads the schedule of
    the id it was made for, and it fires on the expression it was made
    with. *)
Record job : Type := mkJob {
  handle : nat;
  schedule_id : Z;
  cron_expression : string
}.

(** [this.jobs], an object keyed by schedule id, the tasks that are
    started and not stopped, and the number of tasks made so far. *)
Record t : Type := mkJobs {
  jobs : list (Z * job);
  running : list job;
  made : nat
}.

Definition empty : t := mkJobs [] [] 0.

Definition same_job (a b : job) : bool := Nat.eqb (handle a) (handle b).

(** [this.jobs[id]] *)
Definition lookup (id : Z) (r : t) : option job :=
  match find (fun entry => fst entry =? id) (jobs r) with
  | Some entry => Some (snd entry)
  | None => None
  end.

(** [delete this.jobs[id]] *)
Definition delete (id : Z) (entries : list (Z * job)) : list (Z * job) :=
  filter (fun entry => negb (fst entry =? id)) entries.

(** [job.stop()] *)
Definition stop (j : job) (r : t) : t :=
  mkJobs (jobs r) (filter (fun k => negb (same_job k j)) (running r)) (made r).

(** [startJob(schedule)]: [cron_error] is the error of [cron.schedule]
    for an expression it does not accept. *)
Definition startJob (cron_error : string -> option string) (id : Z) (expression : string)
    (r : t) : outcome unit * t :=
  let r1 := match lookup id r with
            | Some old => stop old r
            | None => r
            end in
  match cron_error expression with
  | Some message => (Threw message, r1)
  | None =>
      let job := mkJob (made r1) id expression in
      (Returned tt,
       mkJobs ((id, job) :: delete id (jobs r1)) (running r1 ++ [job]) (S (made r1)))
  end.

(** [stopJob(scheduleId)] *)
Definition stopJob (id : Z) (r : t) : t :=
  match lookup id r with
  | Some j => mkJobs (delete id (jobs r)) (running (stop j r)) (made r)
  | None => r
  end.

(** The calls made on the registry, one after the other. *)
Inductive call : Type :=
| Start (id : Z) (expression : string)
| Stop (id : Z).

Definition perform (cron_error : string -> option string) (c : call) (r : t) : t :=
  match c with
  | Start id expression => snd (startJob cron_error id expression r)
  | Stop id => stopJob id r
  end.

Definition after (cron_error : string -> option string) (calls : list call) : t :=
  fold_left (fun r c => perform cron_error c r) calls empty.

(** Every running task is the one registered under its schedule, the
    registered tasks were made for the key they are under, and the
    running tasks are distinct. *)
Definition consistent (r : t) : Prop :=
  (forall j, In j (running r) -> lookup (schedule_id j) r = Some j)
  /\ (forall id j, In (id, j) (jobs r) -> schedule_id j = id /\ (handle j < made r)%nat)
  /\ NoDup (map handle (running r)).

End Jobs.

(* ------------------------------------------------------------------ *)
(** ** config/database-adapter: connections and transactions           *)
(* ------------------------------------------------------------------ *)

Module DatabaseAdapter.

(** The two drivers as the adapter sees them: whether the n-th call of
    [pool.connect()] is refused, how a PostgreSQL client answers the
    n-th statement, and how [sqliteDb.run] does.  For [execute] the
    text is the query it was given: [convertQuery], a function of that
    text, is not modelled and is taken not to throw. *)
Record server : Type := mkServer {
  connect_error : nat -> option string;
  answer : nat -> string -> outcome Js.value;
  sqlite_run : nat -> string -> outcome Js.value
}.

(** The adapter and its pool: [txClient] is the client of the running
    transaction; [checked_out] lists the clients taken from the pool and
    not yet released; [connects] and [statements] count the calls made
    so far; [callbacks] counts the callbacks invoked.  The calls on the
    adapter are awaited one after the other. *)
Record t : Type := mkAdapter {
  isPostgres : bool;
  txClient : option nat;
  checked_out : list nat;
  connects : nat;
  statements : nat;
  callbacks : nat
}.

Definition A (R : Type) : Type := t -> outcome R * t.

(** [await this.pool.connect()] *)
Definition connect (pg : server) : A nat :=
  fun a =>
    match connect_error pg (connects a) with
    | Some msg =>
        (Threw msg,
         mkAdapter (isPostgres a) (txClient a) (checked_out a) (S (connects a))
                   (statements a) (callbacks a))
    | None =>
        (Returned (connects a),
         mkAdapter (isPostgres a) (txClient a) (checked_out a ++ [connects a])
                   (S (connects a)) (statements a) (callbacks a))
    end.

(** [client.release()] *)
Definition release (client : nat) (a : t) : t :=
  mkAdapter (isPostgres a) (txClient a)
            (filter (fun c => negb (Nat.eqb c client)) (checked_out a))
            (connects a) (statements a) (callbacks a).

(** [await client.query(sql)] *)
Definition client_query (pg : server) (sql : string) : A Js.value :=
  fun a =>
    (answer pg (statements a) sql,
     mkAdapter (isPostgres a) (txClient a) (checked_out a) (connects a)
               (S (statements a)) (callbacks a)).

Definition set_txClient (c : option nat) (a : t) : t :=
  mkAdapter (isPostgres a) c (checked_out a) (connects a) (statements a) (callbacks a).

(** [if (typeof callback === 'function') callback()]: [given] tells
    whether the caller passed a function. *)
Definition call_back (given : bool) (a : t) : t :=
  if given
  then mkAdapter (isPostgres a) (txClient a) (checked_out a) (connects a) (statements a)
                 (S (callbacks a))
  else a.

(** [execute(query, params)], for a query that is a text and
    parameters that are an array, on which [convertQuery] does not
    throw: on PostgreSQL the statement runs on the client of the
    transaction when there is one, on a client taken for it otherwise,
    which the [finally] releases; on SQLite it is handed to
    [sqliteDb.run].  (With other arguments [convertQuery] throws after
    the client is taken and before the [try]: that client is not
    released.) *)
Definition execute (pg : server) (query : string) : A Js.value :=
  fun a =>
    if negb (isPostgres a) then
      (sqlite_run pg (statements a) query,
       mkAdapter (isPostgres a) (txClient a) (checked_out a) (connects a)
                 (S (statements a)) (callbacks a))
    else
    match txClient a with
    | Some client =>
        let '(r, a1) := client_query pg query a in
        (r, match txClient a1 with
            | Some _ => a1
            | None => release client a1
            end)
    | None =>
        match connect pg a with
        | (Threw msg, a1) => (Threw msg, a1)
        | (Returned client, a1) =>
            let '(r, a2) := client_query pg query a1 in
            (r, match txClient a2 with
                | Some _ => a2
                | None => release client a2
                end)
        end
    end.

Definition beginTransaction (pg : server) (callback : bool) : A unit :=
  fun a =>
    if negb (isPostgres a) then (Returned tt, call_back callback a)
    else
      match txClient a with
      | Some _ => (Threw "Transaction already in progress", a)
      | None =>
          match connect pg a with
          | (Threw msg, a1) => (Threw msg, a1)
          | (Returned client, a1) =>
              let a2 := set_txClient (Some client) a1 in
              match client_query pg "BEGIN" a2 with
              | (Threw msg, a3) => (Threw msg, a3)
              | (Returned _, a3) => (Returned tt, call_back callback a3)
              end
          end
      end.

(** [commit] and [rollback]: the statement, then, in the [finally], the
    release of the client and the end of the transaction. *)
Definition end_transaction (pg : server) (sql : string) (callback : bool) : A unit :=
  fun a =>
    if negb (isPostgres a) then (Returned tt, call_back callback a)
    else
      match txClient a with
      | None => (Threw "No active transaction", a)
      | Some client =>
          let '(r, a1) := client_query pg sql a in
          let a2 := set_txClient None (release client a1) in
          match r with
          | Threw msg => (Threw msg, a2)
          | Returned _ => (Returned tt, call_back callback a2)
          end
      end.

Definition commit (pg : server) : bool -> A unit := end_transaction pg "COMMIT".

Definition rollback (pg : server) : bool -> A unit := end_transaction pg "ROLLBACK".

(** The calls a user of the adapter makes, each awaited before the
    next; the flag tells whether a callback is passed. *)
Inductive call : Type :=
| BeginTransaction (callback : bool)
| Commit (callback : bool)
| Rollback (callback : bool)
| Execute (query : string).

Definition perform (pg : server) (c : call) (a : t) : t :=
  match c with
  | BeginTransaction callback => snd (beginTransaction pg callback a)
  | Commit callback => snd (commit pg callback a)
  | Rollback callback => snd (rollback pg callback a)
  | Execute query => snd (execute pg query a)
  end.

Definition fresh (postgres : bool) : t := mkAdapter postgres None [] 0 0 0.

(** No client is out of the pool but the one of the transaction. *)
Definition no_leak (a : t) : Prop :=
  checked_out a = match txClient a with
                  | Some client => [client]
                  | None => []
                  end.

End DatabaseAdapter.

(* ------------------------------------------------------------------ *)
(** ** A small site and database, for concrete runs                    *)
(* ------------------------------------------------------------------ *)

Module Fixture.

Definition el (text : string) (href : option string) : Web.element :=
  Web.mkElement text href
    (match href with Some h => "https://news.test" ++ h | None => "" end) text.

(** A document of plain markup, given by what the browser matches:
    cheerio reads the selectors as the browser does, and reads
    [h1:first], which the browser refuses, as the first of [h1]. *)
Definition markup (dom : string -> option (list Web.element)) : Web.document :=
  Web.mkDocument
    (fun selector => if String.eqb selector "h1:first" then None else dom selector)
    (fun selector =>
       if String.eqb selector "h1:first" then
         match dom "h1" with
         | Some els => Some (firstn 1 els)
         | None => None
         end
       else dom selector).

(** An article page: the headline under [h1.headline], the paragraphs
    under [div.story p], links to two other stories under [a]. *)
Definition article_page (headline : string) (paragraphs : list string) : Web.document :=
  markup (fun selector =>
    if String.eqb selector "h1.headline" then Some [el headline None]
    else if String.eqb selector "h1" then Some [el headline None]
    else if String.eqb selector "div.story p" then Some (map (fun p => el p None) paragraphs)
    else if String.eqb selector "a" then
      Some [el "more" (Some "/news/1"); el "top" (Some "/news/2#top");
            el "next" (Some "/news/3"); el "also" (Some "/news/4");
            el "last" (Some "/news/5")]
    else if String.eqb selector "div[" then None
    else Some []).

(** The front page lists five stories under [a.story]. *)
Definition front_page : Web.document :=
  markup (fun selector =>
    if String.eqb selector "a.story" then
      Some [el "one" (Some "/news/1"); el "two" (Some "/news/2");
            el "three" (Some "/news/3"); el "four" (Some "/news/4");
            el "five" (Some "/news/5")]
    else Some []).

(** A page that holds an element named [null]. *)
Definition odd_page : Web.document :=
  markup (fun selector =>
    if String.eqb selector "null" then Some [el "Text of the odd element" None]
    else Some []).

Definition pages : list (string * Web.document) :=
  [("https://news.test/", front_page);
   ("https://news.test/news/1", article_page "Headline one" ["First."; "More."]);
   ("https://news.test/news/2", article_page "Headline two" ["Second."]);
   ("https://news.test/news/3", article_page "Headline three" ["Third."]);
   ("https://news.test/news/4", article_page "Headline four" ["Fourth."]);
   ("https://news.test/news/5", article_page "Headline five" ["Fifth."])].

Fixpoint lookup (url : string) (l : list (string * Web.document)) : option Web.document :=
  match l with
  | [] => None
  | (u, d) :: rest => if String.eqb u url then Some d else lookup url rest
  end.

(** The site; the URLs of [down] cannot be reached.  The browsers of
    the back-ends start; the one of the service does not. *)
Definition site (down : list string) : Web.t :=
  Web.mkWeb
    (fun how url =>
       if existsb (String.eqb url) down then Threw "net::ERR_CONNECTION_RESET"
       else match lookup url pages with
            | Some d => Returned d
            | None => Threw "net::ERR_NAME_NOT_RESOLVED"
            end)
    (fun u => if Js.startsWith u "https://news.test" then Some ("https:", "news.test") else None)
    (fun u => if Js.startsWith u "https://news.test" then Some "https://news.test" else None)
    (fun rel base => Some (base ++ rel))
    (fun kind =>
       if String.eqb kind "universal" then Some UniversalCrawler.initBrowser_error
       else None)
    (fun _ => false)
    7.

Definition source : Db.source_row :=
  Db.mkSourceRow 1 "News" "https://news.test/" (Some "puppeteer")
    "a.story" (Some "h1.headline") (Some "div.story p") None true.

Definition static_source : Db.source_row :=
  Db.mkSourceRow 2 "News (static)" "https://news.test/" (Some "cheerio")
    "a.story" (Some "h1.headline") (Some "div.story p") None true.

(** The same source with a title selector that matches nothing, with a
    content selector that cannot be parsed, with no title selector. *)
Definition source_with_other_title : Db.source_row :=
  Db.mkSourceRow 3 "News" "https://news.test/" None
    "a.story" (Some ".post-title") (Some "div.story p") None true.

Definition source_with_bad_content : Db.source_row :=
  Db.mkSourceRow 4 "News" "https://news.test/" None
    "a.story" (Some "h1.headline") (Some "div[") None true.

Definition source_without_title : Db.source_row :=
  Db.mkSourceRow 5 "News" "https://news.test/" None
    "a.story" None None None true.

(** The same source with a title selector written for jQuery. *)
Definition source_with_jquery_title : Db.source_row :=
  Db.mkSourceRow 6 "News" "https://news.test/" None
    "a.story" (Some "h1:first") (Some "div.story p") None true.

Definition schedule : Db.schedule_row :=
  Db.mkScheduleRow 1 1 "*/10 * * * *" (Js.VInt 1) (Js.VInt 0) (Js.VInt 1)
    (Js.VInt 5) (Js.VInt 60000) (Js.VInt 1) None.

Definition database : Db.t :=
  Db.mkDb [] [source; static_source] [] [] [schedule] 0 (fun _ => None).

Definition world : World := mkWorld database Pool.empty [].

Definition story (n : string) (headline : string) : article :=
  mkArticle headline ("https://news.test/news/" ++ n) "" None None.

(** A world whose table already holds the link of story 1, stored by
    another source under another title. *)
Definition world_with_older_row : World :=
  mkWorld (Db.with_articles database
             [Db.mkArticleRow 41 2 "Older headline" "https://news.test/news/1"
                              "" "0123456789abcdef0123456789abcdef" 0])
          Pool.empty [].

(** A world whose driver answers the second statement with a
    unique-constraint violation: another writer got there first. *)
Definition world_racing : World :=
  mkWorld (Db.mkDb [] [source] [] [] [] 0
             (fun n => if Nat.eqb n 1
                       then Some "SQLITE_CONSTRAINT: UNIQUE constraint failed: articles.link"
                       else None))
          Pool.empty [].

End Fixture.

(* ------------------------------------------------------------------ *)
(** ** Vocabulary of the properties                                    *)
(* ------------------------------------------------------------------ *)

(** [steps R m]: running [m] relates the world before to the world
    after by [R], whether it returns or throws.  For a reflexive and
    transitive [R] the property follows the structure of the code. *)
Definition steps (R : World -> World -> Prop) {A : Type} (m : M A) : Prop :=
  forall s, R s (snd (m s)).

(** [blind m]: what [m] returns or throws does not depend on the world
    it starts in. *)
Definition blind {A : Type} (m : M A) : Prop :=
  forall s s', fst (m s) = fst (m s').

(** [returns m]: [m] never throws. *)
Definition returns {A : Type} (m : M A) : Prop :=
  forall s, exists a, fst (m s) = Returned a.

(** [yields P m]: whatever [m] returns satisfies [P]. *)
Definition yields {A : Type} (P : A -> Prop) (m : M A) : Prop :=
  forall s a, fst (m s) = Returned a -> P a.

(** [fetches Pe]: only the log grows, by events that satisfy [Pe]. *)
Definition fetches (Pe : event -> Prop) (s s' : World) : Prop :=
  db s' = db s /\ upool s' = upool s /\
  exists ev, log s' = (log s ++ ev)%list /\ Forall Pe ev.

(** [advances Pe Pr]: the log grows by events that satisfy [Pe], the
    table of articles by rows that satisfy [Pr]; sources, schedules and
    the faults of the driver are as before. *)
Definition advances (Pe : event -> Prop) (Pr : Db.article_row -> Prop)
    (s s' : World) : Prop :=
  (exists ev, log s' = (log s ++ ev)%list /\ Forall Pe ev) /\
  (exists rows, Db.articles (db s') = (Db.articles (db s) ++ rows)%list /\ Forall Pr rows) /\
  Db.news_sources (db s') = Db.news_sources (db s) /\
  Db.schedules (db s') = Db.schedules (db s) /\
  Db.fault (db s') = Db.fault (db s) /\
  (Db.calls (db s) <= Db.calls (db s'))%nat.

(** [quiet s s']: from [s] to [s'] the articles, the sources and the
    faults of the driver are unchanged. *)
Definition quiet (s s' : World) : Prop :=
  Db.articles (db s') = Db.articles (db s)
  /\ Db.news_sources (db s') = Db.news_sources (db s)
  /\ Db.fault (db s') = Db.fault (db s).

(** The world after [n] statements that changed nothing. *)
Definition ticked (n : nat) (s : World) : World :=
  mkWorld (Nat.iter n Db.tick (db s)) (upool s) (log s).

(** The fetches of a back-end. *)
Definition is_goto (e : event) : Prop :=
  match e with
  | EvGoto _ _ => True
  | _ => False
  end.

(** The events of a run: the choice of a back-end and its fetches. *)
Definition is_crawl_event (e : event) : Prop :=
  match e with
  | EvCreateCrawler _ | EvGoto _ _ => True
  | _ => False
  end.

(** An article as a back-end builds it: no [depth], and the [hash] of
    its title and link. *)
Definition crawled (a : article) : Prop :=
  depth a = None /\ hash a = Some (MD5.hexdigest (title a ++ link a)).

Definition crawled_item (o : option article) : Prop :=
  forall a, o = Some a -> crawled a.

(** The row [saveArticle] writes for an article. *)
Definition row_of (id sourceId : Z) (a : article) : Db.article_row :=
  Db.mkArticleRow id sourceId (title a) (link a) (content a)
    (MD5.hexdigest (title a ++ link a))
    (match depth a with Some d => d | None => 0 end).

(** A row stored for an article of the list page: depth 0, and the MD5
    of its title and link as fingerprint. *)
Definition main_row (r : Db.article_row) : Prop :=
  Db.a_depth r = 0 /\ Db.a_hash r = MD5.hexdigest (Db.a_title r ++ Db.a_link r).

(** An article is present when a row has its fingerprint or its link. *)
Definition present (a : article) (d : Db.t) : Prop :=
  exists r, In r (Db.articles d)
            /\ Db.matches (MD5.hexdigest (title a ++ link a)) (link a) r = true.

(** The five checks of [validateCrawlOptions]: the value after its
    default, the bounds and the message. *)
Definition checks (options : Js.value) : list (Js.value * Z * Z * string) :=
  [ (Js.default (Js.get options "limit") (Js.VInt 10), 1, 100,
     UniversalCrawler.err_limit);
    (Js.default (Js.get options "crawlDepth") (Js.VInt 0), 0, 5,
     UniversalCrawler.err_crawlDepth);
    (Js.default (Js.get options "waitTime") (Js.VInt 3000), 1000, 30000,
     UniversalCrawler.err_waitTime);
    (Js.default (Js.get options "timeout") (Js.VInt 180000), 30000, 900000,
     UniversalCrawler.err_timeout);
    (Js.default (Js.get options "navigationTimeout") (Js.VInt 120000), 30000, 900000,
     UniversalCrawler.err_navigationTimeout) ].

Definition violated (c : Js.value * Z * Z * string) : bool :=
  let '(v, lo, hi, _) := c in UniversalCrawler.rejected v lo hi.

Definition message_of (c : Js.value * Z * Z * string) : string :=
  let '(_, _, _, m) := c in m.

(* ================================================================== *)
(** * Properties                                                       *)
(* ================================================================== *)

(** [appends s s']: the page pool of the service is as before, and the
    tables of logs and of history have only grown. *)
Definition appends (s s' : World) : Prop :=
  upool s' = upool s
  /\ (exists rows, Db.crawl_logs (db s') = (Db.crawl_logs (db s) ++ rows)%list)
  /\ (exists rows, Db.crawl_history (db s') = (Db.crawl_history (db s) ++ rows)%list).

(** An article with a title. *)
Definition titled (a : article) : Prop := title a <> "".

Definition titled_item (o : option article) : Prop :=
  forall a, o = Some a -> titled a.

(** The events of a function that writes none to the log. *)
Definition no_event (e : event) : Prop := False.

(** [closes s s']: the database and the idle pages are as before; pages
    may have been closed. *)
Definition closes (s s' : World) : Prop :=
  db s' = db s
  /\ Pool.pagePool (upool s') = Pool.pagePool (upool s)
  /\ Pool.created (upool s') = Pool.created (upool s)
  /\ exists pages, Pool.closed (upool s') = (Pool.closed (upool s) ++ pages)%list.

(** The page load of [crawlInternalLinks] of the server file for an
    article. *)
Definition farsnews_fetch (a : Farsnews.article) : event :=
  EvGoto "networkidle0" (Farsnews.a_link a).

(** ** MD5 test vectors (RFC 1321, appendix A.5) *)

Example md5_empty : MD5.hexdigest "" = "d41d8cd98f00b204e9800998ecf8427e".
Proof. vm_compute. reflexivity. Qed.

Example md5_abc : MD5.hexdigest "abc" = "900150983cd24fb0d6963f7d28e17f72".
Proof. vm_compute. reflexivity. Qed.

Example md5_message_digest :
  MD5.hexdigest "message digest" = "f96b697d7cb7938d525a2f31aaf161d0".
Proof. vm_compute. reflexivity. Qed.

Example md5_two_blocks :
  MD5.hexdigest
    "12345678901234567890123456789012345678901234567890123456789012345678901234567890"
  = "57edf4a22be3c955ac49da2e2107b67a".
Proof. vm_compute. reflexivity. Qed.

(** ** Reasoning about async functions *)

Section Steps.

Variable R : World -> World -> Prop.
Hypothesis R_refl : forall s, R s s.
Hypothesis R_trans : forall a b c, R a b -> R b c -> R a c.

Lemma steps_ret {A : Type} (a : A) : steps R (ret a).
Proof. intros s. apply R_refl. Qed.

Lemma steps_throw {A : Type} (msg : string) : steps R (@throw A msg).
Proof. intros s. apply R_refl. Qed.

Lemma steps_lift {A : Type} (o : outcome A) : steps R (lift o).
Proof. intros s. apply R_refl. Qed.

Lemma steps_bind {A B : Type} (m : M A) (k : A -> M B) :
  steps R m -> (forall a, steps R (k a)) -> steps R (bind m k).
Proof.
  intros Hm Hk s. unfold bind. specialize (Hm s).
  destruct (m s) as [[a | e] s1]; simpl in *.
  - eapply R_trans; [exact Hm | apply Hk].
  - exact Hm.
Qed.

Lemma steps_try_catch {A : Type} (m : M A) (h : string -> M A) :
  steps R m -> (forall e, steps R (h e)) -> steps R (try_catch m h).
Proof.
  intros Hm Hh s. unfold try_catch. specialize (Hm s).
  destruct (m s) as [[a | e] s1]; simpl in *.
  - exact Hm.
  - eapply R_trans; [exact Hm | apply Hh].
Qed.

Lemma steps_finally {A : Type} (m : M A) (f : M unit) :
  steps R m -> steps R f -> steps R (finally m f).
Proof.
  intros Hm Hf s. unfold finally. specialize (Hm s).
  destruct (m s) as [r s1]; simpl in *. specialize (Hf s1).
  destruct (f s1) as [[u | e] s2]; simpl in *; eapply R_trans; eauto.
Qed.

Lemma steps_foldM {A B : Type} (body : B -> A -> M B) (l : list A) :
  (forall acc x, steps R (body acc x)) -> forall acc, steps R (foldM body l acc).
Proof.
  intros Hb. induction l as [| x rest IH]; intros acc; simpl.
  - apply steps_ret.
  - apply steps_bind; [apply Hb | intros; apply IH].
Qed.

End Steps.

Lemma steps_weaken (R R' : World -> World -> Prop) {A : Type} (m : M A) :
  (forall s s', R s s' -> R' s s') -> steps R m -> steps R' m.
Proof. intros H Hm s. apply H, Hm. Qed.

Lemma blind_ret {A : Type} (a : A) : blind (ret a).
Proof. intros s s'. reflexivity. Qed.

Lemma blind_throw {A : Type} (msg : string) : blind (@throw A msg).
Proof. intros s s'. reflexivity. Qed.

Lemma blind_lift {A : Type} (o : outcome A) : blind (lift o).
Proof. intros s s'. reflexivity. Qed.

Lemma blind_emit (e : event) : blind (emit e).
Proof. intros s s'. reflexivity. Qed.

Lemma blind_bind {A B : Type} (m : M A) (k : A -> M B) :
  blind m -> (forall a, blind (k a)) -> blind (bind m k).
Proof.
  intros Hm Hk s s'. unfold bind. specialize (Hm s s').
  destruct (m s) as [[a | e] s1], (m s') as [[a' | e'] s1'];
    simpl in *; try discriminate.
  - inversion Hm; subst. apply Hk.
  - congruence.
Qed.

Lemma blind_try_catch {A : Type} (m : M A) (h : string -> M A) :
  blind m -> (forall e, blind (h e)) -> blind (try_catch m h).
Proof.
  intros Hm Hh s s'. unfold try_catch. specialize (Hm s s').
  destruct (m s) as [[a | e] s1], (m s') as [[a' | e'] s1'];
    simpl in *; try discriminate.
  - exact Hm.
  - inversion Hm; subst. apply Hh.
Qed.

Lemma blind_finally {A : Type} (m : M A) (f : M unit) :
  blind m -> blind f -> blind (finally m f).
Proof.
  intros Hm Hf s s'. unfold finally. specialize (Hm s s').
  destruct (m s) as [r s1], (m s') as [r' s1']; simpl in *; subst.
  specialize (Hf s1 s1').
  destruct (f s1) as [[u | e] s2], (f s1') as [[u' | e'] s2'];
    simpl in *; try discriminate; congruence.
Qed.

Lemma blind_foldM {A B : Type} (body : B -> A -> M B) (l : list A) :
  (forall acc x, blind (body acc x)) -> forall acc, blind (foldM body l acc).
Proof.
  intros Hb. induction l as [| x rest IH]; intros acc; simpl.
  - apply blind_ret.
  - apply blind_bind; [apply Hb | intros; apply IH].
Qed.

Lemma returns_ret {A : Type} (a : A) : returns (ret a).
Proof. intros s. exists a. reflexivity. Qed.

Lemma returns_bind {A B : Type} (m : M A) (k : A -> M B) :
  returns m -> (forall a, returns (k a)) -> returns (bind m k).
Proof.
  intros Hm Hk s. unfold bind. destruct (Hm s) as [a Ha].
  destruct (m s) as [[a' | e] s1]; simpl in *; try discriminate.
  apply Hk.
Qed.

Lemma returns_try_catch {A : Type} (m : M A) (h : string -> M A) :
  (forall e, returns (h e)) -> returns (try_catch m h).
Proof.
  intros Hh s. unfold try_catch.
  destruct (m s) as [[a | e] s1]; simpl.
  - exists a. reflexivity.
  - apply Hh.
Qed.

Lemma fetches_refl Pe s : fetches Pe s s.
Proof.
  repeat split. exists []. split; [now rewrite app_nil_r | constructor].
Qed.

Lemma fetches_trans Pe a b c : fetches Pe a b -> fetches Pe b c -> fetches Pe a c.
Proof.
  intros (D1 & P1 & e1 & L1 & F1) (D2 & P2 & e2 & L2 & F2).
  repeat split; try congruence.
  exists (e1 ++ e2)%list. split.
  - rewrite L2, L1, app_assoc. reflexivity.
  - apply Forall_app. split; assumption.
Qed.

Lemma advances_refl Pe Pr s : advances Pe Pr s s.
Proof.
  repeat split; try lia.
  - exists []. split; [now rewrite app_nil_r | constructor].
  - exists []. split; [now rewrite app_nil_r | constructor].
Qed.

Lemma advances_trans Pe Pr a b c :
  advances Pe Pr a b -> advances Pe Pr b c -> advances Pe Pr a c.
Proof.
  intros ((e1 & L1 & F1) & (r1 & A1 & G1) & N1 & S1 & X1 & C1)
         ((e2 & L2 & F2) & (r2 & A2 & G2) & N2 & S2 & X2 & C2).
  repeat split; try congruence; try lia.
  - exists (e1 ++ e2)%list. split.
    + rewrite L2, L1, app_assoc. reflexivity.
    + apply Forall_app. split; assumption.
  - exists (r1 ++ r2)%list. split.
    + rewrite A2, A1, app_assoc. reflexivity.
    + apply Forall_app. split; assumption.
Qed.

Lemma fetches_advances Pe Pr s s' : fetches Pe s s' -> advances Pe Pr s s'.
Proof.
  intros (D & P & e & L & F). unfold advances. rewrite D.
  repeat split; try lia.
  - exists e. split; assumption.
  - exists []. split; [now rewrite app_nil_r | constructor].
Qed.

Lemma fetches_mono (Pe Pe' : event -> Prop) s s' :
  (forall e, Pe e -> Pe' e) -> fetches Pe s s' -> fetches Pe' s s'.
Proof.
  intros H (D & P & e & L & F). repeat split; try assumption.
  exists e. split; [assumption |]. eapply Forall_impl; eauto.
Qed.

Lemma advances_mono (Pe Pe' : event -> Prop) (Pr Pr' : Db.article_row -> Prop) s s' :
  (forall e, Pe e -> Pe' e) -> (forall r, Pr r -> Pr' r) ->
  advances Pe Pr s s' -> advances Pe' Pr' s s'.
Proof.
  intros He Hr ((e & L & F) & (r & A & G) & N & S & X & C).
  repeat split; try assumption.
  - exists e. split; [assumption |]. eapply Forall_impl; eauto.
  - exists r. split; [assumption |]. eapply Forall_impl; eauto.
Qed.

Lemma steps_emit (Pe : event -> Prop) (e : event) : Pe e -> steps (fetches Pe) (emit e).
Proof.
  intros H s. repeat split. exists [e]. split; [reflexivity | repeat constructor; exact H].
Qed.

Lemma steps_goto (Pe : event -> Prop) w how url :
  Pe (EvGoto how url) -> steps (fetches Pe) (goto w how url).
Proof.
  intros H. unfold goto.
  apply steps_bind; [apply fetches_trans | apply steps_emit, H |].
  intros _. apply steps_lift, fetches_refl.
Qed.

Lemma blind_goto w how url : blind (goto w how url).
Proof.
  unfold goto. apply blind_bind; [apply blind_emit | intros; apply blind_lift].
Qed.


Lemma yields_ret {A : Type} (P : A -> Prop) (a : A) : P a -> yields P (ret a).
Proof. intros H s a' E. inversion E; subst. exact H. Qed.

Lemma yields_throw {A : Type} (P : A -> Prop) (msg : string) : yields P (throw msg).
Proof. intros s a E. discriminate. Qed.

Lemma yields_bind {A B : Type} (P : B -> Prop) (m : M A) (k : A -> M B) :
  (forall a, yields P (k a)) -> yields P (bind m k).
Proof.
  intros Hk s b. unfold bind.
  destruct (m s) as [[a | e] s1]; simpl; [apply Hk | discriminate].
Qed.

Lemma yields_try_catch {A : Type} (P : A -> Prop) (m : M A) (h : string -> M A) :
  yields P m -> (forall e, yields P (h e)) -> yields P (try_catch m h).
Proof.
  intros Hm Hh s a. unfold try_catch. specialize (Hm s).
  destruct (m s) as [[a' | e] s1]; simpl in *; [apply Hm | apply Hh].
Qed.

Lemma yields_finally {A : Type} (P : A -> Prop) (m : M A) (f : M unit) :
  yields P m -> yields P (finally m f).
Proof.
  intros Hm s a. unfold finally. specialize (Hm s).
  destruct (m s) as [r s1]; simpl in *.
  destruct (f s1) as [[u | e] s2]; simpl; [apply Hm | discriminate].
Qed.

Lemma yields_foldM {A B : Type} (P : B -> Prop) (body : B -> A -> M B) (l : list A) :
  (forall acc x, P acc -> yields P (body acc x)) ->
  forall acc, P acc -> yields P (foldM body l acc).
Proof.
  intros Hb. induction l as [| x rest IH]; intros acc Hacc; simpl.
  - apply yields_ret, Hacc.
  - intros s b. unfold bind. specialize (Hb acc x Hacc s).
    destruct (body acc x s) as [[acc' | e] s1]; simpl in *; [| discriminate].
    apply IH. apply Hb. reflexivity.
Qed.

(** The structure of an async function, peeled one construct at a time. *)
Ltac rel_refl := first [ exact (fetches_refl _) | exact (advances_refl _ _) ].
Ltac rel_trans := first [ exact (fetches_trans _) | exact (advances_trans _ _) ].

Ltac steps_struct :=
  lazymatch goal with
  | |- steps _ (ret _) => apply steps_ret; rel_refl
  | |- steps _ (throw _) => apply steps_throw; rel_refl
  | |- steps _ (lift _) => apply steps_lift; rel_refl
  | |- steps _ (bind _ _) => apply steps_bind; [rel_trans | | intros]
  | |- steps _ (try_catch _ _) => apply steps_try_catch; [rel_trans | | intros]
  | |- steps _ (finally _ _) => apply steps_finally; [rel_trans | |]
  | |- steps _ (foldM _ _ _) => apply steps_foldM; [rel_refl | rel_trans | intros]
  | |- steps _ (if ?b then _ else _) => destruct b
  | |- steps _ (match ?x with _ => _ end) => destruct x
  end.

Ltac blind_struct :=
  lazymatch goal with
  | |- blind (ret _) => apply blind_ret
  | |- blind (throw _) => apply blind_throw
  | |- blind (lift _) => apply blind_lift
  | |- blind (emit _) => apply blind_emit
  | |- blind (goto _ _ _) => apply blind_goto
  | |- blind (bind _ _) => apply blind_bind; [| intros]
  | |- blind (try_catch _ _) => apply blind_try_catch; [| intros]
  | |- blind (finally _ _) => apply blind_finally
  | |- blind (foldM _ _ _) => apply blind_foldM; intros
  | |- blind (if ?b then _ else _) => destruct b
  | |- blind (match ?x with _ => _ end) => destruct x
  end.

(** ** The back-ends only fetch *)


Ltac fetch_prim :=
  first [ apply steps_goto; exact I
        | apply steps_emit; exact I ].

Ltac unfold_backend :=
  unfold PuppeteerCrawler.crawl, PuppeteerCrawler.crawl_page,
    PuppeteerCrawler.crawl_item, PuppeteerCrawler.extract_item,
    PuppeteerCrawler.evaluate_article,
    CheerioCrawler.crawl, CheerioCrawler.crawl_item, CheerioCrawler.collect_links,
    CheerioCrawler.extract_item, CheerioCrawler.select,
    PlaywrightCrawler.crawl, PlaywrightCrawler.initBrowser,
    SeleniumCrawler.crawl, SeleniumCrawler.initDriver, SeleniumCrawler.crawl_item,
    SeleniumCrawler.collect_links, SeleniumCrawler.extract_item,
    SeleniumCrawler.findElements,
    querySelector, querySelectorAll, css_select, cheerio_select.

Lemma crawler_crawl_fetches w c source options :
  steps (fetches is_goto) (crawler_crawl w c source options).
Proof.
  destruct c; simpl;
    repeat first [ steps_struct | fetch_prim | progress unfold_backend ].
Qed.

Lemma crawler_crawl_blind w c source options :
  blind (crawler_crawl w c source options).
Proof.
  destruct c; simpl; repeat first [ blind_struct | progress unfold_backend ].
Qed.

Lemma yields_bind_with {A B : Type} (Q : A -> Prop) (P : B -> Prop)
    (m : M A) (k : A -> M B) :
  yields Q m -> (forall a, Q a -> yields P (k a)) -> yields P (bind m k).
Proof.
  intros Hm Hk s b. unfold bind. specialize (Hm s).
  destruct (m s) as [[a | e] s1]; simpl in *; [| discriminate].
  apply Hk. apply Hm. reflexivity.
Qed.

Ltac yields_struct :=
  lazymatch goal with
  | |- yields _ (ret _) => apply yields_ret
  | |- yields _ (throw _) => apply yields_throw
  | |- yields _ (bind _ _) => apply yields_bind; intros
  | |- yields _ (try_catch _ _) => apply yields_try_catch; [| intros]
  | |- yields _ (finally _ _) => apply yields_finally
  | |- yields _ (if ?b then _ else _) => destruct b
  | |- yields _ (match ?x with _ => _ end) => destruct x
  end.

(** ** What the back-ends return *)

Lemma push_crawled articles o :
  Forall crawled articles -> crawled_item o ->
  Forall crawled (PuppeteerCrawler.push articles o).
Proof.
  intros H Ho. destruct o as [a |]; simpl; [| exact H].
  apply Forall_app. split; [exact H |]. constructor; [| constructor].
  apply Ho. reflexivity.
Qed.

Ltac crawled_item_tac :=
  match goal with
  | |- crawled_item (Some _) =>
      let a := fresh in let E := fresh in
      intros a E; inversion E; subst; split; reflexivity
  | |- crawled_item None => intros ? ?; discriminate
  end.

Lemma puppeteer_extract_item_crawled doc source fullContent link :
  yields crawled_item (PuppeteerCrawler.extract_item doc source fullContent link).
Proof.
  unfold PuppeteerCrawler.extract_item.
  repeat first [ yields_struct | crawled_item_tac ].
Qed.

Lemma cheerio_extract_item_crawled doc source fullContent link :
  yields crawled_item (CheerioCrawler.extract_item doc source fullContent link).
Proof.
  unfold CheerioCrawler.extract_item.
  apply yields_bind; intros. apply yields_bind; intros.
  repeat first [ yields_struct | crawled_item_tac ].
Qed.

Lemma selenium_extract_item_crawled doc source fullContent link :
  yields crawled_item (SeleniumCrawler.extract_item doc source fullContent link).
Proof.
  unfold SeleniumCrawler.extract_item.
  apply yields_bind; intros. apply yields_bind; intros.
  repeat first [ yields_struct | crawled_item_tac ].
Qed.

Lemma puppeteer_crawl_page_crawled w how source limit fullContent :
  yields (Forall crawled) (PuppeteerCrawler.crawl_page w how source limit fullContent).
Proof.
  unfold PuppeteerCrawler.crawl_page.
  apply yields_bind; intros doc. apply yields_bind; intros els.
  apply yields_foldM; [| constructor].
  intros acc raw Hacc. unfold PuppeteerCrawler.crawl_item.
  apply yields_bind; intros link.
  apply yields_try_catch; [| intros; apply yields_ret, Hacc].
  apply yields_bind; intros doc'.
  eapply yields_bind_with; [apply puppeteer_extract_item_crawled |].
  intros o Ho. apply yields_ret, push_crawled; assumption.
Qed.

Lemma selenium_crawl_crawled w source options :
  yields (Forall crawled) (SeleniumCrawler.crawl w source options).
Proof.
  unfold SeleniumCrawler.crawl.
  apply yields_try_catch; [| intros; apply yields_throw].
  apply yields_bind; intros _.
  apply yields_bind; intros doc. apply yields_bind; intros els.
  apply yields_bind; intros links.
  apply yields_foldM; [| constructor].
  intros acc link Hacc. unfold SeleniumCrawler.crawl_item.
  apply yields_try_catch; [| intros; apply yields_ret, Hacc].
  apply yields_bind; intros doc'.
  eapply yields_bind_with; [apply selenium_extract_item_crawled |].
  intros o Ho. apply yields_ret, push_crawled; assumption.
Qed.

Lemma crawler_crawl_crawled w c source options :
  yields (Forall crawled) (crawler_crawl w c source options).
Proof.
  destruct c; simpl; try apply selenium_crawl_crawled.
  - unfold PuppeteerCrawler.crawl.
    destruct (Pool.getOrCreatePage w "puppeteer" Pool.empty) as [[page | e] pool].
    + apply yields_finally, yields_try_catch;
        [apply puppeteer_crawl_page_crawled | intros; apply yields_throw].
    + apply yields_throw.
  - unfold CheerioCrawler.crawl.
    apply yields_try_catch; [| intros; apply yields_throw].
    apply yields_bind; intros doc. apply yields_bind; intros els.
    apply yields_bind; intros links.
    apply yields_foldM; [| constructor].
    intros acc link Hacc. unfold CheerioCrawler.crawl_item.
    apply yields_try_catch; [| intros; apply yields_ret, Hacc].
    apply yields_bind; intros doc'.
    eapply yields_bind_with; [apply cheerio_extract_item_crawled |].
    intros o Ho. apply yields_ret, push_crawled; assumption.
  - unfold PlaywrightCrawler.crawl.
    apply yields_try_catch; [| intros; apply yields_throw].
    apply yields_bind; intros _. apply puppeteer_crawl_page_crawled.
Qed.

(** ** [saveArticle] *)

Lemma find_matches_some hash link rows :
  (exists r, In r rows /\ (Db.a_hash r = hash \/ Db.a_link r = link)) ->
  exists r, find (Db.matches hash link) rows = Some r.
Proof.
  intros (r & Hin & Hm).
  destruct (find (Db.matches hash link) rows) as [r' |] eqn:E; [eauto |].
  exfalso. apply (find_none _ _ E) in Hin. unfold Db.matches in Hin.
  apply orb_false_iff in Hin. destruct Hin as [H1 H2].
  destruct Hm as [Hm | Hm]; subst.
  - rewrite String.eqb_refl in H1. discriminate.
  - rewrite String.eqb_refl in H2. discriminate.
Qed.

Lemma find_matches_none hash link rows :
  (forall r, In r rows -> Db.a_hash r <> hash /\ Db.a_link r <> link) ->
  find (Db.matches hash link) rows = None /\ existsb (Db.matches hash link) rows = false.
Proof.
  intros H.
  assert (E : existsb (Db.matches hash link) rows = false).
  { destruct (existsb (Db.matches hash link) rows) eqn:E; [| reflexivity].
    apply existsb_exists in E. destruct E as (r & Hin & Hm).
    destruct (H r Hin) as [H1 H2]. unfold Db.matches in Hm.
    apply orb_true_iff in Hm. destruct Hm as [Hm | Hm];
      apply String.eqb_eq in Hm; contradiction. }
  split; [| exact E].
  destruct (find (Db.matches hash link) rows) as [r |] eqn:F; [| reflexivity].
  apply find_some in F. destruct F as [Hin Hm].
  assert (existsb (Db.matches hash link) rows = true)
    by (apply existsb_exists; eauto).
  congruence.
Qed.

Lemma find_none_existsb {A : Type} (f : A -> bool) (l : list A) :
  find f l = None -> existsb f l = false.
Proof.
  induction l as [| x rest IH]; simpl; [reflexivity |].
  destruct (f x); [discriminate | exact IH].
Qed.

Lemma ticked_keeps_the_tables n s :
  Db.articles (db (ticked n s)) = Db.articles (db s)
  /\ Db.news_sources (db (ticked n s)) = Db.news_sources (db s)
  /\ Db.schedules (db (ticked n s)) = Db.schedules (db s)
  /\ Db.calls (db (ticked n s)) = (n + Db.calls (db s))%nat
  /\ upool (ticked n s) = upool s
  /\ log (ticked n s) = log s.
Proof.
  unfold ticked. simpl. induction n as [| n IH]; simpl; [repeat split |].
  destruct IH as (Ha & Hn & Hs & Hc & _). rewrite Ha, Hn, Hs, Hc. repeat split.
Qed.

Lemma saveArticle_existing sourceId a s r :
  Db.fault (db s) (Db.calls (db s)) = None ->
  find (Db.matches (MD5.hexdigest (title a ++ link a)) (link a)) (Db.articles (db s)) = Some r ->
  UniversalCrawler.saveArticle sourceId a s
  = (Returned (UniversalCrawler.mkSaved (Js.VInt (Db.a_id r)) false), ticked 1 s).
Proof.
  intros F E.
  unfold UniversalCrawler.saveArticle, UniversalCrawler.generateHash, try_catch, bind,
    query, Db.select_article, Db.statement.
  rewrite F. simpl. rewrite E. reflexivity.
Qed.

Lemma saveArticle_fresh sourceId a s :
  Db.fault (db s) (Db.calls (db s)) = None ->
  Db.fault (db s) (S (Db.calls (db s))) = None ->
  find (Db.matches (MD5.hexdigest (title a ++ link a)) (link a)) (Db.articles (db s)) = None ->
  UniversalCrawler.saveArticle sourceId a s
  = (Returned (UniversalCrawler.mkSaved (Js.VInt (Db.next_id (db s))) true),
     mkWorld (Db.with_articles (Db.tick (Db.tick (db s)))
                (Db.articles (db s) ++ [row_of (Db.next_id (db s)) sourceId a]))
             (upool s) (log s)).
Proof.
  intros F1 F2 E.
  unfold UniversalCrawler.saveArticle, UniversalCrawler.generateHash, try_catch, bind,
    query, Db.select_article, Db.insert_or_ignore_article, Db.statement.
  rewrite F1. simpl. rewrite E. simpl. rewrite F2. simpl.
  rewrite (find_none_existsb _ _ E). simpl. reflexivity.
Qed.

Lemma saveArticle_violation sourceId a s message :
  Db.fault (db s) (Db.calls (db s)) = None ->
  find (Db.matches (MD5.hexdigest (title a ++ link a)) (link a)) (Db.articles (db s)) = None ->
  Db.fault (db s) (S (Db.calls (db s))) = Some message ->
  UniversalCrawler.is_unique_violation message = true ->
  UniversalCrawler.saveArticle sourceId a s
  = (Returned (UniversalCrawler.mkSaved Js.VNull false), ticked 2 s).
Proof.
  intros F1 E F2 U.
  unfold UniversalCrawler.saveArticle, UniversalCrawler.generateHash, try_catch, bind,
    query, Db.select_article, Db.insert_or_ignore_article, Db.statement.
  rewrite F1. simpl. rewrite E. simpl. rewrite F2. simpl. rewrite U. reflexivity.
Qed.

(** C2. [saveArticle] computes the fingerprint and asks the table for a
    row with that fingerprint or with the link of the article.  When the
    lookup is answered and such a row exists, the result is its id with
    [isNew: false], and no statement but the lookup is sent: the table
    is as before.  When there is none and the insert is answered by a
    unique-constraint violation, the error is caught and the result is
    [{id: null, isNew: false}]; again the table is as before. *)
Theorem saveArticle_duplicate_is_not_new :
  forall (sourceId : Z) (a : article) (s : World),
    Db.fault (db s) (Db.calls (db s)) = None ->
    ((exists r, In r (Db.articles (db s)) /\
                (Db.a_hash r = UniversalCrawler.generateHash (title a) (link a)
                 \/ Db.a_link r = link a)) ->
     exists row_id,
       UniversalCrawler.saveArticle sourceId a s
       = (Returned (UniversalCrawler.mkSaved (Js.VInt row_id) false), ticked 1 s))
    /\
    ((forall r, In r (Db.articles (db s)) ->
                Db.a_hash r <> UniversalCrawler.generateHash (title a) (link a)
                /\ Db.a_link r <> link a) ->
     forall message,
       Db.fault (db s) (S (Db.calls (db s))) = Some message ->
       UniversalCrawler.is_unique_violation message = true ->
       UniversalCrawler.saveArticle sourceId a s
       = (Returned (UniversalCrawler.mkSaved Js.VNull false), ticked 2 s)).
Proof.
  intros sourceId a s F. split.
  - intros H. apply find_matches_some in H. destruct H as [r E].
    exists (Db.a_id r). apply saveArticle_existing; assumption.
  - intros H message F2 U. apply find_matches_none in H. destruct H as [E _].
    apply saveArticle_violation with (message := message); assumption.
Qed.

Lemma saveArticle_duplicate_is_not_new_witness :
  (exists row_id,
     UniversalCrawler.saveArticle 1 (Fixture.story "1" "Headline one")
       Fixture.world_with_older_row
     = (Returned (UniversalCrawler.mkSaved (Js.VInt row_id) false),
        ticked 1 Fixture.world_with_older_row))
  /\
  UniversalCrawler.saveArticle 1 (Fixture.story "1" "Headline one") Fixture.world_racing
  = (Returned (UniversalCrawler.mkSaved Js.VNull false), ticked 2 Fixture.world_racing).
Proof.
  split.
  - apply (proj1 (saveArticle_duplicate_is_not_new 1 (Fixture.story "1" "Headline one")
                    Fixture.world_with_older_row eq_refl)).
    eexists. split; [left; reflexivity | right; reflexivity].
  - apply (proj2 (saveArticle_duplicate_is_not_new 1 (Fixture.story "1" "Headline one")
                    Fixture.world_racing eq_refl))
      with (message := "SQLITE_CONSTRAINT: UNIQUE constraint failed: articles.link").
    + intros r [].
    + reflexivity.
    + vm_compute. reflexivity.
Defined.

Ltac advances_done :=
  unfold advances; simpl; repeat split; try lia; try reflexivity;
  first [ exists []; split; [rewrite app_nil_r; reflexivity | constructor]
        | eexists [_]; split; [reflexivity | repeat constructor; auto] ].

Lemma saveArticle_advances Pe Pr sourceId a :
  (forall row_id, Pr (row_of row_id sourceId a)) ->
  steps (advances Pe Pr) (UniversalCrawler.saveArticle sourceId a).
Proof.
  intros HP s.
  unfold UniversalCrawler.saveArticle, UniversalCrawler.generateHash, try_catch, bind,
    query, Db.select_article, Db.insert_or_ignore_article, Db.statement.
  destruct (Db.fault (db s) (Db.calls (db s))) as [m1 |]; simpl.
  - destruct (UniversalCrawler.is_unique_violation m1); advances_done.
  - destruct (find _ (Db.articles (db s))) as [r |]; simpl; [advances_done |].
    destruct (Db.fault (db s) (S (Db.calls (db s)))) as [m2 |]; simpl.
    + destruct (UniversalCrawler.is_unique_violation m2); advances_done.
    + destruct (existsb _ (Db.articles (db s))); simpl; [advances_done |].
      unfold advances; simpl; repeat split; try lia.
      * exists []. split; [rewrite app_nil_r; reflexivity | constructor].
      * eexists [_]. split; [reflexivity |]. constructor; [apply HP | constructor].
Qed.

(** C1. The fingerprint of an article is the MD5 hex digest of its title
    followed by its link, in both classes that define it: it is a
    function of that concatenation alone.  The row [saveArticle] writes
    carries this fingerprint whatever the source, the content, the depth,
    a hash the article object may hold, and the world it is saved in. *)
Theorem fingerprint_is_md5_of_title_and_link :
  forall (title link : string),
    UniversalCrawler.generateHash title link = MD5.hexdigest (title ++ link)
    /\ BaseCrawler.generateHash title link = UniversalCrawler.generateHash title link
    /\ (forall title' link',
          title' ++ link' = title ++ link ->
          UniversalCrawler.generateHash title' link'
          = UniversalCrawler.generateHash title link)
    /\ (forall (sourceId : Z) (content : string) (hash : option string)
               (depth : option Z) (s : World),
          exists rows,
            Db.articles (db (snd (UniversalCrawler.saveArticle sourceId
                                    (mkArticle title link content hash depth) s)))
            = (Db.articles (db s) ++ rows)%list
            /\ Forall (fun r => Db.a_hash r = UniversalCrawler.generateHash title link)
                      rows).
Proof.
  intros title link. repeat split.
  - intros title' link' E. unfold UniversalCrawler.generateHash. rewrite E. reflexivity.
  - intros sourceId content hash depth s.
    pose proof (saveArticle_advances (fun _ => True)
                  (fun r => Db.a_hash r = UniversalCrawler.generateHash title link)
                  sourceId (mkArticle title link content hash depth)) as H.
    destruct (H (fun _ => eq_refl) s) as (_ & Hrows & _). exact Hrows.
Qed.

Lemma fingerprint_is_md5_of_title_and_link_witness :
  UniversalCrawler.generateHash "Headline" " one"
  = UniversalCrawler.generateHash "Headline o" "ne".
Proof.
  apply (proj1 (proj2 (proj2 (fingerprint_is_md5_of_title_and_link "Headline o" "ne")))).
  reflexivity.
Defined.

(** ** [validateCrawlOptions] and the guard of [crawlSource] *)

(** The errors are the messages of the violated checks, all of them, in
    the order of the checks. *)
Lemma validate_collects_every_violation options :
  UniversalCrawler.errors (UniversalCrawler.validateCrawlOptions options)
  = map message_of (filter violated (checks options))
  /\ UniversalCrawler.isValid (UniversalCrawler.validateCrawlOptions options)
     = forallb (fun c => negb (violated c)) (checks options).
Proof.
  unfold UniversalCrawler.validateCrawlOptions, checks. simpl.
  destruct (UniversalCrawler.rejected _ 1 100),
           (UniversalCrawler.rejected _ 0 5),
           (UniversalCrawler.rejected _ 1000 30000),
           (UniversalCrawler.rejected (Js.default (Js.get options "timeout") _) 30000 900000),
           (UniversalCrawler.rejected _ 30000 900000);
    split; reflexivity.
Qed.

(** An integer passes a check exactly when it is within the bounds. *)
Lemma rejected_int z lo hi :
  UniversalCrawler.rejected (Js.VInt z) lo hi = false <-> lo <= z <= hi.
Proof.
  unfold UniversalCrawler.rejected. simpl.
  rewrite orb_false_iff, Z.ltb_ge, Z.gtb_ltb, Z.ltb_ge. tauto.
Qed.

(** A value that is not a number is refused. *)
Lemma rejected_not_number v lo hi :
  Js.is_number v = false -> UniversalCrawler.rejected v lo hi = true.
Proof. intros H. unfold UniversalCrawler.rejected. rewrite H. reflexivity. Qed.

(** What passes a check: an integer within the bounds, or [NaN]. *)
Lemma rejected_false_iff v lo hi :
  UniversalCrawler.rejected v lo hi = false
  <-> v = Js.VNaN \/ exists z, v = Js.VInt z /\ lo <= z <= hi.
Proof.
  split.
  - intros H. destruct v; try discriminate H.
    + right. exists z. split; [reflexivity | apply rejected_int, H].
    + left. reflexivity.
  - intros [H | (z & H & Hz)]; subst; [reflexivity | apply rejected_int, Hz].
Qed.

(** The options [validateCrawlOptions] accepts: each of the five values,
    after its default, is an integer within its bounds or [NaN]. *)
Lemma accepted_options options :
  UniversalCrawler.isValid (UniversalCrawler.validateCrawlOptions options) = true
  <-> Forall (fun c : Js.value * Z * Z * string =>
                let '(v, lo, hi, _) := c in
                v = Js.VNaN \/ exists z, v = Js.VInt z /\ lo <= z <= hi)
             (checks options).
Proof.
  rewrite (proj2 (validate_collects_every_violation options)), forallb_forall, Forall_forall.
  split; intros H [[[v lo] hi] m] Hin; specialize (H _ Hin); simpl in *.
  - apply negb_true_iff in H. apply rejected_false_iff, H.
  - apply negb_true_iff. apply rejected_false_iff, H.
Qed.

(** Rejected options: [crawlSource] answers with every message and
    touches nothing: no source is read, no back-end made, no page
    fetched. *)
Lemma crawlSource_rejects_without_fetching w sourceId options s :
  UniversalCrawler.isValid (UniversalCrawler.validateCrawlOptions options) = false ->
  UniversalCrawler.crawlSource w sourceId options s
  = (Returned
       (Js.VObject
          [("success", Js.VBool false);
           ("error",
            Js.VStr (UniversalCrawler.invalid_options
                     ++ Js.join ", " (map message_of (filter violated (checks options)))));
           ("source", Js.VInt sourceId)]),
     s).
Proof.
  intros H. rewrite <- (proj1 (validate_collects_every_violation options)).
  unfold UniversalCrawler.crawlSource. cbv zeta. rewrite H. reflexivity.
Qed.

(** The options of the specification's example are refused with the
    three messages, whatever the site and the world. *)
Lemma crawlSource_rejects_three_violations w sourceId s :
  UniversalCrawler.crawlSource w sourceId
    (Js.VObject [("limit", Js.VInt 0); ("crawlDepth", Js.VInt 6); ("timeout", Js.VInt 100)]) s
  = (Returned
       (Js.VObject
          [("success", Js.VBool false);
           ("error",
            Js.VStr (UniversalCrawler.invalid_options
                     ++ Js.join ", " [UniversalCrawler.err_limit;
                                      UniversalCrawler.err_crawlDepth;
                                      UniversalCrawler.err_timeout]));
           ("source", Js.VInt sourceId)]),
     s).
Proof. apply crawlSource_rejects_without_fetching. reflexivity. Qed.

(** C3 (failing input).  [GET /crawl/1?limit=abc]: [parseInt] makes the
    limit [NaN], which is of type number and neither below 1 nor above
    100, so the options are accepted although the limit is not within
    [1, 100].  The run goes on: the back-end is made and the front page
    fetched; the loop over its five links runs zero times and the run
    reports success with no article. *)
Theorem crawlSource_accepts_a_NaN_limit :
  Js.parseInt (Js.VStr "abc") = Js.VNaN
  /\ UniversalCrawler.validateCrawlOptions (Js.VObject [("limit", Js.VNaN)])
     = UniversalCrawler.mkValidation true []
  /\ (let run := Api.get_crawl (Fixture.site []) 1
                   (Js.VObject [("limit", Js.VStr "abc")]) Fixture.world in
      log (snd run)
      = [EvCreateCrawler "PuppeteerCrawler"; EvGoto "networkidle2" "https://news.test/"]
      /\ exists result,
           fst run = Returned result
           /\ Js.get result "success" = Js.VBool true
           /\ Js.get result "totalArticles" = Js.VInt 0).
Proof.
  split; [reflexivity |]. split; [reflexivity |].
  vm_compute. split; [reflexivity |]. eexists. repeat split.
Qed.

(** ** What a run does to the world *)

Lemma steps_bind_with (R : World -> World -> Prop) {A B : Type} (Q : A -> Prop)
    (m : M A) (k : A -> M B) :
  (forall a b c, R a b -> R b c -> R a c) ->
  steps R m -> yields Q m -> (forall a, Q a -> steps R (k a)) -> steps R (bind m k).
Proof.
  intros R_trans Hm Hq Hk s. unfold bind. specialize (Hm s). specialize (Hq s).
  destruct (m s) as [[a | e] s1]; simpl in *.
  - eapply R_trans; [exact Hm |]. apply Hk. apply Hq. reflexivity.
  - exact Hm.
Qed.

Lemma steps_foldM_in (R : World -> World -> Prop) {A B : Type}
    (body : B -> A -> M B) (l : list A) :
  (forall s, R s s) -> (forall a b c, R a b -> R b c -> R a c) ->
  (forall acc x, In x l -> steps R (body acc x)) ->
  forall acc, steps R (foldM body l acc).
Proof.
  intros R_refl R_trans. induction l as [| x rest IH]; intros Hb acc; simpl.
  - apply steps_ret, R_refl.
  - apply steps_bind; [exact R_trans | apply Hb; left; reflexivity |].
    intros acc'. apply IH. intros acc'' y Hy. apply Hb. right. exact Hy.
Qed.

Lemma steps_query Pe Pr {A : Type} (body : Db.t -> A * Db.t) :
  (forall d, let d' := snd (body d) in
             Db.articles d' = Db.articles d /\ Db.news_sources d' = Db.news_sources d /\
             Db.schedules d' = Db.schedules d /\ Db.fault d' = Db.fault d /\
             Db.calls d' = Db.calls d) ->
  steps (advances Pe Pr) (query (Db.statement body)).
Proof.
  intros H s. unfold query, Db.statement.
  destruct (Db.fault (db s) (Db.calls (db s))); simpl; [advances_done |].
  specialize (H (Db.tick (db s))). destruct (body (Db.tick (db s))) as [a d'].
  simpl in *. destruct H as (Ha & Hn & Hs & Hf & Hc).
  unfold advances; simpl. rewrite Ha, Hn, Hs, Hf, Hc. repeat split; try lia.
  - exists []. split; [rewrite app_nil_r; reflexivity | constructor].
  - exists []. split; [rewrite app_nil_r; reflexivity | constructor].
Qed.

Lemma getSource_advances Pe Pr sourceId :
  steps (advances Pe Pr) (UniversalCrawler.getSource sourceId).
Proof. apply steps_query. intros d. simpl. repeat split. Qed.

Lemma logCrawlOperation_advances Pe Pr sourceId action status message f p d :
  steps (advances Pe Pr)
        (UniversalCrawler.logCrawlOperation sourceId action status message f p d).
Proof. apply steps_query. intros d0. simpl. repeat split. Qed.

Lemma logCrawlHistory_advances Pe Pr sourceId f p n c d :
  steps (advances Pe Pr) (UniversalCrawler.logCrawlHistory sourceId f p n c d).
Proof. apply steps_query. intros d0. simpl. repeat split. Qed.

Lemma save_all_advances Pe (Pr : Db.article_row -> Prop) sourceId articles :
  (forall a row_id, In a articles -> Pr (row_of row_id sourceId a)) ->
  steps (advances Pe Pr) (UniversalCrawler.save_all sourceId articles).
Proof.
  intros H. unfold UniversalCrawler.save_all.
  apply steps_foldM_in; [apply advances_refl | apply advances_trans |].
  intros acc a Hin. unfold UniversalCrawler.save_step.
  apply steps_bind; [apply advances_trans | |].
  - apply saveArticle_advances. intros row_id. apply H, Hin.
  - intros r. destruct (UniversalCrawler.isNew r); apply steps_ret, advances_refl.
Qed.

Lemma crawlSource_advances w sourceId options :
  steps (advances is_crawl_event main_row)
        (UniversalCrawler.crawlSource w sourceId options).
Proof.
  unfold UniversalCrawler.crawlSource. cbv zeta.
  destruct (negb _); [apply steps_ret, advances_refl |].
  apply steps_try_catch; [apply advances_trans | |].
  - apply steps_bind; [apply advances_trans | apply getSource_advances |].
    intros [source |]; [| apply steps_throw, advances_refl].
    apply steps_bind; [apply advances_trans | apply logCrawlOperation_advances |].
    intros _.
    apply steps_bind; [apply advances_trans | |].
    { eapply steps_weaken; [apply fetches_advances | apply steps_emit; exact I]. }
    intros _.
    apply steps_try_catch; [apply advances_trans | | intros; apply steps_throw, advances_refl].
    unfold UniversalCrawler.crawl_and_store.
    eapply steps_bind_with; [apply advances_trans | | apply crawler_crawl_crawled |].
    { eapply steps_weaken; [| apply crawler_crawl_fetches].
      intros s s' H. apply fetches_advances.
      eapply fetches_mono; [| exact H]. intros [] He; try contradiction; exact I. }
    intros articles Hcrawled.
    apply steps_bind; [apply advances_trans | |].
    { apply save_all_advances. intros a row_id Hin.
      rewrite Forall_forall in Hcrawled. destruct (Hcrawled a Hin) as [Hd _].
      unfold row_of, main_row. simpl. rewrite Hd. split; reflexivity. }
    intros [newArticlesCount mainArticles].
    apply steps_bind; [apply advances_trans | apply logCrawlOperation_advances |].
    intros _.
    apply steps_bind; [apply advances_trans | apply logCrawlHistory_advances |].
    intros _. apply steps_ret, advances_refl.
  - intros message. unfold UniversalCrawler.report_failure. cbv zeta.
    apply steps_bind; [apply advances_trans | | intros; apply steps_ret, advances_refl].
    apply steps_try_catch;
      [apply advances_trans | apply logCrawlOperation_advances
      | intros; apply steps_ret, advances_refl].
Qed.

(** [crawlSource] never throws: every failure ends in its result. *)
Lemma crawlSource_returns w sourceId options :
  returns (UniversalCrawler.crawlSource w sourceId options).
Proof.
  unfold UniversalCrawler.crawlSource. cbv zeta.
  destruct (negb _); [apply returns_ret |].
  apply returns_try_catch. intros message.
  unfold UniversalCrawler.report_failure. cbv zeta.
  apply returns_bind; [| intros; apply returns_ret].
  apply returns_try_catch. intros _. apply returns_ret.
Qed.

(** ** Following internal links *)

Lemma In_firstn {A : Type} (n : nat) (l : list A) (x : A) :
  In x (firstn n l) -> In x l.
Proof.
  revert l. induction n as [| n IH]; intros [| y l]; simpl; try tauto.
  intros [H | H]; [left; exact H | right; apply IH, H].
Qed.

Lemma In_skipn {A : Type} (n : nat) (l : list A) (x : A) :
  In x (skipn n l) -> In x l.
Proof.
  revert l. induction n as [| n IH]; intros [| y l]; simpl; try tauto.
  intros H. right. apply IH, H.
Qed.

Lemma In_chunks {A : Type} (fuel n : nat) (l chunk : list A) (x : A) :
  In chunk (Js.chunks fuel n l) -> In x chunk -> In x l.
Proof.
  revert l. induction fuel as [| fuel IH]; intros l; simpl.
  - destruct l; contradiction.
  - destruct l as [| y l']; [contradiction |].
    intros [H | H] Hx.
    + subst chunk. apply In_firstn in Hx. exact Hx.
    + apply (In_skipn n). apply IH; assumption.
Qed.

(** At most three internal links are collected on a page. *)
Lemma extractArticleContent_collects_at_most_three w page url selectors options :
  yields (fun e => (List.length (UniversalCrawler.internalLinks e) <= 3)%nat)
         (UniversalCrawler.extractArticleContent w page url selectors options).
Proof.
  unfold UniversalCrawler.extractArticleContent.
  apply yields_try_catch; [| intros; apply yields_ret; simpl; lia].
  apply yields_bind; intros doc. apply yields_bind; intros title.
  apply yields_bind; intros content. apply yields_bind; intros origin.
  eapply yields_bind_with with (Q := fun l => (List.length l <= 3)%nat).
  - unfold UniversalCrawler.evaluate_links. apply yields_bind; intros els.
    apply yields_ret. unfold Js.slice0. apply firstn_le_length.
  - intros links H. apply yields_ret. exact H.
Qed.

(** It navigates to the given URL and nowhere else, and stores nothing. *)
Lemma extractArticleContent_fetches w page url selectors options :
  steps (fetches (fun e => exists how, e = EvGoto how url))
        (UniversalCrawler.extractArticleContent w page url selectors options).
Proof.
  unfold UniversalCrawler.extractArticleContent, UniversalCrawler.evaluate_title,
    UniversalCrawler.evaluate_content, UniversalCrawler.evaluate_links.
  assert (Halt : forall doc alts,
             steps (fetches (fun e => exists how, e = EvGoto how url))
                   (UniversalCrawler.first_alternative doc alts)).
  { intros doc alts. induction alts as [| alt rest IH]; simpl.
    - apply steps_ret, fetches_refl.
    - unfold querySelector, querySelectorAll, css_select.
      repeat first [ exact IH | steps_struct ]. }
  repeat first
    [ apply Halt
    | apply steps_goto; eexists; reflexivity
    | steps_struct
    | progress unfold querySelector, querySelectorAll, css_select ].
Qed.

Lemma getOrCreatePage_advances Pe Pr w :
  steps (advances Pe Pr) (UniversalCrawler.getOrCreatePage w).
Proof.
  intros s. unfold UniversalCrawler.getOrCreatePage, UniversalCrawler.initBrowser, throw.
  destruct (0 <? List.length (Pool.pagePool (upool s)))%nat; [| advances_done].
  destruct (Pool.getOrCreatePage w "universal" (upool s)) as [r p]. advances_done.
Qed.

Lemma releasePage_advances Pe Pr w page :
  steps (advances Pe Pr) (UniversalCrawler.releasePage w page).
Proof. intros s. unfold UniversalCrawler.releasePage. advances_done. Qed.

Lemma yields_foldM_in {A B : Type} (P : B -> Prop) (body : B -> A -> M B) (l : list A) :
  (forall acc x, In x l -> P acc -> yields P (body acc x)) ->
  forall acc, P acc -> yields P (foldM body l acc).
Proof.
  induction l as [| x rest IH]; intros Hb acc Hacc; simpl.
  - apply yields_ret, Hacc.
  - intros s b. unfold bind.
    pose proof (Hb acc x (or_introl eq_refl) Hacc s) as Hx.
    destruct (body acc x s) as [[acc' | e] s1]; simpl in *; [| discriminate].
    apply IH; [intros acc0 y Hy; apply Hb; right; exact Hy |].
    apply Hx. reflexivity.
Qed.

(** The tasks started for a chunk are for links of the chunk. *)
Lemma start_tasks_of_the_chunk w chunk :
  yields (Forall (fun task : (string * string) * outcome nat => In (fst task) chunk))
         (foldM (UniversalCrawler.start_task w) chunk []).
Proof.
  apply yields_foldM_in; [| constructor].
  intros acc linkInfo Hin Hacc s started. unfold UniversalCrawler.start_task.
  destruct (UniversalCrawler.getOrCreatePage w s) as [page s']. simpl.
  intros E. inversion E; subst.
  apply Forall_app. split; [exact Hacc |]. constructor; [exact Hin | constructor].
Qed.

(** The rows and the fetches of [crawlInternalLinks]: the rows are at
    depth [currentDepth + 1], the pages those of the first two links. *)
Lemma crawlInternalLinks_advances w page links sourceId selectors currentDepth maxDepth :
  steps (advances
           (fun e => exists how l, e = EvGoto how (fst l) /\ In l (firstn 2 links))
           (fun r => Db.a_depth r = currentDepth + 1 /\ Db.a_depth r <= maxDepth))
        (UniversalCrawler.crawlInternalLinks w page links sourceId selectors
           currentDepth maxDepth).
Proof.
  unfold UniversalCrawler.crawlInternalLinks.
  destruct (currentDepth >=? maxDepth) eqn:Hd; simpl; [apply steps_ret, advances_refl |].
  destruct (List.length links =? 0)%nat; [apply steps_ret, advances_refl |].
  assert (Hlt : currentDepth + 1 <= maxDepth).
  { rewrite Z.geb_leb in Hd. apply Z.leb_gt in Hd. lia. }
  cbv zeta. unfold Js.slice0.
  apply steps_foldM_in; [apply advances_refl | apply advances_trans |].
  intros results chunk Hchunk. unfold UniversalCrawler.settle_chunk.
  eapply steps_bind_with;
    [apply advances_trans | | apply start_tasks_of_the_chunk |].
  { (* taking the pages *)
    apply steps_foldM; [apply advances_refl | apply advances_trans |].
    intros started linkInfo s. unfold UniversalCrawler.start_task.
    pose proof (getOrCreatePage_advances
                  (fun e => exists how l, e = EvGoto how (fst l) /\ In l (firstn 2 links))
                  (fun r => Db.a_depth r = currentDepth + 1 /\ Db.a_depth r <= maxDepth)
                  w s) as H.
    destruct (UniversalCrawler.getOrCreatePage w s) as [r s']. exact H. }
  intros started Hstarted.
  apply steps_foldM_in; [apply advances_refl | apply advances_trans |].
  intros results' [linkInfo [dedicatedPage | e]] Htask;
    unfold UniversalCrawler.finish_task; simpl;
    [| apply steps_ret, advances_refl].
  assert (Hin : In linkInfo (firstn 2 links)).
  { rewrite Forall_forall in Hstarted. specialize (Hstarted _ Htask). simpl in Hstarted.
    eapply In_chunks; eauto. }
  apply steps_bind; [apply advances_trans | | intros; apply steps_ret, advances_refl].
  apply steps_try_catch; [apply advances_trans | | intros; apply steps_ret, advances_refl].
  unfold UniversalCrawler.link_body.
  apply steps_finally; [apply advances_trans | | apply releasePage_advances].
  apply steps_try_catch; [apply advances_trans | | intros; apply steps_ret, advances_refl].
  apply steps_bind; [apply advances_trans | |].
  { eapply steps_weaken; [| apply extractArticleContent_fetches].
    intros s s' H. apply fetches_advances.
    eapply fetches_mono; [| exact H].
    intros e [how He]. exists how, linkInfo. split; assumption. }
  intros articleData.
  apply steps_bind; [apply advances_trans | |].
  { apply saveArticle_advances. intros row_id. unfold row_of. simpl. lia. }
  intros r. destruct (UniversalCrawler.isNew r); apply steps_ret, advances_refl.
Qed.

(** C4. No row stored by a run is deeper than its [crawlDepth]: the rows
    a run of [crawlSource] adds are at depth 0, and a run is accepted
    with an integer [crawlDepth] only from 0 to 5.  The follow-up of
    internal links stops when [currentDepth] has reached [maxDepth];
    below it, it stores rows at depth [currentDepth + 1], which is at
    most [maxDepth], and fetches only the pages of the first two links
    it is given.  A page yields at most three internal links. *)
Theorem persisted_depth_is_bounded :
  forall (w : Web.t),
    (forall sourceId options s,
       exists rows,
         Db.articles (db (snd (UniversalCrawler.crawlSource w sourceId options s)))
         = (Db.articles (db s) ++ rows)%list
         /\ Forall (fun r =>
                      Db.a_depth r = 0
                      /\ forall d, Js.default (Js.get options "crawlDepth") (Js.VInt 0)
                                   = Js.VInt d -> Db.a_depth r <= d) rows)
    /\
    (forall page links sourceId selectors currentDepth maxDepth s,
       let run := UniversalCrawler.crawlInternalLinks w page links sourceId selectors
                    currentDepth maxDepth s in
       (exists rows,
          Db.articles (db (snd run)) = (Db.articles (db s) ++ rows)%list
          /\ Forall (fun r => Db.a_depth r = currentDepth + 1 /\ Db.a_depth r <= maxDepth)
                    rows)
       /\ (exists ev,
             log (snd run) = (log s ++ ev)%list
             /\ Forall (fun e => exists how l,
                                   e = EvGoto how (fst l) /\ In l (firstn 2 links)) ev)
       /\ (maxDepth <= currentDepth -> run = (Returned [], s)))
    /\
    (forall page url selectors options s e,
       fst (UniversalCrawler.extractArticleContent w page url selectors options s)
       = Returned e ->
       (List.length (UniversalCrawler.internalLinks e) <= 3)%nat).
Proof.
  intros w. split; [| split].
  - intros sourceId options s.
    destruct (UniversalCrawler.isValid (UniversalCrawler.validateCrawlOptions options))
      eqn:V.
    + destruct (crawlSource_advances w sourceId options s) as (_ & (rows & E & F) & _).
      exists rows. split; [exact E |].
      eapply Forall_impl; [| exact F]. intros r [Hd _]. split; [exact Hd |].
      intros d Hcd. rewrite Hd.
      rewrite (proj2 (validate_collects_every_violation options)) in V.
      simpl in V. rewrite Hcd in V.
      apply andb_true_iff in V. destruct V as [_ V].
      apply andb_true_iff in V. destruct V as [V _].
      apply negb_true_iff in V. apply rejected_int in V. lia.
    + exists []. rewrite crawlSource_rejects_without_fetching by exact V.
      simpl. rewrite app_nil_r. split; [reflexivity | constructor].
  - intros page links sourceId selectors currentDepth maxDepth s. cbv zeta.
    destruct (crawlInternalLinks_advances w page links sourceId selectors
                currentDepth maxDepth s) as (Hlog & Hrows & _).
    split; [exact Hrows |]. split; [exact Hlog |].
    intros Hge. unfold UniversalCrawler.crawlInternalLinks.
    replace (currentDepth >=? maxDepth) with true
      by (symmetry; rewrite Z.geb_leb; apply Z.leb_le; exact Hge).
    reflexivity.
  - intros page url selectors options s e H.
    exact (extractArticleContent_collects_at_most_three w page url selectors options s e H).
Qed.

(** ** The scheduler *)

Lemma persisted_depth_is_bounded_witness :
  UniversalCrawler.crawlInternalLinks (Fixture.site []) 0
    [("https://news.test/news/1", "more"); ("https://news.test/news/3", "next")]
    1 Fixture.source 2 2 Fixture.world
  = (Returned [], Fixture.world).
Proof.
  apply (proj2 (proj2 (proj1 (proj2 (persisted_depth_is_bounded (Fixture.site [])))
                         0%nat _ 1 Fixture.source 2 2 Fixture.world))).
  apply Z.le_refl.
Defined.











(** ** Partial failure of a run *)

(** An item whose page cannot be loaded is skipped: the loop goes on
    with the articles it had. *)
Lemma crawl_item_skips_a_failed_navigation w how source fullContent articles raw link e s :
  BaseCrawler.normalizeUrl w raw (Db.base_url source) = Returned link ->
  Web.navigate w how link = Threw e ->
  PuppeteerCrawler.crawl_item w how source fullContent articles raw s
  = (Returned articles, mkWorld (db s) (upool s) (log s ++ [EvGoto how link])).
Proof.
  intros Hn He.
  unfold PuppeteerCrawler.crawl_item, bind, lift, try_catch, goto, emit.
  rewrite Hn. simpl. rewrite He. reflexivity.
Qed.

(** Whatever happens inside the [try] of an item, the turn of the loop
    returns, with the articles it had or with one more. *)
Lemma crawl_item_returns w how source fullContent articles raw link s :
  BaseCrawler.normalizeUrl w raw (Db.base_url source) = Returned link ->
  exists o,
    fst (PuppeteerCrawler.crawl_item w how source fullContent articles raw s)
    = Returned (PuppeteerCrawler.push articles o).
Proof.
  intros Hn. unfold PuppeteerCrawler.crawl_item, bind, lift, try_catch.
  rewrite Hn. cbv beta iota.
  destruct (goto w how link s) as [[doc | e] s1]; cbv beta iota;
    [| exists None; reflexivity].
  destruct (PuppeteerCrawler.extract_item doc source fullContent link s1)
    as [[o | e] s2]; cbv beta iota; [exists o | exists None]; reflexivity.
Qed.

(** C5 (failing input).  The front page lists five stories and the page
    of the third cannot be reached.  The run completes with success and
    stores the other four; its result has the nine keys below, among
    which no count of errors, of processed or of found items; the
    history row counts 4 found and 4 processed for 5 links; and the
    route [POST /crawler/crawl], which reads [processed], [duplicates]
    and [errors] from the result, answers 0 for each. *)
Theorem run_result_has_no_error_count :
  let w := Fixture.site ["https://news.test/news/3"] in
  let options := Js.VObject [("limit", Js.VInt 5)] in
  let run := UniversalCrawler.crawlSource w 1 options Fixture.world in
  (exists result,
     fst run = Returned result
     /\ Js.keys result
        = ["success"; "source"; "sourceId"; "crawlerType"; "totalArticles";
           "newArticles"; "internalArticles"; "duration"; "articles"]
     /\ Js.get result "success" = Js.VBool true
     /\ Js.get result "totalArticles" = Js.VInt 4
     /\ Js.get result "newArticles" = Js.VInt 4
     /\ Js.get result "errors" = Js.VUndefined
     /\ Js.get result "processed" = Js.VUndefined
     /\ Js.get result "found" = Js.VUndefined)
  /\ map Db.a_link (Db.articles (db (snd run)))
     = ["https://news.test/news/1"; "https://news.test/news/2";
        "https://news.test/news/4"; "https://news.test/news/5"]
  /\ Db.crawl_history (db (snd run)) = [Db.mkHistoryRow 1 4 4 4 (Js.VInt 0) 7000]
  /\ fst (Api.post_crawler_crawl w 1 options Fixture.world)
     = Returned
         (Js.VObject
            [("success", Js.VBool true);
             ("processed", Js.VInt 0);
             ("new_articles", Js.VInt 4);
             ("duplicates", Js.VInt 0);
             ("errors", Js.VInt 0);
             ("message", Js.VStr "کرال با موفقیت انجام شد")]).
Proof.
  cbv zeta. split.
  - eexists. split; [vm_compute; reflexivity |]. repeat split.
  - split; [vm_compute; reflexivity |].
    split; vm_compute; reflexivity.
Qed.

(** ** The two back-ends on one document *)

(** [pushed] is what a turn of the loop adds, in both back-ends. *)
Lemma puppeteer_crawl_item_pushes w how source fullContent articles raw link doc s :
  BaseCrawler.normalizeUrl w raw (Db.base_url source) = Returned link ->
  Web.navigate w how link = Returned doc ->
  fst (PuppeteerCrawler.crawl_item w how source fullContent articles raw s)
  = Returned
      (PuppeteerCrawler.push articles
         (pushed (PuppeteerCrawler.extract_item doc source fullContent link)
                 (mkWorld (db s) (upool s) (log s ++ [EvGoto how link])))).
Proof.
  intros Hn Hd.
  unfold PuppeteerCrawler.crawl_item, goto, emit, lift, pushed.
  unfold bind, try_catch.
  rewrite Hn. cbv beta iota. rewrite Hd. cbv beta iota.
  destruct (PuppeteerCrawler.extract_item doc source fullContent link _)
    as [[o | e] s2]; reflexivity.
Qed.

Lemma cheerio_crawl_item_pushes w source fullContent articles link doc s :
  Web.navigate w "axios" link = Returned doc ->
  fst (CheerioCrawler.crawl_item w source fullContent articles link s)
  = Returned
      (PuppeteerCrawler.push articles
         (pushed (CheerioCrawler.extract_item doc source fullContent link)
                 (mkWorld (db s) (upool s) (log s ++ [EvGoto "axios" link])))).
Proof.
  intros Hd.
  unfold CheerioCrawler.crawl_item, goto, emit, lift, pushed.
  unfold bind, try_catch.
  cbv beta iota. rewrite Hd. cbv beta iota.
  destruct (CheerioCrawler.extract_item doc source fullContent link _)
    as [[o | e] s2]; reflexivity.
Qed.

(** C8 (counterexample).  On the page of story 1:
    - with a title selector that matches nothing, both back-ends push
      nothing although the page has an [h1] of more than ten characters,
      which the title function of [extractArticleContent] would take:
      they try no fallback selector;
    - with a content selector that cannot be parsed and full content not
      requested, the browser back-end pushes nothing and the static one
      pushes the article;
    - with the title selector [h1:first], which cheerio reads and the
      browser refuses, the static back-end pushes the article and the
      browser back-end nothing.
    And with no title selector, on a page holding an element named
    [null], the browser back-end pushes an article and the static one
    nothing. *)
Lemma backends_try_no_fallback_and_differ :
  let doc := Fixture.article_page "Headline one" ["First."; "More."] in
  let link := "https://news.test/news/1" in
  (pushed (PuppeteerCrawler.extract_item doc Fixture.source_with_other_title
             (Js.VBool true) link) Fixture.world = None
   /\ pushed (CheerioCrawler.extract_item doc Fixture.source_with_other_title
                (Js.VBool true) link) Fixture.world = None
   /\ fst (UniversalCrawler.evaluate_title doc ".post-title" Fixture.world)
      = Returned "Headline one")
  /\
  (pushed (PuppeteerCrawler.extract_item doc Fixture.source_with_bad_content
             (Js.VBool false) link) Fixture.world = None
   /\ pushed (CheerioCrawler.extract_item doc Fixture.source_with_bad_content
                (Js.VBool false) link) Fixture.world
      = Some (mkArticle "Headline one" link ""
                (Some "95a0d53374f87a9da3847d5cd7c89b2c") None))
  /\
  (pushed (PuppeteerCrawler.extract_item doc Fixture.source_with_jquery_title
             (Js.VBool true) link) Fixture.world = None
   /\ pushed (CheerioCrawler.extract_item doc Fixture.source_with_jquery_title
                (Js.VBool true) link) Fixture.world
      = Some (mkArticle "Headline one" link "First. More."
                (Some "95a0d53374f87a9da3847d5cd7c89b2c") None))
  /\
  (pushed (PuppeteerCrawler.extract_item Fixture.odd_page Fixture.source_without_title
             (Js.VBool true) link) Fixture.world
   = Some (mkArticle "Text of the odd element" link ""
             (Some (MD5.hexdigest ("Text of the odd element" ++ link))) None)
   /\ pushed (CheerioCrawler.extract_item Fixture.odd_page Fixture.source_without_title
                (Js.VBool true) link) Fixture.world = None).
Proof.
  cbv zeta. repeat split; vm_compute; reflexivity.
Qed.

(** C8 (amended).  On one document, for a source whose title selector
    is set and read alike by the two engines, the two back-ends push
    the same thing: the same article, with the same title, content and
    fingerprint, or nothing, in each of these cases: the content
    selector is absent; full content is requested and the two engines
    read the content selector alike; full content is not requested and
    the browser can evaluate the content selector.  Both push nothing
    when the title selector matches no element: neither tries another
    selector. *)
Theorem backends_extract_the_same_article :
  forall (doc : Web.document) (source : Db.source_row) (fullContent : Js.value)
         (link : string) (s s' : World),
    Db.title_selector source <> None ->
    Web.cheerio doc (Js.to_string (Db.title_selector source))
    = Web.querySelectorAll doc (Js.to_string (Db.title_selector source)) ->
    (Js.truthy_text (Db.content_selector source) = false
     \/ (Js.truthy fullContent = true
         /\ Web.cheerio doc (Js.to_string (Db.content_selector source))
            = Web.querySelectorAll doc (Js.to_string (Db.content_selector source)))
     \/ (Js.truthy fullContent = false
         /\ Web.querySelectorAll doc (Js.to_string (Db.content_selector source))
            <> None)) ->
    pushed (PuppeteerCrawler.extract_item doc source fullContent link) s
    = pushed (CheerioCrawler.extract_item doc source fullContent link) s'
    /\ (Web.querySelectorAll doc (Js.to_string (Db.title_selector source)) = Some [] ->
        pushed (PuppeteerCrawler.extract_item doc source fullContent link) s = None
        /\ pushed (CheerioCrawler.extract_item doc source fullContent link) s' = None).
Proof.
  intros doc [sid name base ctype ls ts cs lks act] fullContent link s s' Hts Hta Hcs.
  simpl in *. destruct ts as [ts |]; [clear Hts | contradiction].
  assert (Hsame :
            pushed (PuppeteerCrawler.extract_item doc
                      (Db.mkSourceRow sid name base ctype ls (Some ts) cs lks act)
                      fullContent link) s
            = pushed (CheerioCrawler.extract_item doc
                        (Db.mkSourceRow sid name base ctype ls (Some ts) cs lks act)
                        fullContent link) s'
            /\ (Web.querySelectorAll doc ts = Some [] ->
                pushed (PuppeteerCrawler.extract_item doc
                          (Db.mkSourceRow sid name base ctype ls (Some ts) cs lks act)
                          fullContent link) s = None)).
  { unfold pushed, PuppeteerCrawler.extract_item, PuppeteerCrawler.evaluate_article,
      CheerioCrawler.extract_item, CheerioCrawler.select, querySelector, querySelectorAll,
      css_select, cheerio_select, bind, ret, throw.
    simpl in *. rewrite Hta.
    (* by cases on the selectors, on what they match and on fullContent *)
    destruct cs as [cs |]; simpl in *;
      destruct (String.eqb ts "") eqn:Ets; simpl;
      try (destruct (String.eqb cs "") eqn:Ecs; simpl);
      destruct (Js.truthy fullContent) eqn:Efc; simpl;
      try (destruct Hcs as [Hcs | [[Hfc Hcs] | [Hfc Hcs]]];
           try discriminate; try rewrite Hcs);
      try (destruct (Web.querySelectorAll doc cs) as [cels |] eqn:Ec; simpl);
      try (destruct (Web.querySelectorAll doc ts) as [els |] eqn:Eq; simpl);
      try (destruct els as [| el els]; simpl);
      try (destruct (String.eqb (Js.trim (Web.textContent el)) "") eqn:Et; simpl);
      try contradiction;
      (split; [try reflexivity | try (intros E; first [discriminate | reflexivity])]). }
  destruct Hsame as [Hsame Hnone]. split; [exact Hsame |].
  intros E. split; [apply Hnone, E | rewrite <- Hsame; apply Hnone, E].
Qed.

Lemma backends_extract_the_same_article_witness :
  pushed (PuppeteerCrawler.extract_item
            (Fixture.article_page "Headline one" ["First."; "More."])
            Fixture.source (Js.VBool true) "https://news.test/news/1") Fixture.world
  = pushed (CheerioCrawler.extract_item
              (Fixture.article_page "Headline one" ["First."; "More."])
              Fixture.source (Js.VBool true) "https://news.test/news/1")
           Fixture.world.
Proof.
  refine (proj1 (backends_extract_the_same_article
                   (Fixture.article_page "Headline one" ["First."; "More."])
                   Fixture.source (Js.VBool true) "https://news.test/news/1"
                   Fixture.world Fixture.world _ _ _)).
  - discriminate.
  - reflexivity.
  - right. left. split; reflexivity.
Defined.

(** ** The page pool *)

(** [getOrCreatePage] never waits for a release: it pops the last idle
    page when there is one, and otherwise asks the browser for a page. *)
Lemma getOrCreatePage_pops_or_creates w kind p :
  (Pool.pagePool p <> [] ->
   Pool.getOrCreatePage w kind p
   = (Returned (last (Pool.pagePool p) 0%nat),
      Pool.mkPool (removelast (Pool.pagePool p)) (Pool.closed p) (Pool.created p)))
  /\ (Pool.pagePool p = [] ->
      Pool.getOrCreatePage w kind p
      = match Web.launch w kind with
        | Some msg => (Threw msg, p)
        | None => (Returned (Pool.created p),
                   Pool.mkPool [] (Pool.closed p) (S (Pool.created p)))
        end).
Proof.
  unfold Pool.getOrCreatePage. split.
  - intros H. destruct (Pool.pagePool p); [contradiction | reflexivity].
  - intros H. rewrite H. reflexivity.
Qed.

(** A release that nothing interrupts is [releasePage]: the page goes
    to the pool when the pool was under the cap and the reset worked,
    and is closed otherwise. *)
Lemma uninterrupted_release w kind page s :
  Pool.resetting s = [] ->
  Pool.step w kind (Pool.ResetSettled page) (Pool.step w kind (Pool.ReleaseCall page) s)
  = Pool.mkAsync (Pool.releasePage w page (Pool.pool s)) [].
Proof.
  intros H. destruct s as [p r]. simpl in H. subst r.
  unfold Pool.step, Pool.releasePage. simpl.
  destruct (List.length (Pool.pagePool p) <? Pool.maxConcurrentPages)%nat; simpl.
  - rewrite Nat.eqb_refl. simpl.
    destruct (Web.reset_throws w page); reflexivity.
  - reflexivity.
Qed.

Lemma releasePage_keeps_the_cap w page p :
  (List.length (Pool.pagePool p) <= Pool.maxConcurrentPages)%nat ->
  (List.length (Pool.pagePool (Pool.releasePage w page p)) <= Pool.maxConcurrentPages)%nat.
Proof.
  intros H. unfold Pool.releasePage.
  destruct (List.length (Pool.pagePool p) <? Pool.maxConcurrentPages)%nat eqn:E;
    simpl; [| exact H].
  destruct (Web.reset_throws w page); simpl; [exact H |].
  apply Nat.ltb_lt in E. rewrite length_app. simpl. lia.
Qed.

(** A page whose reset throws, or released to a full pool, is closed and
    never pooled. *)
Lemma releasePage_destroys w page p :
  Web.reset_throws w page = true
  \/ (Pool.maxConcurrentPages <= List.length (Pool.pagePool p))%nat ->
  Pool.releasePage w page p
  = Pool.mkPool (Pool.pagePool p) (Pool.closed p ++ [page]) (Pool.created p).
Proof.
  intros H. unfold Pool.releasePage.
  destruct (List.length (Pool.pagePool p) <? Pool.maxConcurrentPages)%nat eqn:E.
  - destruct H as [H | H]; [rewrite H; reflexivity |].
    apply Nat.ltb_lt in E. lia.
  - reflexivity.
Qed.

Lemma getOrCreatePage_keeps_the_cap w kind p :
  (List.length (Pool.pagePool p) <= Pool.maxConcurrentPages)%nat ->
  (List.length (Pool.pagePool (snd (Pool.getOrCreatePage w kind p)))
   <= Pool.maxConcurrentPages)%nat.
Proof.
  intros H. unfold Pool.getOrCreatePage.
  destruct (0 <? List.length (Pool.pagePool p))%nat; simpl.
  - destruct (Pool.pagePool p) as [| x l]; [exact H |].
    rewrite removelast_firstn_len, length_firstn. simpl in *. lia.
  - destruct (Web.launch w kind); exact H.
Qed.

(** As long as every release runs to its end before the next call, the
    pool stays within the cap. *)
Lemma sequential_use_keeps_the_cap w kind :
  forall (n : nat) (acts : list Pool.action) (s : Pool.async_state),
    (List.length acts <= n)%nat ->
    Pool.sequential acts ->
    Pool.resetting s = [] ->
    (List.length (Pool.pagePool (Pool.pool s)) <= Pool.maxConcurrentPages)%nat ->
    Pool.resetting (Pool.run w kind acts s) = []
    /\ (List.length (Pool.pagePool (Pool.pool (Pool.run w kind acts s)))
        <= Pool.maxConcurrentPages)%nat.
Proof.
  induction n as [| n IH]; intros acts s Hn Hseq Hr Hc.
  - destruct acts; [split; assumption | simpl in Hn; lia].
  - destruct acts as [| a rest]; [split; assumption |].
    destruct a as [| page | page]; simpl in Hseq.
    + (* Acquire *)
      change (Pool.run w kind (Pool.Acquire :: rest) s)
        with (Pool.run w kind rest (Pool.step w kind Pool.Acquire s)).
      apply IH; [simpl in Hn; lia | exact Hseq | exact Hr |].
      simpl. apply getOrCreatePage_keeps_the_cap, Hc.
    + (* ReleaseCall, then its ResetSettled *)
      destruct rest as [| b rest']; [contradiction |].
      destruct b as [| q | q]; try contradiction.
      destruct Hseq as [Hq Hseq]. subst q.
      change (Pool.run w kind (Pool.ReleaseCall page :: Pool.ResetSettled page :: rest') s)
        with (Pool.run w kind rest'
                (Pool.step w kind (Pool.ResetSettled page)
                   (Pool.step w kind (Pool.ReleaseCall page) s))).
      rewrite uninterrupted_release by exact Hr.
      apply IH; [simpl in Hn; lia | exact Hseq | reflexivity |].
      simpl. apply releasePage_keeps_the_cap, Hc.
    + contradiction.
Qed.



(** C10 (failing input).  The service as its constructor leaves it: no
    idle page and no browser.  [getOrCreatePage()] does not create a
    page: [initBrowser] throws the ReferenceError, and the pool and the
    count of pages made are as before.  However many callers ask, one
    after the other, no page is ever made, so that the pool never holds
    one.  A test of a selector whose input passes the checks is
    answered with that error, without a page taken or a page loaded. *)
Theorem getOrCreatePage_of_the_service_creates_no_page :
  forall (w : Web.t) (d : Db.t) (l : list event),
    let s := mkWorld d Pool.empty l in
    UniversalCrawler.getOrCreatePage w s = (Threw "Launcher is not defined", s)
    /\ (forall n : nat,
          Nat.iter n (fun s' => snd (UniversalCrawler.getOrCreatePage w s')) s = s)
    /\ (forall env url selector testType o,
          SelectorTest.refusal w url selector o = None ->
          SelectorTest.testSelector env w url selector testType o s
          = (Returned (SelectorTest.failure env url selector testType
                         "Launcher is not defined"), s)).
Proof.
  intros w d l s.
  assert (H : UniversalCrawler.getOrCreatePage w s = (Threw "Launcher is not defined", s))
    by reflexivity.
  split; [exact H |]. split.
  - intros n. induction n as [| n IH]; [reflexivity |].
    rewrite Nat.iter_succ, IH, H. reflexivity.
  - intros env url selector testType o Hok.
    unfold SelectorTest.testSelector, SelectorTest.attempt. rewrite Hok, H. reflexivity.
Qed.

(** ** Crawling a source twice *)

Lemma run_bind {A B : Type} (m : M A) (k : A -> M B) s a s1 :
  m s = (Returned a, s1) -> bind m k s = k a s1.
Proof. intros H. unfold bind. rewrite H. reflexivity. Qed.

Lemma run_bind_throw {A B : Type} (m : M A) (k : A -> M B) s e s1 :
  m s = (Threw e, s1) -> bind m k s = (Threw e, s1).
Proof. intros H. unfold bind. rewrite H. reflexivity. Qed.

Lemma run_try {A : Type} (m : M A) (h : string -> M A) s a s1 :
  m s = (Returned a, s1) -> try_catch m h s = (Returned a, s1).
Proof. intros H. unfold try_catch. rewrite H. reflexivity. Qed.

Lemma run_catch {A : Type} (m : M A) (h : string -> M A) s e s1 :
  m s = (Threw e, s1) -> try_catch m h s = h e s1.
Proof. intros H. unfold try_catch. rewrite H. reflexivity. Qed.

Lemma run_try_bind {A B : Type} (m : M A) (k : A -> M B) (h : string -> M B) s a s1 :
  m s = (Returned a, s1) -> try_catch (bind m k) h s = try_catch (k a) h s1.
Proof. intros H. unfold try_catch, bind. rewrite H. reflexivity. Qed.

(** A driver that answers runs the statement. *)
Lemma query_answers {A : Type} (body : Db.t -> A * Db.t) s :
  Db.fault_free (db s) ->
  query (Db.statement body) s
  = (Returned (fst (body (Db.tick (db s)))),
     mkWorld (snd (body (Db.tick (db s)))) (upool s) (log s)).
Proof.
  intros FF. unfold query, Db.statement. rewrite (FF (Db.calls (db s))).
  destruct (body (Db.tick (db s))); reflexivity.
Qed.


Lemma quiet_refl s : quiet s s.
Proof. repeat split. Qed.

Lemma quiet_trans a b c : quiet a b -> quiet b c -> quiet a c.
Proof. intros (A1 & N1 & F1) (A2 & N2 & F2). repeat split; congruence. Qed.

Lemma quiet_fault_free s s' : quiet s s' -> Db.fault_free (db s) -> Db.fault_free (db s').
Proof. intros (_ & _ & F) FF n. rewrite F. apply FF. Qed.


Lemma present_find a d :
  present a d ->
  exists r, find (Db.matches (MD5.hexdigest (title a ++ link a)) (link a)) (Db.articles d)
            = Some r.
Proof.
  intros (r & Hin & Hm).
  destruct (find _ (Db.articles d)) as [r' |] eqn:E; [eauto |].
  apply (find_none _ _ E) in Hin. congruence.
Qed.

(** With a driver that answers, the loop stores or finds every article:
    afterwards all are present. *)
Lemma save_loop_stores sourceId articles :
  forall acc s,
    Db.fault_free (db s) ->
    exists acc' s',
      foldM (UniversalCrawler.save_step sourceId) articles acc s = (Returned acc', s')
      /\ Db.fault (db s') = Db.fault (db s)
      /\ Db.news_sources (db s') = Db.news_sources (db s)
      /\ (forall r, In r (Db.articles (db s)) -> In r (Db.articles (db s')))
      /\ (forall a, In a articles -> present a (db s')).
Proof.
  induction articles as [| a rest IH]; intros acc s FF; simpl.
  - exists acc, s. repeat split; auto. intros a [].
  - unfold UniversalCrawler.save_step at 1.
    destruct (find (Db.matches (MD5.hexdigest (title a ++ link a)) (link a))
                   (Db.articles (db s))) as [r |] eqn:E.
    + (* found: one statement, nothing stored *)
      erewrite run_bind;
        [| erewrite run_bind; [| apply saveArticle_existing; [apply FF | exact E]];
           reflexivity].
      destruct (IH acc (ticked 1 s)) as (acc' & s' & Hrun & Hf & Hn & Hin & Hp);
        [exact FF |].
      exists acc', s'. split; [exact Hrun |]. repeat split; auto.
      intros a' [Ha | Ha]; [subst a' | apply Hp, Ha].
      apply find_some in E. destruct E as [Er Em].
      exists r. split; [apply Hin; exact Er | exact Em].
    + (* not found: the row is inserted *)
      erewrite run_bind;
        [| erewrite run_bind;
             [| apply saveArticle_fresh; [apply FF | apply FF | exact E]];
           reflexivity].
      match goal with
      | |- context [foldM _ rest ?acc1 ?s1] =>
          destruct (IH acc1 s1) as (acc' & s' & Hrun & Hf & Hn & Hin & Hp);
            [exact FF |]
      end.
      exists acc', s'. split; [exact Hrun |]. cbn [db Db.fault Db.news_sources
        Db.articles Db.with_articles Db.tick] in *. repeat split; auto.
      * intros r Hr. apply Hin. apply in_or_app. left. exact Hr.
      * intros a' [Ha | Ha]; [subst a' | apply Hp, Ha].
        exists (row_of (Db.next_id (db s)) sourceId a). split.
        -- apply Hin. apply in_or_app. right. left. reflexivity.
        -- unfold Db.matches, row_of. cbn [Db.a_hash Db.a_link].
           rewrite !String.eqb_refl. reflexivity.
Qed.

(** When all are present already, the loop stores nothing and counts
    nothing. *)
Lemma save_loop_finds_all sourceId articles :
  forall acc s,
    Db.fault_free (db s) ->
    (forall a, In a articles -> present a (db s)) ->
    exists s',
      foldM (UniversalCrawler.save_step sourceId) articles acc s = (Returned acc, s') /\ quiet s s'.
Proof.
  induction articles as [| a rest IH]; intros acc s FF Hp; simpl.
  - exists s. split; [reflexivity | apply quiet_refl].
  - destruct (present_find a (db s)) as [r E]; [apply Hp; left; reflexivity |].
    unfold UniversalCrawler.save_step at 1.
    erewrite run_bind;
      [| erewrite run_bind; [| apply saveArticle_existing; [apply FF | exact E]];
         reflexivity].
    destruct (IH acc (ticked 1 s)) as (s' & Hrun & Hq);
      [exact FF | intros a' Ha; apply Hp; right; exact Ha |].
    exists s'. split; [exact Hrun |].
    eapply quiet_trans; [| exact Hq]. repeat split.
Qed.

Lemma report_failure_when_storage_answers w sourceId message s :
  Db.fault_free (db s) ->
  exists result s',
    UniversalCrawler.report_failure w sourceId message s = (Returned result, s')
    /\ Js.get result "success" = Js.VBool false
    /\ quiet s s'.
Proof.
  intros FF. unfold UniversalCrawler.report_failure. cbv zeta.
  unfold UniversalCrawler.logCrawlOperation, Db.insert_log.
  eexists. eexists. split; [| split].
  - erewrite run_bind; [| erewrite run_try; [| apply query_answers, FF]; reflexivity].
    reflexivity.
  - reflexivity.
  - repeat split.
Qed.

Lemma present_quiet a s s' : quiet s s' -> present a (db s) -> present a (db s').
Proof. intros (Ha & _) (r & Hin & Hm). exists r. rewrite Ha. split; assumption. Qed.

(** The inner [try] with a driver that answers. *)
Lemma crawl_and_store_when_storage_answers w sourceId source crawler
    limit fullContent crawlDepth s :
  Db.fault_free (db s) ->
  match crawler_crawl w crawler source
          (Js.VObject [("limit", limit); ("fullContent", fullContent)]) s with
  | (Threw e, s1) =>
      UniversalCrawler.crawl_and_store w sourceId source crawler
        limit fullContent crawlDepth s = (Threw e, s1)
      /\ db s1 = db s
  | (Returned articles, s1) =>
      exists result s',
        UniversalCrawler.crawl_and_store w sourceId source crawler
          limit fullContent crawlDepth s = (Returned result, s')
        /\ Js.get result "success" = Js.VBool true
        /\ Db.news_sources (db s') = Db.news_sources (db s)
        /\ Db.fault (db s') = Db.fault (db s)
        /\ (forall a, In a articles -> present a (db s'))
        /\ ((forall a, In a articles -> present a (db s)) ->
            Db.articles (db s') = Db.articles (db s)
            /\ Js.get result "newArticles" = Js.VInt 0
            /\ Js.get result "totalArticles" = Js.VInt 0)
  end.
Proof.
  intros FF.
  pose proof (crawler_crawl_fetches w crawler source
                (Js.VObject [("limit", limit); ("fullContent", fullContent)]) s)
    as (Hdb & _).
  destruct (crawler_crawl w crawler source
              (Js.VObject [("limit", limit); ("fullContent", fullContent)]) s)
    as [[articles | e] s1] eqn:Ecrawl; cbn [snd] in Hdb.
  - (* the back-end returned *)
    assert (FF1 : Db.fault_free (db s1)) by (rewrite Hdb; exact FF).
    destruct (save_loop_stores sourceId articles (0, []) s1 FF1)
      as ([n new] & s2 & Hsave & Hf2 & Hn2 & Hin2 & Hp2).
    assert (FF2 : Db.fault_free (db s2)) by (intros k; rewrite Hf2; apply FF1).
    unfold UniversalCrawler.crawl_and_store.
    unfold UniversalCrawler.logCrawlOperation, UniversalCrawler.logCrawlHistory,
      Db.insert_log, Db.insert_history.
    eexists. eexists. split.
    { erewrite run_bind; [| exact Ecrawl].
      erewrite run_bind; [| exact Hsave]. cbv beta iota zeta.
      erewrite run_bind; [| apply query_answers, FF2].
      erewrite run_bind; [| apply query_answers; intros k; apply FF2].
      reflexivity. }
    cbn [Js.get Js.assoc String.eqb Ascii.eqb Bool.eqb fst snd db
         Db.news_sources Db.fault Db.articles Db.with_history Db.with_logs Db.tick].
    split; [reflexivity |]. rewrite Hdb in Hn2, Hf2.
    split; [exact Hn2 |]. split; [exact Hf2 |]. split; [exact Hp2 |].
    intros Hall.
    destruct (save_loop_finds_all sourceId articles (0, []) s1 FF1) as (s2' & Hsave' & Hq).
    { intros a Ha. destruct (Hall a Ha) as (r & Hr & Hm). exists r.
      rewrite Hdb. split; assumption. }
    unfold UniversalCrawler.save_all in *.
    rewrite Hsave in Hsave'. inversion Hsave'; subst.
    destruct Hq as (Ha & _). rewrite Ha, Hdb. repeat split.
  - split; [| exact Hdb].
    unfold UniversalCrawler.crawl_and_store.
    erewrite run_bind_throw; [reflexivity | exact Ecrawl].
Qed.

(** A run with a driver that answers, for accepted options: it returns
    a result; it fails when the source is not found or the back-end
    throws, and then stores nothing; otherwise it succeeds, every
    crawled article is present afterwards, and when all were present
    before, it stores nothing and counts no new article. *)
Lemma crawlSource_when_storage_answers w sourceId options s :
  Db.fault_free (db s) ->
  UniversalCrawler.isValid (UniversalCrawler.validateCrawlOptions options) = true ->
  exists result s',
    UniversalCrawler.crawlSource w sourceId options s = (Returned result, s')
    /\ Db.news_sources (db s') = Db.news_sources (db s)
    /\ Db.fault (db s') = Db.fault (db s)
    /\ match find (fun x => (Db.s_id x =? sourceId) && Db.s_active x)
                  (Db.news_sources (db s)) with
       | None =>
           Js.get result "success" = Js.VBool false
           /\ Db.articles (db s') = Db.articles (db s)
       | Some source =>
           forall s0,
             match fst (crawler_crawl w (createCrawler source) source
                          (Js.VObject
                             [("limit", Js.default (Js.get options "limit") (Js.VInt 10));
                              ("fullContent",
                               Js.default (Js.get options "fullContent") (Js.VBool true))])
                          s0) with
             | Threw _ =>
                 Js.get result "success" = Js.VBool false
                 /\ Db.articles (db s') = Db.articles (db s)
             | Returned articles =>
                 Js.get result "success" = Js.VBool true
                 /\ (forall a, In a articles -> present a (db s'))
                 /\ ((forall a, In a articles -> present a (db s)) ->
                     Db.articles (db s') = Db.articles (db s)
                     /\ Js.get result "newArticles" = Js.VInt 0
                     /\ Js.get result "totalArticles" = Js.VInt 0)
             end
       end.
Proof.
  intros FF V. unfold UniversalCrawler.crawlSource. cbv zeta. rewrite V. cbn [negb].
  unfold UniversalCrawler.getSource, Db.select_source.
  set (opts := Js.VObject _).
  destruct (find (fun x => (Db.s_id x =? sourceId) && Db.s_active x)
                 (Db.news_sources (db s))) as [source |] eqn:Efind.
  - (* the source is found: the run reaches the inner try in a world
       [s3] that differs from [s] by a log row and a log event *)
    erewrite run_try_bind;
      [| apply query_answers, FF].
    cbn [fst snd Db.tick Db.news_sources]. rewrite Efind.
    unfold UniversalCrawler.logCrawlOperation, Db.insert_log.
    erewrite run_try_bind; [| apply query_answers; exact FF].
    erewrite run_try_bind; [| reflexivity].
    cbn [fst snd].
    match goal with
    | |- context [try_catch (try_catch _ _) _ ?w3] => set (s3 := w3)
    end.
    assert (FF3 : Db.fault_free (db s3)) by exact FF.
    assert (Q3 : quiet s s3) by (repeat split).
    pose proof (crawl_and_store_when_storage_answers w sourceId source
                  (createCrawler source)
                  (Js.default (Js.get options "limit") (Js.VInt 10))
                  (Js.default (Js.get options "fullContent") (Js.VBool true))
                  (Js.default (Js.get options "crawlDepth") (Js.VInt 0)) s3 FF3) as Hstore.
    pose proof (crawler_crawl_blind w (createCrawler source) source opts s3) as Hblind.
    fold opts in Hstore.
    destruct (crawler_crawl w (createCrawler source) source opts s3)
      as [[articles | e] s4] eqn:Ecrawl.
    + destruct Hstore as (result & s' & Hrun & Hok & Hn & Hf & Hp & Hnone).
      exists result, s'. split.
      { erewrite run_try; [reflexivity |]. erewrite run_try; [reflexivity | exact Hrun]. }
      destruct Q3 as (Qa & Qn & Qf).
      split; [congruence |]. split; [congruence |].
      intros s0. rewrite <- (Hblind s0). cbn [fst].
      split; [exact Hok |]. split; [exact Hp |].
      intros Hall. rewrite <- Qa. apply Hnone.
      intros a Ha. destruct (Hall a Ha) as (r & Hr & Hm).
      exists r. rewrite Qa. split; assumption.
    + destruct Hstore as [Hrun Hdb].
      assert (FF4 : Db.fault_free (db s4)) by (rewrite Hdb; exact FF3).
      destruct (report_failure_when_storage_answers w sourceId e s4 FF4)
        as (result & s' & Hfail & Hres & Hq).
      exists result, s'. split.
      { erewrite run_catch; [exact Hfail |].
        erewrite run_catch; [reflexivity | exact Hrun]. }
      destruct Hq as (Ha & Hn & Hf). destruct Q3 as (Qa & Qn & Qf). rewrite Hdb in *.
      split; [congruence |]. split; [congruence |].
      intros s0. rewrite <- (Hblind s0). cbn [fst].
      split; [exact Hres | congruence].
  - (* no such source *)
    destruct (report_failure_when_storage_answers w sourceId
                ("منبع خبری با شناسه " ++ Js.string_of_Z sourceId ++ " یافت نشد")
                (ticked 1 s) FF) as (result & s' & Hrun & Hres & Hq).
    exists result, s'.
    erewrite run_catch;
      [| erewrite run_bind; [| apply query_answers, FF];
         cbn [fst snd Db.tick Db.news_sources]; rewrite Efind; reflexivity].
    split; [exact Hrun |]. destruct Hq as (Ha & Hn & Hf).
    repeat split; assumption.
Qed.

(** C9. With a driver that answers every statement and an unchanged
    site, a second run of [crawlSource] on the same source with the
    same options stores no row: every article it crawls is found by the
    lookup on fingerprint or link.  It succeeds exactly when the first
    run did, and then reports [newArticles] 0. *)
Theorem second_crawl_stores_nothing_new :
  forall (w : Web.t) (sourceId : Z) (options : Js.value) (s : World),
    Db.fault_free (db s) ->
    let first := UniversalCrawler.crawlSource w sourceId options s in
    let second := UniversalCrawler.crawlSource w sourceId options (snd first) in
    Db.articles (db (snd second)) = Db.articles (db (snd first))
    /\ exists result1 result2,
         fst first = Returned result1
         /\ fst second = Returned result2
         /\ Js.get result2 "success" = Js.get result1 "success"
         /\ (Js.get result1 "success" = Js.VBool true ->
             Js.get result2 "newArticles" = Js.VInt 0
             /\ Js.get result2 "totalArticles" = Js.VInt 0).
Proof.
  intros w sourceId options s FF. cbv zeta.
  destruct (UniversalCrawler.isValid (UniversalCrawler.validateCrawlOptions options))
    eqn:V.
  - destruct (crawlSource_when_storage_answers w sourceId options s FF V)
      as (r1 & s1 & Hrun1 & Hn1 & Hf1 & Hcase1).
    assert (FF1 : Db.fault_free (db s1)) by (intros k; rewrite Hf1; apply FF).
    destruct (crawlSource_when_storage_answers w sourceId options s1 FF1 V)
      as (r2 & s2 & Hrun2 & Hn2 & Hf2 & Hcase2).
    rewrite Hrun1. cbn [fst snd]. rewrite Hrun2. cbn [fst snd].
    rewrite Hn1 in Hcase2.
    destruct (find (fun x => (Db.s_id x =? sourceId) && Db.s_active x)
                   (Db.news_sources (db s))) as [source |].
    + specialize (Hcase1 s). specialize (Hcase2 s).
      destruct (fst (crawler_crawl w (createCrawler source) source _ s))
        as [articles | e].
      * destruct Hcase1 as (Hok1 & Hp1 & _).
        destruct Hcase2 as (Hok2 & _ & Hnone).
        destruct (Hnone Hp1) as (Ha & Hnew & Htotal).
        split; [exact Ha |]. exists r1, r2. repeat split; try congruence.
      * destruct Hcase1 as (Hko1 & _). destruct Hcase2 as (Hko2 & Ha).
        split; [exact Ha |]. exists r1, r2. repeat split; try congruence.
    + destruct Hcase1 as (Hko1 & _). destruct Hcase2 as (Hko2 & Ha).
      split; [exact Ha |]. exists r1, r2. repeat split; try congruence.
  - rewrite !crawlSource_rejects_without_fetching by exact V. cbn [fst snd].
    split; [reflexivity |]. eexists. eexists. repeat split; discriminate.
Qed.

Lemma second_crawl_stores_nothing_new_witness :
  exists result2,
    fst (UniversalCrawler.crawlSource (Fixture.site []) 1
           (Js.VObject [("limit", Js.VInt 5)])
           (snd (UniversalCrawler.crawlSource (Fixture.site []) 1
                   (Js.VObject [("limit", Js.VInt 5)]) Fixture.world)))
    = Returned result2
    /\ Js.get result2 "newArticles" = Js.VInt 0.
Proof.
  destruct (proj2 (second_crawl_stores_nothing_new (Fixture.site []) 1
                     (Js.VObject [("limit", Js.VInt 5)]) Fixture.world
                     (fun n => eq_refl)))
    as (r1 & r2 & H1 & H2 & _ & Hnew).
  exists r2. split; [exact H2 |]. apply Hnew.
  assert (E : exists r,
             fst (UniversalCrawler.crawlSource (Fixture.site []) 1
                    (Js.VObject [("limit", Js.VInt 5)]) Fixture.world) = Returned r
             /\ Js.get r "success" = Js.VBool true)
    by (vm_compute; eexists; split; reflexivity).
  destruct E as (r & E1 & E2). rewrite E1 in H1. injection H1 as <-. exact E2.
Defined.

(* ------------------------------------------------------------------ *)
(** * Further properties of the code                                  *)
(* ------------------------------------------------------------------ *)

(** ** A run of [crawlSource] seen from outside *)

Lemma appends_refl s : appends s s.
Proof.
  repeat split; exists []; rewrite app_nil_r; reflexivity.
Qed.

Lemma appends_trans a b c : appends a b -> appends b c -> appends a c.
Proof.
  intros (P1 & (l1 & L1) & (h1 & H1)) (P2 & (l2 & L2) & (h2 & H2)).
  split; [congruence |]. split.
  - exists (l1 ++ l2)%list. rewrite L2, L1, app_assoc. reflexivity.
  - exists (h1 ++ h2)%list. rewrite H2, H1, app_assoc. reflexivity.
Qed.

Lemma fetches_appends Pe s s' : fetches Pe s s' -> appends s s'.
Proof.
  intros (D & P & _). unfold appends. rewrite D. split; [exact P |].
  split; exists []; rewrite app_nil_r; reflexivity.
Qed.

(** A statement that leaves the pool alone and only adds to the logs
    and to the history. *)
Lemma appends_query {A : Type} (body : Db.t -> A * Db.t) :
  (forall d, (exists rows, Db.crawl_logs (snd (body d)) = (Db.crawl_logs d ++ rows)%list)
             /\ (exists rows, Db.crawl_history (snd (body d))
                              = (Db.crawl_history d ++ rows)%list)) ->
  steps appends (query (Db.statement body)).
Proof.
  intros H s. unfold query, Db.statement.
  destruct (Db.fault (db s) (Db.calls (db s))); simpl.
  - split; [reflexivity |]. split; exists []; rewrite app_nil_r; reflexivity.
  - specialize (H (Db.tick (db s))). destruct (body (Db.tick (db s))) as [a d'].
    simpl in *. split; [reflexivity | exact H].
Qed.

Ltac appends_same := split; exists []; rewrite app_nil_r; reflexivity.

Lemma saveArticle_appends sourceId a :
  steps appends (UniversalCrawler.saveArticle sourceId a).
Proof.
  unfold UniversalCrawler.saveArticle. cbv zeta.
  apply steps_try_catch; [exact appends_trans | |].
  - apply steps_bind; [exact appends_trans | |].
    + apply appends_query. intros d. simpl. appends_same.
    + intros [row_id |]; [apply steps_ret, appends_refl |].
      apply steps_bind; [exact appends_trans | | intros; apply steps_ret, appends_refl].
      apply appends_query. intros d. simpl.
      destruct (existsb _ _); simpl; appends_same.
  - intros message. destruct (UniversalCrawler.is_unique_violation message);
      [apply steps_ret | apply steps_throw]; apply appends_refl.
Qed.

Lemma logCrawlOperation_appends sourceId action status message f p d :
  steps appends (UniversalCrawler.logCrawlOperation sourceId action status message f p d).
Proof.
  apply appends_query. intros d0. simpl. split; [eexists; reflexivity |].
  exists []; rewrite app_nil_r; reflexivity.
Qed.

Lemma crawlSource_appends w sourceId options :
  steps appends (UniversalCrawler.crawlSource w sourceId options).
Proof.
  unfold UniversalCrawler.crawlSource. cbv zeta.
  destruct (negb _); [apply steps_ret, appends_refl |].
  apply steps_try_catch; [exact appends_trans | |].
  - apply steps_bind; [exact appends_trans | |].
    { apply appends_query. intros d. simpl. appends_same. }
    intros [source |]; [| apply steps_throw, appends_refl].
    apply steps_bind; [exact appends_trans | apply logCrawlOperation_appends |].
    intros _.
    apply steps_bind; [exact appends_trans | |].
    { eapply steps_weaken; [apply (fetches_appends (fun _ => True)) |].
      apply steps_emit. exact I. }
    intros _.
    apply steps_try_catch;
      [exact appends_trans | | intros; apply steps_throw, appends_refl].
    unfold UniversalCrawler.crawl_and_store.
    apply steps_bind; [exact appends_trans | |].
    { eapply steps_weaken; [apply fetches_appends | apply crawler_crawl_fetches]. }
    intros articles.
    apply steps_bind; [exact appends_trans | |].
    { unfold UniversalCrawler.save_all.
      apply steps_foldM; [exact appends_refl | exact appends_trans |].
      intros acc a. unfold UniversalCrawler.save_step.
      apply steps_bind; [exact appends_trans | apply saveArticle_appends |].
      intros r. destruct (UniversalCrawler.isNew r); apply steps_ret, appends_refl. }
    intros [newArticlesCount mainArticles].
    apply steps_bind; [exact appends_trans | apply logCrawlOperation_appends |].
    intros _.
    apply steps_bind; [exact appends_trans | | intros; apply steps_ret, appends_refl].
    unfold UniversalCrawler.logCrawlHistory.
    apply appends_query. intros d0. simpl. split; [| eexists; reflexivity].
    exists []; rewrite app_nil_r; reflexivity.
  - intros message. unfold UniversalCrawler.report_failure. cbv zeta.
    apply steps_bind; [exact appends_trans | | intros; apply steps_ret, appends_refl].
    apply steps_try_catch;
      [exact appends_trans | apply logCrawlOperation_appends
      | intros; apply steps_ret, appends_refl].
Qed.

(** X1. When [validateCrawlOptions] rejects the options, [crawlSource]
    returns at once with [{success: false, error, source}]: the error
    is the fixed prefix followed by the messages of the violated
    bounds, of which there is at least one, and nothing is read or
    written: the database, the page pool and the log are as before. *)
Theorem crawlSource_refuses_invalid_options_and_touches_nothing :
  forall (w : Web.t) (sourceId : Z) (options : Js.value) (s : World),
    UniversalCrawler.isValid (UniversalCrawler.validateCrawlOptions options) = false ->
    UniversalCrawler.crawlSource w sourceId options s
    = (Returned
         (Js.VObject
            [("success", Js.VBool false);
             ("error",
              Js.VStr (UniversalCrawler.invalid_options
                       ++ Js.join ", "
                            (UniversalCrawler.errors
                               (UniversalCrawler.validateCrawlOptions options))));
             ("source", Js.VInt sourceId)]),
       s)
    /\ UniversalCrawler.errors (UniversalCrawler.validateCrawlOptions options) <> [].
Proof.
  intros w sourceId options s H. split.
  - rewrite (proj1 (validate_collects_every_violation options)).
    apply crawlSource_rejects_without_fetching, H.
  - intros E. unfold UniversalCrawler.validateCrawlOptions in *. cbv zeta in *.
    cbn [UniversalCrawler.isValid UniversalCrawler.errors] in *.
    rewrite E in H. discriminate H.
Qed.

Lemma crawlSource_refuses_invalid_options_and_touches_nothing_witness :
  snd (UniversalCrawler.crawlSource (Fixture.site []) 1
         (Js.VObject [("limit", Js.VInt 101)]) Fixture.world)
  = Fixture.world.
Proof.
  rewrite (proj1 (crawlSource_refuses_invalid_options_and_touches_nothing
                    (Fixture.site []) 1 (Js.VObject [("limit", Js.VInt 101)])
                    Fixture.world eq_refl)).
  reflexivity.
Defined.

(** X2. For options that are not [null], [crawlSource] never throws:
    whatever the site and the database, it returns an object whose
    [success] is [true], or is [false] with a text under [error].  (At
    [null] the destructuring of the options, which comes before the
    [try], throws a TypeError.) *)
Theorem crawlSource_always_answers :
  forall (w : Web.t) (sourceId : Z) (options : Js.value) (s : World),
    options <> Js.VNull ->
    exists result,
      fst (UniversalCrawler.crawlSource w sourceId options s) = Returned result
      /\ (Js.get result "success" = Js.VBool true
          \/ (Js.get result "success" = Js.VBool false
              /\ exists message, Js.get result "error" = Js.VStr message)).
Proof.
  intros w sourceId options s _.
  destruct (crawlSource_returns w sourceId options s) as [result E].
  exists result. split; [exact E |]. revert s result E.
  change (yields (fun result =>
                    Js.get result "success" = Js.VBool true
                    \/ (Js.get result "success" = Js.VBool false
                        /\ exists message, Js.get result "error" = Js.VStr message))
                 (UniversalCrawler.crawlSource w sourceId options)).
  unfold UniversalCrawler.crawlSource. cbv zeta.
  destruct (negb _).
  - apply yields_ret. right. split; [reflexivity | eexists; reflexivity].
  - apply yields_try_catch.
    + apply yields_bind; intros [source |]; [| apply yields_throw].
      apply yields_bind; intros _. apply yields_bind; intros _.
      apply yields_try_catch; [| intros; apply yields_throw].
      unfold UniversalCrawler.crawl_and_store.
      apply yields_bind; intros articles. apply yields_bind; intros [n new].
      apply yields_bind; intros _. apply yields_bind; intros _.
      apply yields_ret. left. reflexivity.
    + intros message. unfold UniversalCrawler.report_failure. cbv zeta.
      apply yields_bind; intros _. apply yields_ret.
      right. split; [reflexivity | eexists; reflexivity].
Qed.

Lemma crawlSource_always_answers_witness :
  exists result,
    fst (UniversalCrawler.crawlSource (Fixture.site ["https://news.test/"]) 1
           (Js.VObject [("limit", Js.VInt 5)]) Fixture.world) = Returned result
    /\ (Js.get result "success" = Js.VBool true
        \/ (Js.get result "success" = Js.VBool false
            /\ exists message, Js.get result "error" = Js.VStr message)).
Proof.
  apply (crawlSource_always_answers (Fixture.site ["https://news.test/"]) 1
           (Js.VObject [("limit", Js.VInt 5)]) Fixture.world).
  discriminate.
Defined.

(** X3. A run of [crawlSource], successful or not, only adds rows: the
    tables of sources and of schedules and the page pool of the service
    are as before, and the tables of articles, of logs and of history
    are the old ones followed by new rows; no row is changed or
    removed. *)
Theorem crawlSource_only_adds_rows :
  forall (w : Web.t) (sourceId : Z) (options : Js.value) (s : World),
    let s' := snd (UniversalCrawler.crawlSource w sourceId options s) in
    Db.news_sources (db s') = Db.news_sources (db s)
    /\ Db.schedules (db s') = Db.schedules (db s)
    /\ upool s' = upool s
    /\ (exists rows, Db.articles (db s') = (Db.articles (db s) ++ rows)%list)
    /\ (exists rows, Db.crawl_logs (db s') = (Db.crawl_logs (db s) ++ rows)%list)
    /\ (exists rows, Db.crawl_history (db s') = (Db.crawl_history (db s) ++ rows)%list).
Proof.
  intros w sourceId options s. cbv zeta.
  destruct (crawlSource_advances w sourceId options s)
    as (_ & (rows & E & _) & Hn & Hs & _).
  destruct (crawlSource_appends w sourceId options s) as (Hp & Hl & Hh).
  repeat split; try assumption. exists rows. exact E.
Qed.

(** X4. The [crawl] of every back-end leaves the database and the page
    pool of the service alone; what it adds to the log are page loads
    only; and what it returns does not depend on the database, the pool
    or the log it starts from. *)
Theorem backends_only_fetch :
  forall (w : Web.t) (c : crawler) (source : Db.source_row) (options : Js.value)
         (s : World),
    let run := crawler_crawl w c source options s in
    db (snd run) = db s
    /\ upool (snd run) = upool s
    /\ (exists fetched, log (snd run) = (log s ++ fetched)%list /\ Forall is_goto fetched)
    /\ forall s', fst (crawler_crawl w c source options s') = fst run.
Proof.
  intros w c source options s. cbv zeta.
  destruct (crawler_crawl_fetches w c source options s) as (Hd & Hp & Hl).
  repeat split; try assumption.
  intros s'. apply crawler_crawl_blind.
Qed.

(** ** How many articles a back-end returns *)

Lemma push_length articles o :
  (List.length (PuppeteerCrawler.push articles o) <= S (List.length articles))%nat.
Proof.
  destruct o; simpl; [rewrite length_app; simpl; lia | lia].
Qed.

Lemma yields_foldM_length {A : Type} (body : list article -> A -> M (list article))
    (l : list A) :
  (forall acc x, yields (fun r => (List.length r <= S (List.length acc))%nat) (body acc x)) ->
  forall acc,
    yields (fun r => (List.length r <= List.length acc + List.length l)%nat)
           (foldM body l acc).
Proof.
  intros Hb. induction l as [| x rest IH]; intros acc; simpl.
  - apply yields_ret. lia.
  - intros s r. unfold bind. specialize (Hb acc x s).
    destruct (body acc x s) as [[acc' | e] s1]; simpl in *; [| discriminate].
    intros H. apply IH in H. specialize (Hb acc' eq_refl). lia.
Qed.

Lemma loop_bound_limit (links : list string) (limit : Z) :
  (Z.of_nat (List.length (firstn (Js.loop_bound (List.length links) (Js.VInt limit)) links))
   <= Z.max 0 limit).
Proof.
  rewrite length_firstn. unfold Js.loop_bound. lia.
Qed.

Lemma yields_weaken {A : Type} (P Q : A -> Prop) (m : M A) :
  (forall a, P a -> Q a) -> yields P m -> yields Q m.
Proof. intros H Hm s a E. apply H, (Hm s a E). Qed.

Lemma item_loop_within_limit {A : Type} (body : list article -> A -> M (list article))
    (links : list A) (limit : Z) (n : nat) :
  (Z.of_nat n <= Z.max 0 limit) ->
  (forall acc x, yields (fun r => (List.length r <= S (List.length acc))%nat) (body acc x)) ->
  yields (fun r => Z.of_nat (List.length r) <= Z.max 0 limit)
         (foldM body (firstn n links) []).
Proof.
  intros Hn Hb. eapply yields_weaken; [| apply yields_foldM_length, Hb].
  intros r H. simpl in H. rewrite length_firstn in H. lia.
Qed.

Lemma loop_bound_le (n : nat) (limit : Z) :
  Z.of_nat (Js.loop_bound n (Js.VInt limit)) <= Z.max 0 limit.
Proof. unfold Js.loop_bound. lia. Qed.

Lemma puppeteer_crawl_item_adds_one w how source fullContent acc raw :
  yields (fun r => (List.length r <= S (List.length acc))%nat)
         (PuppeteerCrawler.crawl_item w how source fullContent acc raw).
Proof.
  unfold PuppeteerCrawler.crawl_item.
  apply yields_bind; intros link.
  apply yields_try_catch; [| intros; apply yields_ret; lia].
  apply yields_bind; intros doc. apply yields_bind; intros o.
  apply yields_ret, push_length.
Qed.

Lemma cheerio_crawl_item_adds_one w source fullContent acc link :
  yields (fun r => (List.length r <= S (List.length acc))%nat)
         (CheerioCrawler.crawl_item w source fullContent acc link).
Proof.
  unfold CheerioCrawler.crawl_item.
  apply yields_try_catch; [| intros; apply yields_ret; lia].
  apply yields_bind; intros doc. apply yields_bind; intros o.
  apply yields_ret, push_length.
Qed.

Lemma selenium_crawl_item_adds_one w source fullContent acc link :
  yields (fun r => (List.length r <= S (List.length acc))%nat)
         (SeleniumCrawler.crawl_item w source fullContent acc link).
Proof.
  unfold SeleniumCrawler.crawl_item.
  apply yields_try_catch; [| intros; apply yields_ret; lia].
  apply yields_bind; intros doc. apply yields_bind; intros o.
  apply yields_ret, push_length.
Qed.

Lemma crawler_crawl_within_limit w c source options limit :
  Js.default (Js.get options "limit") (Js.VInt 10) = Js.VInt limit ->
  yields (fun r => Z.of_nat (List.length r) <= Z.max 0 limit)
         (crawler_crawl w c source options).
Proof.
  intros Hl.
  assert (Hp : forall how fullContent,
             yields (fun r => Z.of_nat (List.length r) <= Z.max 0 limit)
                    (PuppeteerCrawler.crawl_page w how source (Js.VInt limit) fullContent)).
  { intros how fullContent. unfold PuppeteerCrawler.crawl_page.
    apply yields_bind; intros doc. apply yields_bind; intros els.
    apply item_loop_within_limit; [apply loop_bound_le |].
    intros acc raw. apply puppeteer_crawl_item_adds_one. }
  destruct c; simpl.
  - unfold PuppeteerCrawler.crawl. cbv zeta. rewrite Hl.
    destruct (Pool.getOrCreatePage w "puppeteer" Pool.empty) as [[page | e] pool];
      [| apply yields_throw].
    apply yields_finally, yields_try_catch; [apply Hp | intros; apply yields_throw].
  - unfold CheerioCrawler.crawl. cbv zeta. rewrite Hl.
    apply yields_try_catch; [| intros; apply yields_throw].
    apply yields_bind; intros doc. apply yields_bind; intros els.
    apply yields_bind; intros links.
    apply item_loop_within_limit; [apply loop_bound_le |].
    intros acc link. apply cheerio_crawl_item_adds_one.
  - unfold PlaywrightCrawler.crawl. cbv zeta. rewrite Hl.
    apply yields_try_catch; [| intros; apply yields_throw].
    apply yields_bind; intros _. apply Hp.
  - unfold SeleniumCrawler.crawl. cbv zeta. rewrite Hl.
    apply yields_try_catch; [| intros; apply yields_throw].
    apply yields_bind; intros _.
    apply yields_bind; intros doc. apply yields_bind; intros els.
    apply yields_bind; intros links.
    apply item_loop_within_limit; [apply loop_bound_le |].
    intros acc link. apply selenium_crawl_item_adds_one.
  - unfold SeleniumCrawler.crawl. cbv zeta. rewrite Hl.
    apply yields_try_catch; [| intros; apply yields_throw].
    apply yields_bind; intros _.
    apply yields_bind; intros doc. apply yields_bind; intros els.
    apply yields_bind; intros links.
    apply item_loop_within_limit; [apply loop_bound_le |].
    intros acc link. apply selenium_crawl_item_adds_one.
Qed.

(** ** Titles *)

Lemma truthy_text_nonempty (t : string) : Js.truthy (Js.VStr t) = true -> t <> "".
Proof.
  simpl. intros H E. subst t. discriminate H.
Qed.

Lemma push_titled articles o :
  Forall titled articles -> titled_item o ->
  Forall titled (PuppeteerCrawler.push articles o).
Proof.
  intros H Ho. destruct o as [a |]; simpl; [| exact H].
  apply Forall_app. split; [exact H |]. constructor; [| constructor].
  apply Ho. reflexivity.
Qed.

Lemma puppeteer_extract_item_titled doc source fullContent link :
  yields titled_item (PuppeteerCrawler.extract_item doc source fullContent link).
Proof.
  unfold PuppeteerCrawler.extract_item.
  apply yields_bind; intros [t c].
  destruct (Js.truthy (Js.VStr t)) eqn:E; apply yields_ret.
  - intros a Ha. injection Ha as <-. apply truthy_text_nonempty, E.
  - intros a Ha. discriminate Ha.
Qed.

Lemma cheerio_extract_item_titled doc source fullContent link :
  yields titled_item (CheerioCrawler.extract_item doc source fullContent link).
Proof.
  unfold CheerioCrawler.extract_item.
  apply yields_bind; intros titleEls. apply yields_bind; intros c.
  match goal with |- context [Js.truthy (Js.VStr ?t)] =>
    destruct (Js.truthy (Js.VStr t)) eqn:E end; apply yields_ret.
  - intros a Ha. injection Ha as <-. apply truthy_text_nonempty, E.
  - intros a Ha. discriminate Ha.
Qed.

Lemma puppeteer_crawl_page_titled w how source limit fullContent :
  yields (Forall titled) (PuppeteerCrawler.crawl_page w how source limit fullContent).
Proof.
  unfold PuppeteerCrawler.crawl_page.
  apply yields_bind; intros doc. apply yields_bind; intros els.
  apply yields_foldM; [| constructor].
  intros acc raw Hacc. unfold PuppeteerCrawler.crawl_item.
  apply yields_bind; intros link.
  apply yields_try_catch; [| intros; apply yields_ret, Hacc].
  apply yields_bind; intros doc'.
  eapply yields_bind_with; [apply puppeteer_extract_item_titled |].
  intros o Ho. apply yields_ret, push_titled; assumption.
Qed.

Lemma browser_and_static_crawl_titled w c source options :
  c <> Selenium -> c <> WebDriver ->
  yields (Forall titled) (crawler_crawl w c source options).
Proof.
  intros H1 H2. destruct c; simpl; try contradiction.
  - unfold PuppeteerCrawler.crawl.
    destruct (Pool.getOrCreatePage w "puppeteer" Pool.empty) as [[page | e] pool].
    + apply yields_finally, yields_try_catch;
        [apply puppeteer_crawl_page_titled | intros; apply yields_throw].
    + apply yields_throw.
  - unfold CheerioCrawler.crawl.
    apply yields_try_catch; [| intros; apply yields_throw].
    apply yields_bind; intros doc. apply yields_bind; intros els.
    apply yields_bind; intros links.
    apply yields_foldM; [| constructor].
    intros acc link Hacc. unfold CheerioCrawler.crawl_item.
    apply yields_try_catch; [| intros; apply yields_ret, Hacc].
    apply yields_bind; intros doc'.
    eapply yields_bind_with; [apply cheerio_extract_item_titled |].
    intros o Ho. apply yields_ret, push_titled; assumption.
  - unfold PlaywrightCrawler.crawl.
    apply yields_try_catch; [| intros; apply yields_throw].
    apply yields_bind; intros _. apply puppeteer_crawl_page_titled.
Qed.

(** X5. With an integer [limit] (10 when the key is absent), the [crawl]
    of a back-end that returns gives at most [limit] articles, and none
    when [limit] is 0 or negative.  From the Puppeteer, Cheerio and
    Playwright back-ends every article returned has a title that is not
    empty; the Selenium back-end tests the title before it trims it and
    gives no such guarantee. *)
Theorem backend_returns_at_most_limit_articles :
  forall (w : Web.t) (c : crawler) (source : Db.source_row) (options : Js.value)
         (limit : Z) (s : World) (articles : list article),
    Js.default (Js.get options "limit") (Js.VInt 10) = Js.VInt limit ->
    fst (crawler_crawl w c source options s) = Returned articles ->
    Z.of_nat (List.length articles) <= Z.max 0 limit
    /\ (c <> Selenium -> c <> WebDriver -> Forall (fun a => title a <> "") articles).
Proof.
  intros w c source options limit s articles Hl E. split.
  - apply (crawler_crawl_within_limit w c source options limit Hl s articles E).
  - intros H1 H2.
    apply (browser_and_static_crawl_titled w c source options H1 H2 s articles E).
Qed.

Lemma backend_returns_at_most_limit_articles_witness :
  exists articles,
    fst (crawler_crawl (Fixture.site []) Cheerio Fixture.static_source
           (Js.VObject [("limit", Js.VInt 2)]) Fixture.world) = Returned articles
    /\ Z.of_nat (List.length articles) <= 2.
Proof.
  eexists. split; [vm_compute; reflexivity |].
  refine (proj1 (backend_returns_at_most_limit_articles (Fixture.site []) Cheerio
                   Fixture.static_source (Js.VObject [("limit", Js.VInt 2)]) 2
                   Fixture.world _ eq_refl _)).
  vm_compute. reflexivity.
Defined.

(** ** One item that fails; the pool in sequential use *)

(** X6. The turn of the loop for one link.  In the Cheerio and Selenium
    back-ends it never throws: it returns the list of articles it was
    given, with the article of the link pushed or not, and returns the
    list as it was when the page of the link cannot be loaded.  In the
    Puppeteer and Playwright back-ends the same holds once the href is
    normalised; but [normalizeUrl] is called outside the [try] of the
    item, so that an href it cannot resolve makes the turn throw, and
    the loop with it: the links that follow are not visited. *)
Theorem a_failed_item_leaves_the_crawl_running :
  forall (w : Web.t) (source : Db.source_row) (fullContent : Js.value)
         (articles : list article) (s : World),
    (forall how raw,
       (forall link,
          BaseCrawler.normalizeUrl w raw (Db.base_url source) = Returned link ->
          (exists o,
             fst (PuppeteerCrawler.crawl_item w how source fullContent articles raw s)
             = Returned (PuppeteerCrawler.push articles o))
          /\ (forall e,
                Web.navigate w how link = Threw e ->
                fst (PuppeteerCrawler.crawl_item w how source fullContent articles raw s)
                = Returned articles))
       /\ (forall e rest,
             BaseCrawler.normalizeUrl w raw (Db.base_url source) = Threw e ->
             PuppeteerCrawler.crawl_item w how source fullContent articles raw s
             = (Threw e, s)
             /\ foldM (PuppeteerCrawler.crawl_item w how source fullContent)
                      (raw :: rest) articles s
                = (Threw e, s)))
    /\ (forall link,
          (exists o,
             fst (CheerioCrawler.crawl_item w source fullContent articles link s)
             = Returned (PuppeteerCrawler.push articles o))
          /\ (forall e,
                Web.navigate w "axios" link = Threw e ->
                fst (CheerioCrawler.crawl_item w source fullContent articles link s)
                = Returned articles))
    /\ (forall link,
          (exists o,
             fst (SeleniumCrawler.crawl_item w source fullContent articles link s)
             = Returned (PuppeteerCrawler.push articles o))
          /\ (forall e,
                Web.navigate w "webdriver" link = Threw e ->
                fst (SeleniumCrawler.crawl_item w source fullContent articles link s)
                = Returned articles)).
Proof.
  intros w source fullContent articles s. split; [| split].
  - intros how raw. split.
    + intros link Hn. split.
      * apply (crawl_item_returns w how source fullContent articles raw link s Hn).
      * intros e He.
        rewrite (crawl_item_skips_a_failed_navigation w how source fullContent
                   articles raw link e s Hn He). reflexivity.
    + intros e rest Hn.
      assert (H : PuppeteerCrawler.crawl_item w how source fullContent articles raw s
                  = (Threw e, s)).
      { unfold PuppeteerCrawler.crawl_item, bind, lift. rewrite Hn. reflexivity. }
      split; [exact H |]. cbn [foldM]. unfold bind at 1. rewrite H. reflexivity.
  - intros link. split.
    + unfold CheerioCrawler.crawl_item, bind, try_catch.
      destruct (goto w "axios" link s) as [[doc | e] s1]; cbv beta iota;
        [| exists None; reflexivity].
      destruct (CheerioCrawler.extract_item doc source fullContent link s1)
        as [[o | e] s2]; cbv beta iota; [exists o | exists None]; reflexivity.
    + intros e He. unfold CheerioCrawler.crawl_item, bind, try_catch, goto, emit, lift.
      simpl. rewrite He. reflexivity.
  - intros link. split.
    + unfold SeleniumCrawler.crawl_item, bind, try_catch.
      destruct (goto w "webdriver" link s) as [[doc | e] s1]; cbv beta iota;
        [| exists None; reflexivity].
      destruct (SeleniumCrawler.extract_item doc source fullContent link s1)
        as [[o | e] s2]; cbv beta iota; [exists o | exists None]; reflexivity.
    + intros e He. unfold SeleniumCrawler.crawl_item, bind, try_catch, goto, emit, lift.
      simpl. rewrite He. reflexivity.
Qed.

(** X7. When no two releases interleave, that is when every call of
    [releasePage] runs to its end before the next call on the pool, a
    pool of idle pages that starts within [maxConcurrentPages] stays
    within it, whatever the acquisitions and releases, and no reset is
    left pending. *)
Theorem pool_stays_within_the_cap_when_releases_run_to_their_end :
  forall (w : Web.t) (kind : string) (acts : list Pool.action) (s : Pool.async_state),
    Pool.sequential acts ->
    Pool.resetting s = [] ->
    (List.length (Pool.pagePool (Pool.pool s)) <= Pool.maxConcurrentPages)%nat ->
    Pool.resetting (Pool.run w kind acts s) = []
    /\ (List.length (Pool.pagePool (Pool.pool (Pool.run w kind acts s)))
        <= Pool.maxConcurrentPages)%nat.
Proof.
  intros w kind acts s Hseq Hr Hc.
  apply (sequential_use_keeps_the_cap w kind (List.length acts) acts s);
    [apply Nat.le_refl | exact Hseq | exact Hr | exact Hc].
Qed.

Lemma pool_stays_within_the_cap_when_releases_run_to_their_end_witness :
  (List.length
     (Pool.pagePool
        (Pool.pool
           (Pool.run (Fixture.site []) "universal"
              (repeat Pool.Acquire 6
               ++ flat_map (fun p => [Pool.ReleaseCall p; Pool.ResetSettled p])
                           [0; 1; 2; 3; 4; 5]%nat)%list
              (Pool.mkAsync Pool.empty []))))
   <= Pool.maxConcurrentPages)%nat.
Proof.
  refine (proj2 (pool_stays_within_the_cap_when_releases_run_to_their_end
                   (Fixture.site []) "universal" _ (Pool.mkAsync Pool.empty []) _ _ _)).
  - simpl. repeat split.
  - reflexivity.
  - simpl. apply Nat.le_0_l.
Defined.

(** X8. A page released into a pool that has room, and whose reset to
    the blank page succeeds, is the page the next [getOrCreatePage]
    hands out, and the pool is then as it was before the release: no
    page is created and none is closed. *)
Theorem a_released_page_is_the_next_one_handed_out :
  forall (w : Web.t) (kind : string) (page : nat) (p : Pool.t),
    (List.length (Pool.pagePool p) < Pool.maxConcurrentPages)%nat ->
    Web.reset_throws w page = false ->
    Pool.getOrCreatePage w kind (Pool.releasePage w page p) = (Returned page, p).
Proof.
  intros w kind page [idle closed created] Hlen Hreset.
  unfold Pool.releasePage, Pool.getOrCreatePage. cbn [Pool.pagePool Pool.closed Pool.created] in *.
  apply Nat.ltb_lt in Hlen. rewrite Hlen, Hreset.
  cbn [Pool.pagePool Pool.closed Pool.created].
  rewrite length_app. simpl List.length.
  replace (0 <? List.length idle + 1)%nat with true
    by (symmetry; apply Nat.ltb_lt; lia).
  rewrite last_last, removelast_last. reflexivity.
Qed.

Lemma a_released_page_is_the_next_one_handed_out_witness :
  Pool.getOrCreatePage (Fixture.site []) "universal"
    (Pool.releasePage (Fixture.site []) 7 (Pool.mkPool [3; 4]%nat [] 8))
  = (Returned 7%nat, Pool.mkPool [3; 4]%nat [] 8).
Proof.
  apply (a_released_page_is_the_next_one_handed_out (Fixture.site []) "universal" 7
           (Pool.mkPool [3; 4]%nat [] 8)).
  - unfold Pool.maxConcurrentPages. simpl. lia.
  - reflexivity.
Defined.

(** ** [saveArticle]: storing and finding again *)

Lemma find_app_none {A : Type} (f : A -> bool) (l : list A) (x : A) :
  find f l = None -> f x = true -> find f (l ++ [x]) = Some x.
Proof.
  induction l as [| y rest IH]; simpl; intros Hn Hx.
  - rewrite Hx. reflexivity.
  - destruct (f y); [discriminate | apply IH; assumption].
Qed.

(** X9. With a driver that answers, saving an article whose fingerprint
    and link are in no row adds exactly one row, with the title, link,
    content and fingerprint of the article, its depth or 0, and an id
    above every id of the table, and returns that id with
    [isNew: true].  Saving then any article of the same title and link,
    for any source and with any content, returns the same id with
    [isNew: false] and leaves the table as it is. *)
Theorem saveArticle_stores_once_and_then_finds :
  forall (sourceId : Z) (a : article) (s : World),
    Db.fault_free (db s) ->
    (forall r, In r (Db.articles (db s)) ->
               Db.a_hash r <> UniversalCrawler.generateHash (title a) (link a)
               /\ Db.a_link r <> link a) ->
    let first := UniversalCrawler.saveArticle sourceId a s in
    exists row_id,
      fst first = Returned (UniversalCrawler.mkSaved (Js.VInt row_id) true)
      /\ Db.articles (db (snd first))
         = (Db.articles (db s)
              ++ [Db.mkArticleRow row_id sourceId (title a) (link a) (content a)
                    (UniversalCrawler.generateHash (title a) (link a))
                    (match depth a with Some d => d | None => 0 end)])%list
      /\ (forall r, In r (Db.articles (db s)) -> Db.a_id r < row_id)
      /\ forall (sourceId' : Z) (a' : article),
           title a' = title a -> link a' = link a ->
           let second := UniversalCrawler.saveArticle sourceId' a' (snd first) in
           fst second = Returned (UniversalCrawler.mkSaved (Js.VInt row_id) false)
           /\ Db.articles (db (snd second)) = Db.articles (db (snd first)).
Proof.
  intros sourceId a s FF Hnone. cbv zeta. exists (Db.next_id (db s)).
  apply find_matches_none in Hnone. destruct Hnone as [Hfind _].
  unfold UniversalCrawler.generateHash in *.
  rewrite (saveArticle_fresh sourceId a s (FF _) (FF _) Hfind). cbn [fst snd].
  split; [reflexivity |]. split; [reflexivity |]. split.
  - intros r Hr. unfold Db.next_id.
    assert (H : forall l, In r l -> Db.a_id r <= fold_right Z.max 0 (map Db.a_id l)).
    { induction l as [| x rest IH]; simpl; [contradiction |].
      intros [E | Hin]; [subst x; lia | specialize (IH Hin); lia]. }
    specialize (H _ Hr). lia.
  - intros sourceId' a' Ht Hl.
    rewrite (saveArticle_existing sourceId' a' _
               (row_of (Db.next_id (db s)) sourceId a)).
    + cbn [fst snd]. split; [reflexivity |].
      apply (proj1 (ticked_keeps_the_tables 1 _)).
    + apply FF.
    + cbn [db Db.articles Db.with_articles]. rewrite Ht, Hl.
      apply find_app_none; [exact Hfind |].
      unfold Db.matches, row_of. cbn [Db.a_hash Db.a_link].
      rewrite !String.eqb_refl. reflexivity.
Qed.

Lemma saveArticle_stores_once_and_then_finds_witness :
  exists row_id,
    fst (UniversalCrawler.saveArticle 1 (Fixture.story "1" "Headline one") Fixture.world)
    = Returned (UniversalCrawler.mkSaved (Js.VInt row_id) true)
    /\ fst (UniversalCrawler.saveArticle 2
              (mkArticle "Headline one" "https://news.test/news/1" "Other text"
                         None (Some 3))
              (snd (UniversalCrawler.saveArticle 1 (Fixture.story "1" "Headline one")
                      Fixture.world)))
       = Returned (UniversalCrawler.mkSaved (Js.VInt row_id) false).
Proof.
  destruct (saveArticle_stores_once_and_then_finds 1 (Fixture.story "1" "Headline one")
              Fixture.world (fun n => eq_refl) (fun r (H : In r []) => match H with end))
    as (row_id & H1 & _ & _ & H2).
  exists row_id. split; [exact H1 |].
  apply (proj1 (H2 2 (mkArticle "Headline one" "https://news.test/news/1" "Other text"
                        None (Some 3)) eq_refl eq_refl)).
Defined.

(** X10. A storage error that is not a unique-constraint violation is
    not swallowed by [saveArticle]: when the lookup fails with it, or
    when the lookup finds no row and the insert fails with it,
    [saveArticle] throws the same message, and the tables are as
    before. *)
Theorem saveArticle_rethrows_other_storage_errors :
  forall (sourceId : Z) (a : article) (s : World) (message : string),
    UniversalCrawler.is_unique_violation message = false ->
    (Db.fault (db s) (Db.calls (db s)) = Some message ->
     UniversalCrawler.saveArticle sourceId a s = (Threw message, ticked 1 s))
    /\ (Db.fault (db s) (Db.calls (db s)) = None ->
        (forall r, In r (Db.articles (db s)) ->
                   Db.a_hash r <> UniversalCrawler.generateHash (title a) (link a)
                   /\ Db.a_link r <> link a) ->
        Db.fault (db s) (S (Db.calls (db s))) = Some message ->
        UniversalCrawler.saveArticle sourceId a s = (Threw message, ticked 2 s)).
Proof.
  intros sourceId a s message U. split.
  - intros F.
    unfold UniversalCrawler.saveArticle, UniversalCrawler.generateHash, try_catch, bind,
      query, Db.select_article, Db.statement.
    rewrite F. simpl. rewrite U. reflexivity.
  - intros F1 Hnone F2. apply find_matches_none in Hnone. destruct Hnone as [E _].
    unfold UniversalCrawler.saveArticle, UniversalCrawler.generateHash, try_catch, bind,
      query, Db.select_article, Db.insert_or_ignore_article, Db.statement in *.
    rewrite F1. simpl. rewrite E. simpl. rewrite F2. simpl. rewrite U. reflexivity.
Qed.

Lemma saveArticle_rethrows_other_storage_errors_witness :
  UniversalCrawler.saveArticle 1 (Fixture.story "1" "Headline one")
    (mkWorld (Db.mkDb [] [] [] [] [] 0 (fun _ => Some "SQLITE_BUSY: database is locked"))
             Pool.empty [])
  = (Threw "SQLITE_BUSY: database is locked",
     ticked 1 (mkWorld (Db.mkDb [] [] [] [] [] 0
                          (fun _ => Some "SQLITE_BUSY: database is locked"))
                       Pool.empty [])).
Proof.
  apply (proj1 (saveArticle_rethrows_other_storage_errors 1 (Fixture.story "1" "Headline one")
                  (mkWorld (Db.mkDb [] [] [] [] [] 0
                              (fun _ => Some "SQLITE_BUSY: database is locked"))
                           Pool.empty [])
                  "SQLITE_BUSY: database is locked" eq_refl)).
  reflexivity.
Defined.

(** X11. With valid options that are not [null] and an id that is an
    integer of at most 2^53 in absolute value, when the lookup of the
    source is answered and the table has no active source of that id,
    [crawlSource] answers [{success: false, error, source, duration}]
    with the message that the source of that id was not found; no page
    is fetched, and no row is added to the articles or to the
    history. *)
Theorem crawlSource_of_a_missing_source_fails_without_fetching :
  forall (w : Web.t) (sourceId : Z) (options : Js.value) (s : World),
    options <> Js.VNull ->
    Z.abs sourceId <= 2 ^ 53 ->
    UniversalCrawler.isValid (UniversalCrawler.validateCrawlOptions options) = true ->
    Db.fault (db s) (Db.calls (db s)) = None ->
    (forall source, In source (Db.news_sources (db s)) ->
                    Db.s_id source = sourceId -> Db.s_active source = false) ->
    let run := UniversalCrawler.crawlSource w sourceId options s in
    fst run
    = Returned
        (Js.VObject
           [("success", Js.VBool false);
            ("error",
             Js.VStr ("منبع خبری با شناسه " ++ Js.string_of_Z sourceId ++ " یافت نشد"));
            ("source", Js.VInt sourceId);
            ("duration", Js.VInt (Web.elapsed w))])
    /\ log (snd run) = log s
    /\ Db.articles (db (snd run)) = Db.articles (db s)
    /\ Db.crawl_history (db (snd run)) = Db.crawl_history (db s).
Proof.
  intros w sourceId options s _ _ V F Hnone. cbv zeta.
  assert (E : find (fun x => (Db.s_id x =? sourceId) && Db.s_active x)
                   (Db.news_sources (db s)) = None).
  { destruct (find _ (Db.news_sources (db s))) as [source |] eqn:E; [| reflexivity].
    apply find_some in E. destruct E as [Hin Hm].
    apply andb_true_iff in Hm. destruct Hm as [Hid Hact].
    apply Z.eqb_eq in Hid. rewrite (Hnone source Hin Hid) in Hact. discriminate. }
  unfold UniversalCrawler.crawlSource. cbv zeta. rewrite V. cbn [negb].
  unfold UniversalCrawler.getSource, Db.select_source, UniversalCrawler.report_failure,
    UniversalCrawler.logCrawlOperation, Db.insert_log, try_catch, bind, query,
    Db.statement, throw, ret.
  rewrite F. cbn [fst snd db upool log Db.tick Db.news_sources]. rewrite E.
  cbn [db Db.fault Db.calls Db.tick].
  destruct (Db.fault (db s) (S (Db.calls (db s)))); cbn [fst snd db log Db.articles
    Db.crawl_history Db.tick Db.with_logs]; repeat split.
Qed.

Lemma crawlSource_of_a_missing_source_fails_without_fetching_witness :
  log (snd (UniversalCrawler.crawlSource (Fixture.site []) 9 (Js.VObject [])
              Fixture.world)) = [].
Proof.
  refine (proj1 (proj2 (crawlSource_of_a_missing_source_fails_without_fetching
                          (Fixture.site []) 9 (Js.VObject []) Fixture.world
                          _ _ eq_refl eq_refl _))).
  - discriminate.
  - vm_compute. discriminate.
  - intros source [H | [H | []]] Hid; subst source; discriminate Hid.
Defined.

(** ** The counts of a run *)

(** With a driver that answers, the loop that stores the crawled
    articles counts one new article for each row it adds. *)
Lemma save_loop_counts sourceId articles :
  forall n new s,
    Db.fault_free (db s) ->
    exists n' new' s' rows,
      foldM (UniversalCrawler.save_step sourceId) articles (n, new) s
      = (Returned (n', new'), s')
      /\ Db.articles (db s') = (Db.articles (db s) ++ rows)%list
      /\ n' = n + Z.of_nat (List.length rows)
      /\ List.length new' = (List.length new + List.length rows)%nat
      /\ (List.length rows <= List.length articles)%nat
      /\ Db.fault (db s') = Db.fault (db s)
      /\ Db.crawl_history (db s') = Db.crawl_history (db s).
Proof.
  induction articles as [| a rest IH]; intros n new s FF; simpl.
  - exists n, new, s, []. rewrite app_nil_r. simpl. repeat split; lia.
  - unfold UniversalCrawler.save_step at 1.
    destruct (find (Db.matches (MD5.hexdigest (title a ++ link a)) (link a))
                   (Db.articles (db s))) as [r |] eqn:E.
    + erewrite run_bind;
        [| erewrite run_bind; [| apply saveArticle_existing; [apply FF | exact E]];
           reflexivity].
      destruct (IH n new (ticked 1 s) FF)
        as (n' & new' & s' & rows & Hrun & Ha & Hn & Hl & Hle & Hf & Hh).
      exists n', new', s', rows. split; [exact Hrun |].
      repeat split; try assumption. simpl. lia.
    + erewrite run_bind;
        [| erewrite run_bind;
             [| apply saveArticle_fresh; [apply FF | apply FF | exact E]];
           reflexivity].
      cbn [fst snd UniversalCrawler.isNew].
      match goal with
      | |- context [foldM _ rest ?acc1 ?s1] =>
          destruct (IH (fst acc1) (snd acc1) s1)
            as (n' & new' & s' & rows & Hrun & Ha & Hn & Hl & Hle & Hf & Hh);
            [exact FF |]
      end.
      cbn [fst snd] in Hrun.
      exists n', new', s', (row_of (Db.next_id (db s)) sourceId a :: rows).
      split; [exact Hrun |].
      cbn [db Db.articles Db.with_articles Db.fault Db.crawl_history Db.tick] in *.
      rewrite Ha, <- app_assoc. cbn [app List.length].
      cbn [fst snd] in Hl, Hn. rewrite length_app in Hl. cbn [List.length] in Hl.
      repeat split; try assumption; lia.
Qed.

Lemma get_success_false_is_not_true (result : Js.value) :
  Js.get result "success" = Js.VBool false -> Js.get result "success" <> Js.VBool true.
Proof. intros H. rewrite H. discriminate. Qed.

Lemma crawlSource_counts w sourceId options s result s' :
  Db.fault_free (db s) ->
  UniversalCrawler.crawlSource w sourceId options s = (Returned result, s') ->
  Js.get result "success" = Js.VBool true ->
  exists (source : Db.source_row) (articles : list article) (rows : list Db.article_row),
    find (fun x => (Db.s_id x =? sourceId) && Db.s_active x) (Db.news_sources (db s))
    = Some source
    /\ fst (crawler_crawl w (createCrawler source) source
              (Js.VObject
                 [("limit", Js.default (Js.get options "limit") (Js.VInt 10));
                  ("fullContent",
                   Js.default (Js.get options "fullContent") (Js.VBool true))]) s)
       = Returned articles
    /\ Db.articles (db s') = (Db.articles (db s) ++ rows)%list
    /\ Js.get result "newArticles" = Js.VInt (Z.of_nat (List.length rows))
    /\ Js.get result "totalArticles" = Js.VInt (Z.of_nat (List.length rows))
    /\ (List.length rows <= List.length articles)%nat
    /\ Db.crawl_history (db s')
       = (Db.crawl_history (db s)
            ++ [Db.mkHistoryRow sourceId (Z.of_nat (List.length articles))
                  (Z.of_nat (List.length articles))
                  (Z.of_nat (List.length rows))
                  (Js.default (Js.get options "crawlDepth") (Js.VInt 0))
                  (Web.elapsed w * 1000)])%list.
Proof.
  intros FF.
  unfold UniversalCrawler.crawlSource. cbv zeta.
  destruct (UniversalCrawler.isValid (UniversalCrawler.validateCrawlOptions options));
    cbn [negb]; [| intros E; injection E as <- <-; discriminate].
  unfold UniversalCrawler.getSource, Db.select_source.
  destruct (find (fun x => (Db.s_id x =? sourceId) && Db.s_active x)
                 (Db.news_sources (db s))) as [source |] eqn:Efind.
  - erewrite run_try_bind; [| apply query_answers, FF].
    cbn [fst snd Db.tick Db.news_sources]. rewrite Efind.
    unfold UniversalCrawler.logCrawlOperation at 1. unfold Db.insert_log.
    erewrite run_try_bind; [| apply query_answers; exact FF].
    erewrite run_try_bind; [| reflexivity].
    cbn [fst snd].
    match goal with
    | |- context [try_catch (try_catch _ _) _ ?w3] => set (s3 := w3)
    end.
    assert (FF3 : Db.fault_free (db s3)) by exact FF.
    unfold UniversalCrawler.crawl_and_store.
    match goal with
    | |- context [crawler_crawl w _ source ?o] => set (opts := o)
    end.
    pose proof (crawler_crawl_fetches w (createCrawler source) source opts s3)
      as (Hdb & _).
    destruct (crawler_crawl w (createCrawler source) source opts s3)
      as [[articles | e] s4] eqn:Ecrawl; cbn [snd] in Hdb.
    + assert (FF4 : Db.fault_free (db s4)) by (rewrite Hdb; exact FF3).
      destruct (save_loop_counts sourceId articles 0 [] s4 FF4)
        as (n' & new' & s5 & rows & Hsave & Ha & Hn & Hl & Hle & Hf & Hh).
      assert (FF5 : Db.fault_free (db s5)) by (intros k; rewrite Hf; apply FF4).
      unfold UniversalCrawler.save_all, UniversalCrawler.logCrawlOperation,
        UniversalCrawler.logCrawlHistory, Db.insert_log, Db.insert_history.
      erewrite run_try; [| erewrite run_try; [reflexivity |];
        erewrite run_bind; [| exact Ecrawl];
        erewrite run_bind; [| exact Hsave]; cbv beta iota zeta;
        erewrite run_bind; [| apply query_answers, FF5];
        erewrite run_bind; [| apply query_answers; intros k; apply FF5];
        reflexivity].
      cbn [fst snd]. intros E _. injection E as <- <-.
      exists source, articles, rows.
      split; [reflexivity |].
      split; [rewrite (crawler_crawl_blind w (createCrawler source) source opts s s3),
                Ecrawl; reflexivity |].
      cbn [Js.get Js.assoc String.eqb Ascii.eqb Bool.eqb fst snd db
           Db.articles Db.crawl_history Db.with_history Db.with_logs Db.tick].
      rewrite Ha, Hh, Hdb. subst s3.
      cbn [db Db.articles Db.crawl_history Db.with_logs Db.tick].
      simpl in Hl. rewrite Hl, Hn.
      repeat split; try reflexivity; try assumption.
    + erewrite run_catch; [| erewrite run_catch; [reflexivity |];
        erewrite run_bind_throw; [reflexivity | exact Ecrawl]].
      unfold throw. intros E Hs. exfalso. revert E Hs.
      unfold UniversalCrawler.report_failure. cbv zeta.
      unfold bind, try_catch.
      destruct (UniversalCrawler.logCrawlOperation _ _ _ _ _ _ _ _) as [[[] | e'] s6];
        intros E; injection E as <- <-; discriminate.
  - erewrite run_catch;
      [| erewrite run_bind; [| apply query_answers, FF];
         cbn [fst snd Db.tick Db.news_sources]; rewrite Efind; reflexivity].
    unfold UniversalCrawler.report_failure. cbv zeta. unfold bind, try_catch.
    destruct (UniversalCrawler.logCrawlOperation _ _ _ _ _ _ _ _) as [[[] | e'] s6];
      intros E; injection E as <- <-; discriminate.
Qed.

(** X12. With a driver that answers and options that are not [null], a
    run of [crawlSource] that reports success found its source in the
    table, and its back-end returned a list of articles, the one it
    returns for that source with the limit and the full-content flag of
    the options.  The run has added to the table of articles as many
    rows as it reports under [newArticles], and under
    [totalArticles], at most one for each article returned; and it has
    added one row to the history, which carries the number of articles
    returned as found and as processed, the number of rows added as
    new, the [crawlDepth] of the options and the duration. *)
Theorem crawlSource_counts_the_rows_it_stores :
  forall (w : Web.t) (sourceId : Z) (options : Js.value) (s : World) (result : Js.value),
    options <> Js.VNull ->
    Db.fault_free (db s) ->
    let run := UniversalCrawler.crawlSource w sourceId options s in
    fst run = Returned result ->
    Js.get result "success" = Js.VBool true ->
    exists (source : Db.source_row) (articles : list article)
           (rows : list Db.article_row),
      find (fun x => (Db.s_id x =? sourceId) && Db.s_active x) (Db.news_sources (db s))
      = Some source
      /\ fst (crawler_crawl w (createCrawler source) source
                (Js.VObject
                   [("limit", Js.default (Js.get options "limit") (Js.VInt 10));
                    ("fullContent",
                     Js.default (Js.get options "fullContent") (Js.VBool true))]) s)
         = Returned articles
      /\ Db.articles (db (snd run)) = (Db.articles (db s) ++ rows)%list
      /\ Js.get result "newArticles" = Js.VInt (Z.of_nat (List.length rows))
      /\ Js.get result "totalArticles" = Js.VInt (Z.of_nat (List.length rows))
      /\ (List.length rows <= List.length articles)%nat
      /\ Db.crawl_history (db (snd run))
         = (Db.crawl_history (db s)
              ++ [Db.mkHistoryRow sourceId (Z.of_nat (List.length articles))
                    (Z.of_nat (List.length articles))
                    (Z.of_nat (List.length rows))
                    (Js.default (Js.get options "crawlDepth") (Js.VInt 0))
                    (Web.elapsed w * 1000)])%list.
Proof.
  intros w sourceId options s result _ FF. cbv zeta.
  destruct (UniversalCrawler.crawlSource w sourceId options s) as [r s'] eqn:E.
  cbn [fst snd]. intros Hr. subst r.
  apply (crawlSource_counts w sourceId options s result s' FF E).
Qed.

Lemma crawlSource_counts_the_rows_it_stores_witness :
  exists articles rows,
    fst (crawler_crawl (Fixture.site ["https://news.test/news/3"]) Puppeteer
           Fixture.source
           (Js.VObject [("limit", Js.VInt 5); ("fullContent", Js.VBool true)])
           Fixture.world) = Returned articles
    /\ Db.articles
         (db (snd (UniversalCrawler.crawlSource (Fixture.site ["https://news.test/news/3"]) 1
                     (Js.VObject [("limit", Js.VInt 5)]) Fixture.world)))
       = rows
    /\ (List.length rows <= List.length articles)%nat
    /\ Db.crawl_history
         (db (snd (UniversalCrawler.crawlSource (Fixture.site ["https://news.test/news/3"]) 1
                     (Js.VObject [("limit", Js.VInt 5)]) Fixture.world)))
       = [Db.mkHistoryRow 1 (Z.of_nat (List.length articles))
            (Z.of_nat (List.length articles))
            (Z.of_nat (List.length rows)) (Js.VInt 0) 7000].
Proof.
  assert (E : exists result,
             fst (UniversalCrawler.crawlSource (Fixture.site ["https://news.test/news/3"]) 1
                    (Js.VObject [("limit", Js.VInt 5)]) Fixture.world) = Returned result
             /\ Js.get result "success" = Js.VBool true)
    by (vm_compute; eexists; split; reflexivity).
  destruct E as (result & E1 & E2).
  destruct (crawlSource_counts_the_rows_it_stores
              (Fixture.site ["https://news.test/news/3"]) 1
              (Js.VObject [("limit", Js.VInt 5)]) Fixture.world result
              ltac:(discriminate) (fun n => eq_refl) E1 E2)
    as (source & articles & rows & Hs & Hc & Ha & _ & _ & Hle & Hh).
  injection Hs as <-.
  exists articles, rows. split; [exact Hc |]. split; [exact Ha |].
  split; [exact Hle | exact Hh].
Defined.

(** ** [extractArticleContent] as a total function *)

Lemma fetches_nothing s s' : fetches no_event s s' -> s' = s.
Proof.
  intros (Hd & Hp & ev & Hl & Hev).
  destruct ev as [| e rest]; [| inversion Hev; contradiction].
  rewrite app_nil_r in Hl. destruct s, s'. simpl in *. congruence.
Qed.

(** What the page functions of [extractArticleContent] do once the page
    is loaded: they read the document and leave the world alone. *)
Lemma page_functions_read_only w doc url selectors :
  steps (fetches no_event)
    (title <- (if Js.truthy_text (Db.title_selector selectors)
               then UniversalCrawler.evaluate_title doc
                      (Js.to_string (Db.title_selector selectors))
               else ret "") ;;
     content <- (if Js.truthy_text (Db.content_selector selectors)
                 then UniversalCrawler.evaluate_content doc
                        (Js.to_string (Db.content_selector selectors))
                 else ret "") ;;
     origin <- lift (match Web.URL_origin w url with
                     | Some o => Returned o
                     | None => Threw "Invalid URL"
                     end) ;;
     internalLinks <- UniversalCrawler.evaluate_links doc origin
                        (Db.link_selector selectors) ;;
     ret (UniversalCrawler.mkExtracted
            (if Js.truthy (Js.VStr title) then title else UniversalCrawler.untitled)
            content internalLinks)).
Proof.
  unfold UniversalCrawler.evaluate_title, UniversalCrawler.evaluate_content,
    UniversalCrawler.evaluate_links.
  assert (Halt : forall alts,
             steps (fetches no_event) (UniversalCrawler.first_alternative doc alts)).
  { intros alts. induction alts as [| alt rest IH]; simpl.
    - apply steps_ret, fetches_refl.
    - unfold querySelector, querySelectorAll, css_select.
      repeat first [ exact IH | steps_struct ]. }
  repeat first
    [ apply Halt
    | steps_struct
    | progress unfold querySelector, querySelectorAll, css_select ].
Qed.

Lemma untitled_nonempty : UniversalCrawler.untitled <> "".
Proof. discriminate. Qed.

Lemma extraction_failed_nonempty : UniversalCrawler.extraction_failed <> "".
Proof. discriminate. Qed.

Lemma page_functions_title w doc url selectors :
  yields (fun e => UniversalCrawler.e_title e <> ""
                   /\ (List.length (UniversalCrawler.internalLinks e) <= 3)%nat)
    (title <- (if Js.truthy_text (Db.title_selector selectors)
               then UniversalCrawler.evaluate_title doc
                      (Js.to_string (Db.title_selector selectors))
               else ret "") ;;
     content <- (if Js.truthy_text (Db.content_selector selectors)
                 then UniversalCrawler.evaluate_content doc
                        (Js.to_string (Db.content_selector selectors))
                 else ret "") ;;
     origin <- lift (match Web.URL_origin w url with
                     | Some o => Returned o
                     | None => Threw "Invalid URL"
                     end) ;;
     internalLinks <- UniversalCrawler.evaluate_links doc origin
                        (Db.link_selector selectors) ;;
     ret (UniversalCrawler.mkExtracted
            (if Js.truthy (Js.VStr title) then title else UniversalCrawler.untitled)
            content internalLinks)).
Proof.
  apply yields_bind; intros t. apply yields_bind; intros c.
  apply yields_bind; intros origin.
  eapply yields_bind_with with (Q := fun l => (List.length l <= 3)%nat).
  - unfold UniversalCrawler.evaluate_links. apply yields_bind; intros els.
    apply yields_ret. unfold Js.slice0. apply firstn_le_length.
  - intros links H. apply yields_ret. cbn [UniversalCrawler.e_title
      UniversalCrawler.internalLinks]. split; [| exact H].
    destruct (Js.truthy (Js.VStr t)) eqn:E;
      [apply truthy_text_nonempty, E | apply untitled_nonempty].
Qed.

(** The navigation with its second try. *)
Lemma navigation_with_retry w url s :
  let run := try_catch (goto w "domcontentloaded" url) (fun _ => goto w "load" url) s in
  db (snd run) = db s
  /\ upool (snd run) = upool s
  /\ (log (snd run) = (log s ++ [EvGoto "domcontentloaded" url])%list
      \/ log (snd run) = (log s ++ [EvGoto "domcontentloaded" url; EvGoto "load" url])%list).
Proof.
  cbv zeta. unfold try_catch, goto, bind, emit, lift. cbn [fst snd db upool log].
  destruct (Web.navigate w "domcontentloaded" url) as [doc | e1]; cbn [fst snd db upool log].
  - repeat split. left. reflexivity.
  - destruct (Web.navigate w "load" url); cbn [snd db upool log];
      rewrite <- app_assoc; repeat split; right; reflexivity.
Qed.

Lemma extractArticleContent_run w page url selectors options s :
  exists e s',
    UniversalCrawler.extractArticleContent w page url selectors options s = (Returned e, s')
    /\ UniversalCrawler.e_title e <> ""
    /\ (List.length (UniversalCrawler.internalLinks e) <= 3)%nat
    /\ db s' = db s
    /\ upool s' = upool s
    /\ (log s' = (log s ++ [EvGoto "domcontentloaded" url])%list
        \/ log s' = (log s ++ [EvGoto "domcontentloaded" url; EvGoto "load" url])%list).
Proof.
  unfold UniversalCrawler.extractArticleContent.
  pose proof (navigation_with_retry w url s) as Hnav. cbv zeta in Hnav.
  unfold try_catch at 1. unfold bind at 1.
  destruct (try_catch (goto w "domcontentloaded" url) (fun _ => goto w "load" url) s)
    as [[doc | e1] s1]; cbn [snd] in Hnav.
  - pose proof (page_functions_read_only w doc url selectors s1) as Hro.
    pose proof (page_functions_title w doc url selectors s1) as Hti.
    apply fetches_nothing in Hro.
    match goal with
    | |- context [match ?m with _ => _ end] =>
        match m with
        | context [UniversalCrawler.evaluate_links] => destruct m as [[e | err] s2]
        end
    end; cbn [fst snd] in *; subst s2.
    + exists e, s1. split; [reflexivity |].
      destruct (Hti e eq_refl) as [H1 H2]. tauto.
    + eexists. exists s1. split; [reflexivity |].
      cbn [UniversalCrawler.e_title UniversalCrawler.internalLinks].
      split; [apply extraction_failed_nonempty |]. split; [simpl; lia | tauto].
  - eexists. exists s1. split; [reflexivity |].
    cbn [UniversalCrawler.e_title UniversalCrawler.internalLinks].
    split; [apply extraction_failed_nonempty |]. split; [simpl; lia | tauto].
Qed.

(** X13. For options that are not [null], [extractArticleContent] never
    throws.  What it returns has a title that is not empty (the text
    found, or the fixed title of a page without one, or the fixed title
    of a failed extraction) and at most three internal links.  It loads
    the page once, or twice when the first load fails, and does nothing
    else: the database and the page pool are as before.  (At [null] the
    destructuring of the options, which comes before the [try], throws
    a TypeError.) *)
Theorem extractArticleContent_always_returns_a_titled_result :
  forall (w : Web.t) (page : nat) (url : string) (selectors : Db.source_row)
         (options : Js.value) (s : World),
    options <> Js.VNull ->
    let run := UniversalCrawler.extractArticleContent w page url selectors options s in
    (exists e,
       fst run = Returned e
       /\ UniversalCrawler.e_title e <> ""
       /\ (List.length (UniversalCrawler.internalLinks e) <= 3)%nat)
    /\ db (snd run) = db s
    /\ upool (snd run) = upool s
    /\ (log (snd run) = (log s ++ [EvGoto "domcontentloaded" url])%list
        \/ log (snd run)
           = (log s ++ [EvGoto "domcontentloaded" url; EvGoto "load" url])%list).
Proof.
  intros w page url selectors options s _. cbv zeta.
  destruct (extractArticleContent_run w page url selectors options s)
    as (e & s' & E & Ht & Hl & Hd & Hp & Hlog).
  rewrite E. cbn [fst snd]. split; [exists e; repeat split; assumption |].
  repeat split; assumption.
Qed.

Lemma extractArticleContent_always_returns_a_titled_result_witness :
  exists e,
    fst (UniversalCrawler.extractArticleContent (Fixture.site []) 0
           "https://news.test/news/1" Fixture.source
           (Js.VObject [("waitTime", Js.VInt 2000); ("timeout", Js.VInt 60000)])
           Fixture.world) = Returned e
    /\ UniversalCrawler.e_title e <> "".
Proof.
  destruct (extractArticleContent_always_returns_a_titled_result (Fixture.site []) 0
              "https://news.test/news/1" Fixture.source
              (Js.VObject [("waitTime", Js.VInt 2000); ("timeout", Js.VInt 60000)])
              Fixture.world ltac:(discriminate))
    as ((e & E & Ht & _) & _).
  exists e. split; [exact E | exact Ht].
Defined.

(** ** The options of a scheduled run *)

(** X14. The options a cron fire or a manual run builds from a schedule
    row, against the validation of [crawlSource].  With integers in the
    three columns, the run is accepted exactly when [article_limit] is
    0 or within 1..100, [crawl_depth] within 0..5 and [timeout_ms] 0
    or within 30000..900000, a 0 being replaced by the default.  With
    NULL for the limit and the timeout, exactly when [crawl_depth] is
    within 0..5.  A schedule whose [crawl_depth] is NULL is always
    refused: [null] is not [undefined], so the default 0 does not
    apply. *)
Theorem scheduled_options_that_pass_validation :
  forall (row : Db.schedule_row),
    (forall limit depth timeout,
       Db.article_limit row = Js.VInt limit ->
       Db.crawl_depth row = Js.VInt depth ->
       Db.timeout_ms row = Js.VInt timeout ->
       (UniversalCrawler.isValid
          (UniversalCrawler.validateCrawlOptions (Scheduler.crawlOptions row)) = true
        <-> ((limit = 0 \/ 1 <= limit <= 100)
             /\ 0 <= depth <= 5
             /\ (timeout = 0 \/ 30000 <= timeout <= 900000))))
    /\ (forall depth,
          Db.article_limit row = Js.VNull ->
          Db.crawl_depth row = Js.VInt depth ->
          Db.timeout_ms row = Js.VNull ->
          (UniversalCrawler.isValid
             (UniversalCrawler.validateCrawlOptions (Scheduler.crawlOptions row)) = true
           <-> 0 <= depth <= 5))
    /\ (Db.crawl_depth row = Js.VNull ->
        UniversalCrawler.isValid
          (UniversalCrawler.validateCrawlOptions (Scheduler.crawlOptions row)) = false).
Proof.
  intros row. split; [| split].
  - intros limit depth timeout Hl Hd Ht.
    rewrite (proj2 (validate_collects_every_violation _)).
    unfold checks, Scheduler.crawlOptions, Js.or. rewrite Hl, Hd, Ht.
    cbn [Js.get Js.assoc String.eqb Ascii.eqb Bool.eqb Js.default Js.truthy
         Js.strict_neq_undefined forallb violated].
    destruct (Z.eqb_spec limit 0) as [El | El];
      destruct (Z.eqb_spec timeout 0) as [Et | Et];
      cbn [negb Js.default];
      rewrite !andb_true_iff, !negb_true_iff, !rejected_int; lia.
  - intros depth Hl Hd Ht.
    rewrite (proj2 (validate_collects_every_violation _)).
    unfold checks, Scheduler.crawlOptions, Js.or. rewrite Hl, Hd, Ht.
    cbn [Js.get Js.assoc String.eqb Ascii.eqb Bool.eqb Js.default Js.truthy
         Js.strict_neq_undefined forallb violated negb].
    rewrite !andb_true_iff, !negb_true_iff, !rejected_int. lia.
  - intros Hd.
    rewrite (proj2 (validate_collects_every_violation _)).
    unfold checks, Scheduler.crawlOptions. rewrite Hd.
    cbn [Js.get Js.assoc String.eqb Ascii.eqb Bool.eqb Js.default
         Js.strict_neq_undefined forallb violated].
    cbn [UniversalCrawler.rejected Js.is_number negb orb andb].
    rewrite andb_false_r. reflexivity.
Qed.

Lemma scheduled_options_that_pass_validation_witness :
  UniversalCrawler.isValid
    (UniversalCrawler.validateCrawlOptions (Scheduler.crawlOptions Fixture.schedule)) = true.
Proof.
  apply (proj2 (proj1 (scheduled_options_that_pass_validation Fixture.schedule)
                  5 0 60000 eq_refl eq_refl eq_refl)).
  lia.
Defined.

(** ** [calculateNextRun] *)

(** An ordinary moment and those within 3 * 10^10 minutes of it are
    valid dates, in the zone and in UTC. *)
Lemma ordinary_is_in_range offset now m :
  Moment.ordinary offset now ->
  0 <= Moment.minute m <= Moment.minute now + 3 * 10 ^ 10 ->
  0 <= Moment.second m < 60 ->
  0 <= Moment.millisecond m < 1000 ->
  Moment.checked m = Some m /\ Moment.toISOString offset (Some m) = Some m.
Proof.
  intros (_ & _ & Hmin & Hoff) Hm Hs Hms.
  unfold Moment.checked, Moment.toISOString, Moment.and_then, Moment.time_value,
    Moment.max_time.
  change (10 ^ 10) with 10000000000 in *.
  split.
  - destruct (Z.leb_spec (Z.abs ((Moment.minute m * 60 + Moment.second m) * 1000
                                 + Moment.millisecond m)) 8640000000000000);
      [reflexivity | lia].
  - destruct (Z.leb_spec (Z.abs ((Moment.minute m * 60 + Moment.second m) * 1000
                                 + Moment.millisecond m - offset * 60000))
                         8640000000000000);
      [reflexivity | lia].
Qed.

Lemma every_interval_within_a_step offset now i :
  Moment.ordinary offset now ->
  0 < i <= 10 ^ 10 ->
  exists next,
    Moment.toISOString offset (NextRun.every_interval now (Js.VInt i)) = Some next
    /\ Moment.second next = 0
    /\ Moment.millisecond next = 0
    /\ Moment.minute now <= Moment.minute next < Moment.minute now + i
    /\ (Moment.minute next - (Moment.minute now - Moment.minutes now)) mod i = 0.
Proof.
  intros Hord [Hi Hmax].
  pose proof Hord as (Hs & Hms & Hmin & Hoff).
  change (10 ^ 10) with 10000000000 in *.
  unfold NextRun.every_interval, NextRun.next_minute.
  destruct (Z.eqb_spec i 0) as [E | _]; [lia |].
  set (m := Moment.minutes now).
  assert (Hm : 0 <= m < 60) by (apply Z.mod_pos_bound; lia).
  set (n := - (- m / i) * i).
  assert (Hn : m <= n < m + i).
  { unfold n. pose proof (Z.div_mod (- m) i ltac:(lia)) as D.
    pose proof (Z.mod_pos_bound (- m) i Hi) as B. nia. }
  assert (Hmod : n mod i = 0).
  { unfold n. apply Z.mod_mul. lia. }
  assert (Hbase : Moment.minute now - m
                  = 60 * (Moment.minute now / 60)).
  { unfold m, Moment.minutes. pose proof (Z.div_mod (Moment.minute now) 60 ltac:(lia)). lia. }
  unfold Moment.minutes in m. cbv zeta.
  unfold Moment.on_the_minute.
  destruct (ordinary_is_in_range offset now (Moment.mkMoment (Moment.minute now) 0 0) Hord)
    as [Hc0 _]; cbn [Moment.minute Moment.second Moment.millisecond];
    change (10 ^ 10) with 10000000000; try lia.
  rewrite Hc0. cbn [Moment.and_then].
  destruct (60 <=? n) eqn:E.
  - unfold Moment.add_minutes. cbn [Moment.minute Moment.second Moment.millisecond].
    destruct (ordinary_is_in_range offset now
                (Moment.mkMoment (Moment.minute now + 60) 0 0) Hord)
      as [Hc1 _]; cbn [Moment.minute Moment.second Moment.millisecond];
      change (10 ^ 10) with 10000000000; try lia.
    rewrite Hc1. cbn [Moment.and_then].
    unfold Moment.set_minutes. cbn [Moment.minute Moment.second Moment.millisecond].
    replace ((Moment.minute now + 60) mod 60) with (Moment.minute now mod 60)
      by (rewrite <- (Z.mod_add (Moment.minute now) 1 60) by lia; reflexivity).
    fold m.
    destruct (ordinary_is_in_range offset now
                (Moment.mkMoment (Moment.minute now + 60 - m + (n - 60)) 0 0) Hord)
      as [Hc2 Hiso]; cbn [Moment.minute Moment.second Moment.millisecond];
      change (10 ^ 10) with 10000000000; try lia.
    rewrite Hc2. eexists. split; [exact Hiso |].
    cbn [Moment.minute Moment.second Moment.millisecond].
    repeat split; try lia.
    replace (Moment.minute now + 60 - m + (n - 60) - (Moment.minute now - m)) with n by lia.
    exact Hmod.
  - unfold Moment.set_minutes. cbn [Moment.minute Moment.second Moment.millisecond].
    fold m.
    destruct (ordinary_is_in_range offset now
                (Moment.mkMoment (Moment.minute now - m + n) 0 0) Hord)
      as [Hc2 Hiso]; cbn [Moment.minute Moment.second Moment.millisecond];
      change (10 ^ 10) with 10000000000; try lia.
    rewrite Hc2. eexists. split; [exact Hiso |].
    cbn [Moment.minute Moment.second Moment.millisecond].
    repeat split; try lia.
    replace (Moment.minute now - m + n - (Moment.minute now - m)) with n by lia.
    exact Hmod.
Qed.

(** The branch written for [*/10 * * * *] computes what the general
    branch computes for a step of 10. *)
Lemma every_ten_minutes_is_the_step_of_ten now :
  NextRun.every_ten_minutes now = NextRun.every_interval now (Js.VInt 10).
Proof.
  unfold NextRun.every_ten_minutes, NextRun.every_interval, NextRun.next_minute.
  cbn [Z.eqb].
  set (m := Moment.minutes now).
  assert (Hm : 0 <= m < 60) by (apply Z.mod_pos_bound; lia).
  set (n := - (- m / 10) * 10).
  assert (Hn : m <= n < m + 10).
  { unfold n. pose proof (Z.div_mod (- m) 10 ltac:(lia)) as D.
    pose proof (Z.mod_pos_bound (- m) 10 ltac:(lia)) as B. nia. }
  assert (Hmod : n mod 10 = 0) by (unfold n; apply Z.mod_mul; lia).
  destruct (Z.leb_spec 60 n) as [H | H]; [| reflexivity].
  assert (n = 60).
  { pose proof (Z.div_mod n 10 ltac:(lia)) as D. rewrite Hmod in D. lia. }
  replace (n - 60) with 0 by lia. reflexivity.
Qed.

Lemma next_on_a_step_is_now (now next i : Z) (m : Z) :
  0 < i -> m mod i = 0 ->
  now <= next < now + i ->
  (next - (now - m)) mod i = 0 ->
  next = now.
Proof.
  intros Hi Hm Hb Hn.
  apply Z.mod_divide in Hm; [| lia]. apply Z.mod_divide in Hn; [| lia].
  destruct Hm as [a Ha]. destruct Hn as [b Hb'].
  assert (E : next - now = (b - a) * i) by lia.
  assert (b - a = 0) by nia. lia.
Qed.

(** X15. [calculateNextRun] at an ordinary moment [now] (a wall clock
    after 1970, in a zone whose offset does not change meanwhile).  For
    an expression of five fields whose minute field is a step of [n]
    minutes, with [n] a positive integer of at most 10^10, the result
    is not [null]; it is on the minute (seconds and milliseconds 0),
    not before the minute of [now] and less than [n] minutes after it,
    and its distance to the start of the current hour is a multiple of
    [n]; when the minute of [now] is itself a multiple of [n] the
    result is the current minute, which has already begun.  An
    expression that has not five fields gives [null].  An expression of
    five fields whose minute field is not a step gives [now] plus ten
    minutes.  (A step so large that the date leaves the range of Date
    gives [null]; such steps are beyond the bound.) *)
Theorem calculateNextRun_rounds_the_minute_up_to_the_step :
  forall (offset : Z) (now : Moment.t) (cronExpression : string),
    Moment.ordinary offset now ->
    (forall step fields i,
       Text.split cronExpression = ("*/" ++ step) :: fields ->
       List.length fields = 4%nat ->
       Js.parseInt (Js.VStr step) = Js.VInt i ->
       0 < i <= 10 ^ 10 ->
       exists next,
         NextRun.calculateNextRun offset now cronExpression = Some next
         /\ Moment.second next = 0
         /\ Moment.millisecond next = 0
         /\ Moment.minute now <= Moment.minute next < Moment.minute now + i
         /\ (Moment.minute next - (Moment.minute now - Moment.minutes now)) mod i = 0
         /\ (Moment.minutes now mod i = 0 -> Moment.minute next = Moment.minute now))
    /\ (List.length (Text.split cronExpression) <> 5%nat ->
        NextRun.calculateNextRun offset now cronExpression = None)
    /\ (List.length (Text.split cronExpression) = 5%nat ->
        Js.startsWith (hd "" (Text.split cronExpression)) "*/" = false ->
        NextRun.calculateNextRun offset now cronExpression
        = Some (Moment.mkMoment (Moment.minute now + 10) (Moment.second now)
                                (Moment.millisecond now))).
Proof.
  intros offset now cronExpression Hord. split; [| split].
  - intros step fields i Hsplit Hlen Hparse Hi.
    assert (Hstep : exists next,
               Moment.toISOString offset (NextRun.every_interval now (Js.VInt i))
               = Some next
               /\ Moment.second next = 0
               /\ Moment.millisecond next = 0
               /\ Moment.minute now <= Moment.minute next < Moment.minute now + i
               /\ (Moment.minute next - (Moment.minute now - Moment.minutes now)) mod i = 0
               /\ (Moment.minutes now mod i = 0 -> Moment.minute next = Moment.minute now)).
    { destruct (every_interval_within_a_step offset now i Hord Hi)
        as (next & E & H1 & H2 & H3 & H4).
      exists next. repeat split; try assumption; try lia.
      intros Hm.
      apply (next_on_a_step_is_now _ _ i (Moment.minutes now) (proj1 Hi) Hm H3 H4). }
    unfold NextRun.calculateNextRun. cbv zeta. rewrite Hsplit.
    cbn [List.length]. rewrite Hlen. cbn [Nat.eqb negb hd].
    destruct (String.eqb_spec cronExpression "*/10 * * * *") as [E | _].
    + subst cronExpression. vm_compute in Hsplit. injection Hsplit as <- _.
      vm_compute in Hparse. injection Hparse as <-.
      rewrite every_ten_minutes_is_the_step_of_ten. exact Hstep.
    + change (Js.startsWith ("*/" ++ step) "*/") with true. cbn iota.
      change (NextRun.substring2 ("*/" ++ step)) with step. rewrite Hparse.
      exact Hstep.
  - intros H. unfold NextRun.calculateNextRun. cbv zeta.
    destruct (Nat.eqb_spec (List.length (Text.split cronExpression)) 5);
      [contradiction | reflexivity].
  - intros Hlen Hmin. unfold NextRun.calculateNextRun. cbv zeta.
    rewrite Hlen, Hmin. cbn [Nat.eqb negb].
    destruct (String.eqb_spec cronExpression "*/10 * * * *") as [E | _];
      [subst cronExpression; vm_compute in Hmin; discriminate Hmin |].
    pose proof Hord as (Hs & Hms & Hm & Hoff).
    change (10 ^ 10) with 10000000000 in *.
    unfold Moment.add_minutes.
    destruct (ordinary_is_in_range offset now
                (Moment.mkMoment (Moment.minute now + 10) (Moment.second now)
                                 (Moment.millisecond now)) Hord)
      as [Hc Hiso]; cbn [Moment.minute Moment.second Moment.millisecond];
      change (10 ^ 10) with 10000000000; try lia.
    rewrite Hc. exact Hiso.
Qed.

Lemma calculateNextRun_rounds_the_minute_up_to_the_step_witness :
  exists next,
    NextRun.calculateNextRun 210 (Moment.mkMoment 29900227 42 500) "*/15 * * * *"
    = Some next
    /\ 29900227 <= Moment.minute next < 29900227 + 15.
Proof.
  destruct (proj1 (calculateNextRun_rounds_the_minute_up_to_the_step
                     210 (Moment.mkMoment 29900227 42 500) "*/15 * * * *"
                     ltac:(unfold Moment.ordinary; simpl; lia))
              "15" ["*"; "*"; "*"; "*"] 15 eq_refl eq_refl eq_refl
              ltac:(simpl; lia))
    as (next & E & _ & _ & H & _).
  exists next. split; [exact E | exact H].
Defined.

(** ** The registry of cron jobs *)

Lemma jobs_lookup_in id r j :
  Jobs.lookup id r = Some j -> In (id, j) (Jobs.jobs r).
Proof.
  unfold Jobs.lookup. destruct (find _ (Jobs.jobs r)) as [[k j'] |] eqn:E; [| discriminate].
  intros H. injection H as <-. apply find_some in E. destruct E as [Hin Hk].
  simpl in Hk. apply Z.eqb_eq in Hk. subst k. exact Hin.
Qed.

Lemma jobs_find_delete_other id id' entries :
  id <> id' ->
  find (fun entry : Z * Jobs.job => fst entry =? id') (Jobs.delete id entries)
  = find (fun entry => fst entry =? id') entries.
Proof.
  intros Hne. induction entries as [| [k j] rest IH]; simpl; [reflexivity |].
  destruct (Z.eqb_spec k id) as [-> | Hk]; simpl.
  - destruct (Z.eqb_spec id id'); [contradiction | exact IH].
  - destruct (Z.eqb_spec k id'); [reflexivity | exact IH].
Qed.

Lemma jobs_find_delete_same id entries :
  find (fun entry : Z * Jobs.job => fst entry =? id) (Jobs.delete id entries) = None.
Proof.
  induction entries as [| [k j] rest IH]; simpl; [reflexivity |].
  destruct (Z.eqb_spec k id) as [-> | Hk]; simpl; [exact IH |].
  destruct (Z.eqb_spec k id); [contradiction | exact IH].
Qed.

Lemma jobs_stop_in j k r :
  In k (Jobs.running (Jobs.stop j r)) <->
  In k (Jobs.running r) /\ Jobs.handle k <> Jobs.handle j.
Proof.
  unfold Jobs.stop. cbn [Jobs.running]. rewrite filter_In. unfold Jobs.same_job.
  destruct (Nat.eqb_spec (Jobs.handle k) (Jobs.handle j)); simpl; split;
    intros [H1 H2]; split; try assumption; try discriminate; try contradiction;
    reflexivity.
Qed.

(** Stopping a task leaves the running tasks distinct. *)
Lemma jobs_stop_distinct (j : Jobs.job) (tasks : list Jobs.job) :
  NoDup (map Jobs.handle tasks) ->
  NoDup (map Jobs.handle (filter (fun k => negb (Jobs.same_job k j)) tasks)).
Proof.
  intros Hnd. induction tasks as [| k rest IH]; [constructor |].
  cbn [map] in Hnd. apply NoDup_cons_iff in Hnd. destruct Hnd as [Hk Hrest].
  cbn [filter]. destruct (negb (Jobs.same_job k j)); [| apply IH, Hrest].
  cbn [map]. apply NoDup_cons; [| apply IH, Hrest].
  intros Hin. apply Hk. apply in_map_iff in Hin. destruct Hin as (y & Hy & Hin).
  apply filter_In in Hin. apply in_map_iff. exists y. tauto.
Qed.

(** The first step of [startJob] and of [stopJob]: once the task
    registered under [id] is stopped, no task of that schedule runs. *)
Lemma jobs_stop_registered r id :
  Jobs.consistent r ->
  let r1 := match Jobs.lookup id r with
            | Some old => Jobs.stop old r
            | None => r
            end in
  (forall k, In k (Jobs.running r1) -> In k (Jobs.running r) /\ Jobs.schedule_id k <> id)
  /\ NoDup (map Jobs.handle (Jobs.running r1))
  /\ Jobs.jobs r1 = Jobs.jobs r
  /\ Jobs.made r1 = Jobs.made r.
Proof.
  intros (Hreg & Hjobs & Hnd). cbv zeta.
  destruct (Jobs.lookup id r) as [old |] eqn:E.
  - split; [| split; [| split; reflexivity]].
    + intros k Hk. apply jobs_stop_in in Hk. destruct Hk as [Hin Hne].
      split; [exact Hin |]. intros Hid. apply Hne.
      pose proof (Hreg k Hin) as Hk. rewrite Hid, E in Hk. injection Hk as <-. reflexivity.
    + apply jobs_stop_distinct, Hnd.
  - split; [| split; [| split; reflexivity]].
    + intros k Hk. split; [exact Hk |]. intros Hid.
      pose proof (Hreg k Hk) as H. rewrite Hid, E in H. discriminate.
    + exact Hnd.
Qed.

Lemma jobs_running_made r j :
  Jobs.consistent r -> In j (Jobs.running r) -> (Jobs.handle j < Jobs.made r)%nat.
Proof.
  intros (Hreg & Hjobs & _) Hin. apply Hreg, jobs_lookup_in, Hjobs in Hin. apply Hin.
Qed.

Lemma startJob_consistent cron_error id expression r :
  Jobs.consistent r ->
  Jobs.consistent (snd (Jobs.startJob cron_error id expression r)).
Proof.
  intros Hc. pose proof (jobs_stop_registered r id Hc) as H. cbv zeta in H.
  pose proof Hc as (Hreg & Hjobs & Hnd).
  unfold Jobs.startJob. cbv zeta.
  set (r1 := match Jobs.lookup id r with
             | Some old => Jobs.stop old r
             | None => r
             end) in *.
  destruct H as (Hrun & Hnd1 & Ejobs & Emade).
  assert (Hlook : forall i, Jobs.lookup i r1 = Jobs.lookup i r)
    by (intros i; unfold Jobs.lookup; rewrite Ejobs; reflexivity).
  destruct (cron_error expression) as [message |]; cbn [snd].
  - split; [| split].
    + intros k Hk. rewrite Hlook. apply Hreg, Hrun, Hk.
    + intros i j Hin. rewrite Ejobs in Hin. rewrite Emade. apply Hjobs, Hin.
    + exact Hnd1.
  - split; [| split]; cbn [Jobs.jobs Jobs.running Jobs.made].
    + intros k Hk. apply in_app_or in Hk. destruct Hk as [Hk | [<- | []]].
      * destruct (Hrun k Hk) as [Hin Hne].
        unfold Jobs.lookup. cbn [Jobs.jobs find fst].
        destruct (Z.eqb_spec id (Jobs.schedule_id k)) as [E | _];
          [symmetry in E; contradiction |].
        rewrite jobs_find_delete_other by (intros E; apply Hne; symmetry; exact E).
        rewrite Ejobs. apply (Hreg k Hin).
      * unfold Jobs.lookup. cbn [Jobs.jobs find fst Jobs.schedule_id].
        rewrite Z.eqb_refl. reflexivity.
    + intros i j [E | Hin].
      * injection E as <- <-. cbn [Jobs.schedule_id Jobs.handle]. split; [reflexivity | lia].
      * unfold Jobs.delete in Hin. apply filter_In in Hin. destruct Hin as [Hin _].
        rewrite Ejobs in Hin. rewrite Emade.
        destruct (Hjobs i j Hin) as [H1 H2]. split; [exact H1 | lia].
    + rewrite map_app. cbn [map Jobs.handle]. apply NoDup_app; [exact Hnd1 | repeat constructor; intros [] |].
      intros h Hh [<- | []]. apply in_map_iff in Hh. destruct Hh as (k & Ek & Hk).
      destruct (Hrun k Hk) as [Hin _].
      pose proof (jobs_running_made r k Hc Hin). lia.
Qed.

Lemma stopJob_consistent id r :
  Jobs.consistent r ->
  Jobs.consistent (Jobs.stopJob id r)
  /\ forall k, In k (Jobs.running (Jobs.stopJob id r)) -> Jobs.schedule_id k <> id.
Proof.
  intros Hc. pose proof (jobs_stop_registered r id Hc) as H. cbv zeta in H.
  pose proof Hc as (Hreg & Hjobs & Hnd).
  unfold Jobs.stopJob.
  destruct (Jobs.lookup id r) as [j |] eqn:E.
  - destruct H as (Hrun & Hnd1 & _ & _). split; [split; [| split] |];
      cbn [Jobs.jobs Jobs.running Jobs.made].
    + intros k Hk. destruct (Hrun k Hk) as [Hin Hne].
      unfold Jobs.lookup. cbn [Jobs.jobs].
      rewrite jobs_find_delete_other by (intros E'; apply Hne; symmetry; exact E').
      apply (Hreg k Hin).
    + intros i k Hin. unfold Jobs.delete in Hin. apply filter_In in Hin.
      apply Hjobs, Hin.
    + exact Hnd1.
    + intros k Hk. apply (Hrun k Hk).
  - split; [exact Hc |]. intros k Hk. apply (proj1 H k Hk).
Qed.

Lemma jobs_after_consistent cron_error calls :
  Jobs.consistent (Jobs.after cron_error calls).
Proof.
  unfold Jobs.after.
  assert (H : forall r, Jobs.consistent r ->
                        Jobs.consistent
                          (fold_left (fun r c => Jobs.perform cron_error c r) calls r)).
  { induction calls as [| c rest IH]; intros r Hr; simpl; [exact Hr |].
    apply IH. destruct c as [id expression | id]; cbn [Jobs.perform].
    - apply startJob_consistent, Hr.
    - apply stopJob_consistent, Hr. }
  apply H. repeat split; try constructor; intros; contradiction.
Qed.

Lemma jobs_one_per_schedule r :
  Jobs.consistent r -> NoDup (map Jobs.schedule_id (Jobs.running r)).
Proof.
  intros (Hreg & _ & Hnd).
  assert (H : forall l,
             (forall j, In j l -> Jobs.lookup (Jobs.schedule_id j) r = Some j) ->
             NoDup (map Jobs.handle l) -> NoDup (map Jobs.schedule_id l)).
  { induction l as [| j rest IH]; simpl; intros Hl Hn; [constructor |].
    inversion Hn as [| ? ? Hj Hrest]; subst. constructor.
    - intros Hin. apply Hj. apply in_map_iff in Hin. destruct Hin as (k & Ek & Hk).
      apply in_map_iff. exists k. split; [| exact Hk].
      pose proof (Hl k (or_intror Hk)) as H1. pose proof (Hl j (or_introl eq_refl)) as H2.
      rewrite Ek, H2 in H1. injection H1 as ->. reflexivity.
    - apply IH; [intros k Hk; apply Hl; right; exact Hk | exact Hrest]. }
  apply H; assumption.
Qed.

(** X16. After any sequence of [startJob] and [stopJob], each run to its
    end, from an empty registry: at most one cron task runs for a
    schedule; every running task is the one registered under its
    schedule, so that [stopJob] reaches it; after [stopJob(id)] no task
    of that schedule runs; after a [startJob] that [cron.schedule]
    accepts, exactly one task of the schedule runs, on the expression
    just given; and when [cron.schedule] throws, [startJob] throws and
    no task of the schedule runs, the former one having been stopped. *)
Theorem at_most_one_cron_job_runs_for_a_schedule :
  forall (cron_error : string -> option string) (calls : list Jobs.call),
    let r := Jobs.after cron_error calls in
    NoDup (map Jobs.schedule_id (Jobs.running r))
    /\ (forall j, In j (Jobs.running r) -> Jobs.lookup (Jobs.schedule_id j) r = Some j)
    /\ (forall id j, In j (Jobs.running (Jobs.stopJob id r)) -> Jobs.schedule_id j <> id)
    /\ (forall id expression,
          cron_error expression = None ->
          exists j,
            Jobs.cron_expression j = expression
            /\ Jobs.schedule_id j = id
            /\ fst (Jobs.startJob cron_error id expression r) = Returned tt
            /\ In j (Jobs.running (snd (Jobs.startJob cron_error id expression r)))
            /\ forall k, In k (Jobs.running (snd (Jobs.startJob cron_error id expression r)))
                         -> Jobs.schedule_id k = id -> k = j)
    /\ (forall id expression message,
          cron_error expression = Some message ->
          fst (Jobs.startJob cron_error id expression r) = Threw message
          /\ forall k, In k (Jobs.running (snd (Jobs.startJob cron_error id expression r)))
                       -> Jobs.schedule_id k <> id).
Proof.
  intros cron_error calls. cbv zeta.
  pose proof (jobs_after_consistent cron_error calls) as Hc.
  set (r := Jobs.after cron_error calls) in *.
  split; [apply jobs_one_per_schedule, Hc |].
  split; [apply Hc |].
  split; [intros id j; apply (proj2 (stopJob_consistent id r Hc)) |].
  pose proof (jobs_stop_registered r) as Hstop.
  split.
  - intros id expression Herr.
    pose proof (startJob_consistent cron_error id expression r Hc) as (Hreg' & _).
    revert Hreg'. unfold Jobs.startJob. cbv zeta. rewrite Herr. cbn [fst snd].
    intros Hreg'.
    exists (Jobs.mkJob
              (Jobs.made match Jobs.lookup id r with
                         | Some old => Jobs.stop old r
                         | None => r
                         end) id expression).
    split; [reflexivity |]. split; [reflexivity |]. split; [reflexivity |].
    split; [cbn [Jobs.running]; apply in_or_app; right; left; reflexivity |].
    intros k Hk Hid. pose proof (Hreg' k Hk) as H. rewrite Hid in H.
    unfold Jobs.lookup in H. cbn [Jobs.jobs find fst] in H.
    rewrite Z.eqb_refl in H. cbn [snd] in H. injection H as <-. reflexivity.
  - intros id expression message Herr.
    unfold Jobs.startJob. cbv zeta. rewrite Herr. cbn [fst snd].
    split; [reflexivity |]. intros k Hk.
    apply (proj1 (Hstop id Hc) k Hk).
Qed.

(** ** The helpers of [GET /api/farsnews] *)

Lemma farsnews_evaluate_reads_only b doc :
  steps (fetches no_event) (Farsnews.evaluate b doc).
Proof.
  unfold Farsnews.evaluate, Farsnews.paragraphs_content.
  assert (H : forall selectors,
             steps (fetches no_event) (Farsnews.first_content doc selectors)).
  { intros selectors. induction selectors as [| sel rest IH]; simpl.
    - apply steps_ret, fetches_refl.
    - unfold querySelector, querySelectorAll, css_select.
      repeat first [ exact IH | steps_struct ]. }
  repeat first
    [ apply H
    | steps_struct
    | progress unfold querySelector, querySelectorAll, css_select ].
Qed.

Lemma goto_run w how url s :
  goto w how url s
  = (Web.navigate w how url, mkWorld (db s) (upool s) (log s ++ [EvGoto how url])).
Proof. reflexivity. Qed.

(** [extractArticleContent] of the server file always returns, after
    one navigation to the address it is given. *)
Lemma farsnews_extract_run b url s :
  exists result,
    Farsnews.extractArticleContent b url s
    = (Returned result,
       mkWorld (db s) (upool s) (log s ++ [EvGoto "networkidle0" url])).
Proof.
  unfold Farsnews.extractArticleContent, try_catch. unfold bind at 1.
  rewrite goto_run.
  destruct (Web.navigate (Farsnews.web b) "networkidle0" url) as [doc | e].
  - pose proof (farsnews_evaluate_reads_only b doc
                  (mkWorld (db s) (upool s) (log s ++ [EvGoto "networkidle0" url]))) as H.
    apply fetches_nothing in H.
    destruct (Farsnews.evaluate b doc _) as [[result | err] s1]; cbn [snd] in H; subst s1;
      eexists; reflexivity.
  - eexists. reflexivity.
Qed.

(** What a call of [crawlInternalLinks] with enough levels of fuel does. *)
Lemma crawl_levels_run b :
  forall (fuel : nat) (links : list Farsnews.link_info) (maxDepth currentDepth : Z) (s : World),
    (Z.to_nat (maxDepth - currentDepth) <= fuel)%nat ->
    exists articles,
      Farsnews.crawl_levels fuel b links maxDepth currentDepth s
      = (Returned articles,
         mkWorld (db s) (upool s) (log s ++ map farsnews_fetch articles))
      /\ Forall (fun a => currentDepth < Farsnews.a_depth a <= maxDepth) articles
      /\ (List.length articles
          <= Farsnews.most_articles (Z.to_nat (maxDepth - currentDepth)))%nat.
Proof.
  induction fuel as [| fuel IH]; intros links maxDepth currentDepth s Hfuel.
  - exists []. simpl. rewrite app_nil_r. destruct s. repeat split; [constructor | lia].
  - cbn [Farsnews.crawl_levels].
    destruct (Z.geb_spec currentDepth maxDepth) as [Hge | Hlt]; cbn [orb].
    { exists []. simpl. rewrite app_nil_r. destruct s.
      repeat split; [constructor | lia]. }
    destruct (List.length links =? 0)%nat.
    { exists []. simpl. rewrite app_nil_r. destruct s.
      repeat split; [constructor | lia]. }
    remember (Z.to_nat (maxDepth - currentDepth)) as levels eqn:Hlevels.
    destruct levels as [| levels']; [lia |].
    assert (Hdeeper : Z.to_nat (maxDepth - (currentDepth + 1)) = levels') by lia.
    (* the loop: each link adds its article and those below it *)
    assert (Hloop : forall (todo : list Farsnews.link_info) (acc : list Farsnews.article)
                           (s0 : World),
               exists new,
                 foldM
                   (fun crawledArticles link =>
                      extracted <- try_catch
                                     (result <- Farsnews.extractArticleContent b
                                                  (Farsnews.l_link link) ;;
                                      ret (Some result))
                                     (fun _ => ret None) ;;
                      match extracted with
                      | None => ret crawledArticles
                      | Some result =>
                          let pushed :=
                            (crawledArticles
                               ++ [Farsnews.article_of link result currentDepth])%list in
                          if negb (List.length (Farsnews.e_internalLinks result) =? 0)%nat
                             && (currentDepth + 1 <? maxDepth)
                          then
                            try_catch
                              (deeperArticles <- Farsnews.crawl_levels fuel b
                                                   (Farsnews.e_internalLinks result)
                                                   maxDepth (currentDepth + 1) ;;
                               ret (pushed ++ deeperArticles)%list)
                              (fun _ => ret pushed)
                          else ret pushed
                      end)
                   todo acc s0
                 = (Returned (acc ++ new)%list,
                    mkWorld (db s0) (upool s0) (log s0 ++ map farsnews_fetch new))
                 /\ Forall (fun a => currentDepth < Farsnews.a_depth a <= maxDepth) new
                 /\ (List.length new
                     <= List.length todo * (1 + Farsnews.most_articles levels'))%nat).
    { induction todo as [| link rest IHtodo]; intros acc s0.
      - exists []. simpl. rewrite !app_nil_r. destruct s0.
        repeat split; [constructor | lia].
      - cbn [foldM].
        destruct (farsnews_extract_run b (Farsnews.l_link link) s0) as [result Hx].
        set (s1 := mkWorld (db s0) (upool s0)
                     (log s0 ++ [EvGoto "networkidle0" (Farsnews.l_link link)])) in *.
        set (a := Farsnews.article_of link result currentDepth).
        assert (Ha : currentDepth < Farsnews.a_depth a <= maxDepth)
          by (unfold a, Farsnews.article_of; simpl; lia).
        destruct (negb (List.length (Farsnews.e_internalLinks result) =? 0)%nat
                  && (currentDepth + 1 <? maxDepth)) eqn:Hcond.
        + destruct (IH (Farsnews.e_internalLinks result) maxDepth (currentDepth + 1) s1)
            as (deeper & Hrun & Hdepth & Hcount); [lia |].
          rewrite Hdeeper in Hcount.
          destruct (IHtodo ((acc ++ [a]) ++ deeper)%list
                      (mkWorld (db s1) (upool s1) (log s1 ++ map farsnews_fetch deeper)))
            as (new & Hrest & Hnew & Hlen).
          exists (a :: deeper ++ new)%list. split; [| split].
          * erewrite run_bind;
              [| erewrite run_bind;
                   [| erewrite run_try;
                        [reflexivity | erewrite run_bind; [| exact Hx]; reflexivity]];
                 cbv beta iota zeta; fold a; rewrite Hcond;
                 erewrite run_try; [reflexivity |];
                 erewrite run_bind; [| exact Hrun]; reflexivity].
            refine (eq_trans Hrest _). cbn [db upool log]. unfold s1. cbn [db upool log].
            f_equal; [f_equal; rewrite <- !app_assoc; reflexivity |].
            f_equal. cbn [map]. rewrite map_app, <- !app_assoc. reflexivity.
          * constructor; [exact Ha |]. apply Forall_app. split; [| exact Hnew].
            eapply Forall_impl; [| exact Hdepth]. intros x Hx'. simpl in Hx'. lia.
          * cbn [List.length]. rewrite length_app. lia.
        + destruct (IHtodo (acc ++ [a])%list s1) as (new & Hrest & Hnew & Hlen).
          exists (a :: new). split; [| split].
          * erewrite run_bind;
              [| erewrite run_bind;
                   [| erewrite run_try;
                        [reflexivity | erewrite run_bind; [| exact Hx]; reflexivity]];
                 cbv beta iota zeta; fold a; rewrite Hcond; reflexivity].
            refine (eq_trans Hrest _). unfold s1. cbn [db upool log].
            f_equal; [f_equal; rewrite <- !app_assoc; reflexivity |].
            f_equal. cbn [map]. rewrite <- !app_assoc. reflexivity.
          * constructor; assumption.
          * cbn [List.length]. lia. }
    destruct (Hloop (Js.slice0 3 links) [] s) as (new & Hrun & Hnew & Hlen).
    exists new. split; [exact Hrun |]. split; [exact Hnew |].
    cbn [Farsnews.most_articles].
    assert (List.length (Js.slice0 3 links) <= 3)%nat
      by (unfold Js.slice0; apply firstn_le_length).
    nia.
Qed.

Lemma foldM_ext {A B : Type} (f g : B -> A -> M B) (l : list A) :
  (forall acc x s, f acc x s = g acc x s) ->
  forall acc s, foldM f l acc s = foldM g l acc s.
Proof.
  intros H. induction l as [| x rest IH]; intros acc s; simpl; [reflexivity |].
  unfold bind. rewrite H. destruct (g acc x s) as [[acc' | e] s1]; [apply IH | reflexivity].
Qed.

Lemma bind_ext {A B : Type} (m : M A) (k k' : A -> M B) s :
  (forall a s1, k a s1 = k' a s1) -> bind m k s = bind m k' s.
Proof.
  intros H. unfold bind. destruct (m s) as [[a | e] s1]; [apply H | reflexivity].
Qed.

(** More fuel than the levels left changes nothing. *)
Lemma crawl_levels_enough b :
  forall (fuel : nat) (links : list Farsnews.link_info) (maxDepth currentDepth : Z) (s : World),
    (Z.to_nat (maxDepth - currentDepth) <= fuel)%nat ->
    Farsnews.crawl_levels fuel b links maxDepth currentDepth s
    = Farsnews.crawl_levels (Z.to_nat (maxDepth - currentDepth)) b links
        maxDepth currentDepth s.
Proof.
  induction fuel as [| fuel IH]; intros links maxDepth currentDepth s Hfuel.
  - replace (Z.to_nat (maxDepth - currentDepth)) with 0%nat by lia. reflexivity.
  - remember (Z.to_nat (maxDepth - currentDepth)) as levels eqn:Hlevels.
    destruct levels as [| levels'].
    + cbn [Farsnews.crawl_levels].
      destruct (Z.geb_spec currentDepth maxDepth) as [Hge | Hlt]; [reflexivity | lia].
    + cbn [Farsnews.crawl_levels].
      destruct ((currentDepth >=? maxDepth) || (List.length links =? 0)%nat);
        [reflexivity |].
      apply foldM_ext. intros acc link s0.
      apply bind_ext. intros [result |] s1; [| reflexivity]. cbv zeta.
      destruct (negb _ && _); [| reflexivity].
      unfold try_catch. unfold bind at 1 2.
      rewrite (IH (Farsnews.e_internalLinks result) maxDepth (currentDepth + 1) s1) by lia.
      replace (Z.to_nat (maxDepth - (currentDepth + 1))) with levels' by lia.
      reflexivity.
Qed.

(** X17. [crawlInternalLinks] of the server file terminates and never
    throws.  The articles it returns have depths above [currentDepth]
    and at most [maxDepth]; there are at most 3 of them for one level,
    12 for two, and in general [most_articles] of the levels left; it
    loads one page for each article returned, in the order of the
    articles, and touches neither the database nor the page pool.  With
    [maxDepth <= currentDepth] it returns the empty list and does
    nothing.  The count of levels that bounds the recursion of the
    model is enough: a larger one gives the same run. *)
Theorem farsnews_crawlInternalLinks_is_bounded_by_its_depth :
  forall (b : Farsnews.browser) (links : list Farsnews.link_info)
         (maxDepth currentDepth : Z) (s : World),
    (exists articles,
       Farsnews.crawlInternalLinks b links maxDepth currentDepth s
       = (Returned articles,
          mkWorld (db s) (upool s)
            (log s ++ map (fun a => EvGoto "networkidle0" (Farsnews.a_link a)) articles))
       /\ Forall (fun a => currentDepth < Farsnews.a_depth a <= maxDepth) articles
       /\ (List.length articles
           <= Farsnews.most_articles (Z.to_nat (maxDepth - currentDepth)))%nat)
    /\ (maxDepth <= currentDepth ->
        Farsnews.crawlInternalLinks b links maxDepth currentDepth s = (Returned [], s))
    /\ forall extra,
         Farsnews.crawl_levels (Z.to_nat (maxDepth - currentDepth) + extra) b links
           maxDepth currentDepth s
         = Farsnews.crawlInternalLinks b links maxDepth currentDepth s.
Proof.
  intros b links maxDepth currentDepth s. split; [| split].
  - destruct (crawl_levels_run b (Z.to_nat (maxDepth - currentDepth)) links
                maxDepth currentDepth s (Nat.le_refl _)) as (articles & Hrun & Hd & Hn).
    exists articles. unfold Farsnews.crawlInternalLinks. split; [exact Hrun |].
    split; [exact Hd | exact Hn].
  - intros H. unfold Farsnews.crawlInternalLinks.
    replace (Z.to_nat (maxDepth - currentDepth)) with 0%nat by lia. reflexivity.
  - intros extra. unfold Farsnews.crawlInternalLinks. apply crawl_levels_enough. lia.
Qed.

(** ** The adapter never leaks a connection *)

Lemma adapter_call_keeps_no_leak pg c a :
  DatabaseAdapter.no_leak a -> DatabaseAdapter.no_leak (DatabaseAdapter.perform pg c a).
Proof.
  unfold DatabaseAdapter.no_leak. intros H.
  destruct a as [isPg tx out n k cb]. cbn [DatabaseAdapter.checked_out
    DatabaseAdapter.txClient] in H. subst out.
  destruct c; cbn [DatabaseAdapter.perform];
    unfold DatabaseAdapter.beginTransaction, DatabaseAdapter.commit,
      DatabaseAdapter.rollback, DatabaseAdapter.end_transaction,
      DatabaseAdapter.execute, DatabaseAdapter.connect, DatabaseAdapter.client_query,
      DatabaseAdapter.release, DatabaseAdapter.set_txClient, DatabaseAdapter.call_back;
    simpl; destruct isPg; simpl; destruct tx as [client |]; simpl;
    repeat match goal with
           | |- context [match DatabaseAdapter.connect_error pg ?n with _ => _ end] =>
               destruct (DatabaseAdapter.connect_error pg n); simpl
           | |- context [match DatabaseAdapter.answer pg ?k ?q with _ => _ end] =>
               destruct (DatabaseAdapter.answer pg k q); simpl
           | |- context [if ?callback then _ else _] => is_var callback; destruct callback; simpl
           end;
    rewrite ?Nat.eqb_refl; simpl; reflexivity.
Qed.

(** The driver of an adapter does not change, and on SQLite no
    transaction client is ever held. *)
Lemma adapter_call_keeps_the_driver pg postgres c a :
  DatabaseAdapter.isPostgres a = postgres ->
  (postgres = false -> DatabaseAdapter.txClient a = None) ->
  DatabaseAdapter.isPostgres (DatabaseAdapter.perform pg c a) = postgres
  /\ (postgres = false ->
      DatabaseAdapter.txClient (DatabaseAdapter.perform pg c a) = None).
Proof.
  intros Hd Hs. destruct a as [isPg tx out n k cb].
  cbn [DatabaseAdapter.isPostgres DatabaseAdapter.txClient] in *. subst isPg.
  destruct postgres; [| rewrite (Hs eq_refl)];
    destruct c; cbn [DatabaseAdapter.perform];
    unfold DatabaseAdapter.beginTransaction, DatabaseAdapter.commit,
      DatabaseAdapter.rollback, DatabaseAdapter.end_transaction,
      DatabaseAdapter.execute, DatabaseAdapter.connect, DatabaseAdapter.client_query,
      DatabaseAdapter.release, DatabaseAdapter.set_txClient, DatabaseAdapter.call_back;
    simpl; try destruct tx as [client |]; simpl;
    repeat match goal with
           | |- context [match DatabaseAdapter.connect_error pg ?n with _ => _ end] =>
               destruct (DatabaseAdapter.connect_error pg n); simpl
           | |- context [match DatabaseAdapter.answer pg ?k ?q with _ => _ end] =>
               destruct (DatabaseAdapter.answer pg k q); simpl
           | |- context [if ?callback then _ else _] => is_var callback; destruct callback; simpl
           end;
    split; try reflexivity; intros H; try discriminate H; reflexivity.
Qed.

Lemma adapter_reachable pg postgres calls :
  let a := fold_left (fun a c => DatabaseAdapter.perform pg c a) calls
             (DatabaseAdapter.fresh postgres) in
  DatabaseAdapter.no_leak a
  /\ DatabaseAdapter.isPostgres a = postgres
  /\ (postgres = false -> DatabaseAdapter.txClient a = None).
Proof.
  cbv zeta.
  assert (H : forall a,
             DatabaseAdapter.no_leak a
             /\ DatabaseAdapter.isPostgres a = postgres
             /\ (postgres = false -> DatabaseAdapter.txClient a = None) ->
             let a' := fold_left (fun a c => DatabaseAdapter.perform pg c a) calls a in
             DatabaseAdapter.no_leak a'
             /\ DatabaseAdapter.isPostgres a' = postgres
             /\ (postgres = false -> DatabaseAdapter.txClient a' = None)).
  { induction calls as [| c rest IH]; intros a Ha; cbn [fold_left]; [exact Ha |].
    apply IH. destruct Ha as (H1 & H2 & H3). split.
    - apply adapter_call_keeps_no_leak, H1.
    - apply adapter_call_keeps_the_driver; assumption. }
  apply H. split; [reflexivity |]. split; [reflexivity |]. intros _. reflexivity.
Qed.

(** X18. After any sequence of [beginTransaction], [commit], [rollback]
    and [execute], each awaited before the next, on a fresh adapter,
    and whatever the pool and the server answer: the only client out of
    the pool is the one the adapter holds as [txClient], and none is
    out when it holds none; a refused connection or a failed statement
    of [execute] leaks no client.  A failed [BEGIN] is not cleaned up:
    [beginTransaction] throws, and the client it took stays out of the
    pool, held as [txClient] though no transaction was begun, so that
    the next [beginTransaction] throws that a transaction is in
    progress.  A [commit] or a [rollback] gives it back: after either,
    whatever it answers, no client is out of the pool. *)
Theorem adapter_holds_no_client_but_txClient :
  forall (pg : DatabaseAdapter.server) (postgres : bool) (calls : list DatabaseAdapter.call),
    let a := fold_left (fun a c => DatabaseAdapter.perform pg c a) calls
               (DatabaseAdapter.fresh postgres) in
    DatabaseAdapter.checked_out a
    = match DatabaseAdapter.txClient a with
      | Some client => [client]
      | None => []
      end
    /\ (forall callback message,
          postgres = true ->
          DatabaseAdapter.txClient a = None ->
          DatabaseAdapter.connect_error pg (DatabaseAdapter.connects a) = None ->
          DatabaseAdapter.answer pg (DatabaseAdapter.statements a) "BEGIN" = Threw message ->
          let failed := DatabaseAdapter.beginTransaction pg callback a in
          fst failed = Threw message
          /\ DatabaseAdapter.txClient (snd failed) = Some (DatabaseAdapter.connects a)
          /\ DatabaseAdapter.checked_out (snd failed) = [DatabaseAdapter.connects a]
          /\ DatabaseAdapter.beginTransaction pg callback (snd failed)
             = (Threw "Transaction already in progress", snd failed))
    /\ (forall callback,
          DatabaseAdapter.checked_out (snd (DatabaseAdapter.commit pg callback a)) = []
          /\ DatabaseAdapter.checked_out (snd (DatabaseAdapter.rollback pg callback a)) = []).
Proof.
  intros pg postgres calls. cbv zeta.
  destruct (adapter_reachable pg postgres calls) as (Hleak & Hdriver & Hsqlite).
  cbv zeta in Hleak, Hdriver, Hsqlite.
  set (a := fold_left (fun a c => DatabaseAdapter.perform pg c a) calls
              (DatabaseAdapter.fresh postgres)) in *.
  split; [exact Hleak |]. split.
  - intros callback message Hpg Htx Hconnect Hbegin.
    destruct a as [isPg tx out n k cb].
    unfold DatabaseAdapter.no_leak in Hleak.
    cbn [DatabaseAdapter.isPostgres DatabaseAdapter.txClient DatabaseAdapter.checked_out
         DatabaseAdapter.connects DatabaseAdapter.statements] in *.
    subst tx isPg out. rewrite Hpg.
    unfold DatabaseAdapter.beginTransaction, DatabaseAdapter.connect,
      DatabaseAdapter.client_query, DatabaseAdapter.set_txClient.
    cbn [DatabaseAdapter.isPostgres DatabaseAdapter.txClient DatabaseAdapter.checked_out
         DatabaseAdapter.connects DatabaseAdapter.statements DatabaseAdapter.callbacks
         negb app].
    rewrite Hconnect.
    cbn [DatabaseAdapter.isPostgres DatabaseAdapter.txClient DatabaseAdapter.checked_out
         DatabaseAdapter.connects DatabaseAdapter.statements DatabaseAdapter.callbacks
         negb app fst snd].
    rewrite Hbegin.
    cbn [DatabaseAdapter.isPostgres DatabaseAdapter.txClient DatabaseAdapter.checked_out
         negb fst snd].
    repeat split.
  - intros callback.
    assert (Hend : forall sql,
               DatabaseAdapter.checked_out
                 (snd (DatabaseAdapter.end_transaction pg sql callback a)) = []).
    { intros sql. destruct a as [isPg tx out n k cb].
      unfold DatabaseAdapter.no_leak in Hleak.
      cbn [DatabaseAdapter.isPostgres DatabaseAdapter.txClient
           DatabaseAdapter.checked_out] in *.
      subst isPg out.
      unfold DatabaseAdapter.end_transaction, DatabaseAdapter.client_query,
        DatabaseAdapter.release, DatabaseAdapter.set_txClient, DatabaseAdapter.call_back.
      destruct postgres; simpl.
      - destruct tx as [client |]; simpl; [| reflexivity].
        destruct (DatabaseAdapter.answer pg k sql); simpl;
          rewrite Nat.eqb_refl; simpl; try destruct callback; reflexivity.
      - rewrite (Hsqlite eq_refl). destruct callback; reflexivity. }
    split; [apply (Hend "COMMIT") | apply (Hend "ROLLBACK")].
Qed.

Lemma adapter_holds_no_client_but_txClient_witness :
  DatabaseAdapter.checked_out
    (snd (DatabaseAdapter.beginTransaction
            (DatabaseAdapter.mkServer (fun _ => None)
               (fun _ _ => Threw "connection lost")
               (fun _ _ => Returned Js.VUndefined))
            true (DatabaseAdapter.fresh true)))
  = [0%nat]
  /\ DatabaseAdapter.checked_out
       (snd (DatabaseAdapter.rollback
               (DatabaseAdapter.mkServer (fun _ => None)
                  (fun _ _ => Threw "connection lost")
                  (fun _ _ => Returned Js.VUndefined))
               true
               (snd (DatabaseAdapter.beginTransaction
                       (DatabaseAdapter.mkServer (fun _ => None)
                          (fun _ _ => Threw "connection lost")
                          (fun _ _ => Returned Js.VUndefined))
                       true (DatabaseAdapter.fresh true)))))
    = [].
Proof.
  split.
  - destruct (adapter_holds_no_client_but_txClient
                (DatabaseAdapter.mkServer (fun _ => None)
                   (fun _ _ => Threw "connection lost")
                   (fun _ _ => Returned Js.VUndefined))
                true []) as (_ & H & _).
    apply (H true "connection lost" eq_refl eq_refl eq_refl eq_refl).
  - destruct (adapter_holds_no_client_but_txClient
                (DatabaseAdapter.mkServer (fun _ => None)
                   (fun _ _ => Threw "connection lost")
                   (fun _ _ => Returned Js.VUndefined))
                true [DatabaseAdapter.BeginTransaction true]) as (_ & _ & H).
    apply (H true).
Defined.

(** X19. The transaction protocol of the adapter.  On PostgreSQL, with a
    transaction open: [beginTransaction] throws and changes nothing;
    [commit] and [rollback] end the transaction and release its client
    whether their statement succeeds or fails, and when it fails the
    callback is not called; [execute] runs on the client of the
    transaction and keeps it.  With no transaction open, [commit] and
    [rollback] throw and change nothing.  On SQLite the three calls
    only invoke the callback, when one is given, and [execute] takes no
    connection. *)
Theorem adapter_transaction_protocol :
  forall (pg : DatabaseAdapter.server) (a : DatabaseAdapter.t) (callback : bool),
    (DatabaseAdapter.isPostgres a = true ->
     (forall client,
        DatabaseAdapter.txClient a = Some client ->
        DatabaseAdapter.beginTransaction pg callback a
        = (Threw "Transaction already in progress", a)
        /\ (forall finish,
              finish = DatabaseAdapter.commit \/ finish = DatabaseAdapter.rollback ->
              DatabaseAdapter.txClient (snd (finish pg callback a)) = None
              /\ ~ In client (DatabaseAdapter.checked_out (snd (finish pg callback a)))
              /\ (forall message,
                    fst (finish pg callback a) = Threw message ->
                    DatabaseAdapter.callbacks (snd (finish pg callback a))
                    = DatabaseAdapter.callbacks a))
        /\ (forall query,
              DatabaseAdapter.execute pg query a
              = (DatabaseAdapter.answer pg (DatabaseAdapter.statements a) query,
                 snd (DatabaseAdapter.client_query pg query a))))
     /\ (DatabaseAdapter.txClient a = None ->
         DatabaseAdapter.commit pg callback a = (Threw "No active transaction", a)
         /\ DatabaseAdapter.rollback pg callback a = (Threw "No active transaction", a)))
    /\ (DatabaseAdapter.isPostgres a = false ->
        DatabaseAdapter.beginTransaction pg callback a
        = (Returned tt, DatabaseAdapter.call_back callback a)
        /\ DatabaseAdapter.commit pg callback a
           = (Returned tt, DatabaseAdapter.call_back callback a)
        /\ DatabaseAdapter.rollback pg callback a
           = (Returned tt, DatabaseAdapter.call_back callback a)
        /\ forall query,
             DatabaseAdapter.checked_out (snd (DatabaseAdapter.execute pg query a))
             = DatabaseAdapter.checked_out a
             /\ DatabaseAdapter.connects (snd (DatabaseAdapter.execute pg query a))
                = DatabaseAdapter.connects a).
Proof.
  intros pg [isPg tx out n k cb] callback. simpl. split.
  - intros ->. split.
    + intros client ->. split; [reflexivity |]. split.
      * assert (Hend : forall sql,
                   let run := DatabaseAdapter.end_transaction pg sql callback
                                (DatabaseAdapter.mkAdapter true (Some client) out n k cb) in
                   DatabaseAdapter.txClient (snd run) = None
                   /\ ~ In client (DatabaseAdapter.checked_out (snd run))
                   /\ (forall message, fst run = Threw message ->
                                       DatabaseAdapter.callbacks (snd run) = cb)).
        { intros sql. cbv zeta.
          unfold DatabaseAdapter.end_transaction, DatabaseAdapter.client_query,
            DatabaseAdapter.release, DatabaseAdapter.set_txClient,
            DatabaseAdapter.call_back.
          simpl.
          assert (Hnot : ~ In client (filter (fun c => negb (Nat.eqb c client)) out)).
          { intros H. apply filter_In in H. destruct H as [_ H].
            rewrite Nat.eqb_refl in H. discriminate. }
          destruct (DatabaseAdapter.answer pg k sql); simpl.
          - destruct callback; simpl; repeat split; try assumption;
              intros message H; discriminate H.
          - repeat split; assumption. }
        intros finish [-> | ->]; [apply (Hend "COMMIT") | apply (Hend "ROLLBACK")].
      * intros query. reflexivity.
    + intros ->. split; reflexivity.
  - intros ->. repeat split.
Qed.

Lemma adapter_transaction_protocol_witness :
  DatabaseAdapter.txClient
    (snd (DatabaseAdapter.rollback
            (DatabaseAdapter.mkServer (fun _ => None)
               (fun n _ => if Nat.eqb n 1 then Threw "connection lost"
                           else Returned Js.VUndefined)
               (fun _ _ => Returned Js.VUndefined))
            true
            (snd (DatabaseAdapter.beginTransaction
                    (DatabaseAdapter.mkServer (fun _ => None)
                       (fun n _ => if Nat.eqb n 1 then Threw "connection lost"
                                   else Returned Js.VUndefined)
                       (fun _ _ => Returned Js.VUndefined))
                    true
                    (DatabaseAdapter.fresh true)))))
  = None.
Proof.
  destruct (adapter_transaction_protocol
              (DatabaseAdapter.mkServer (fun _ => None)
                 (fun n _ => if Nat.eqb n 1 then Threw "connection lost"
                             else Returned Js.VUndefined)
                 (fun _ _ => Returned Js.VUndefined))
              (snd (DatabaseAdapter.beginTransaction
                      (DatabaseAdapter.mkServer (fun _ => None)
                         (fun n _ => if Nat.eqb n 1 then Threw "connection lost"
                                     else Returned Js.VUndefined)
                         (fun _ _ => Returned Js.VUndefined))
                      true
                      (DatabaseAdapter.fresh true)))
              true) as [H _].
  destruct (H eq_refl) as [H1 _]. destruct (H1 0%nat eq_refl) as (_ & H2 & _).
  exact (proj1 (H2 DatabaseAdapter.rollback (or_intror eq_refl))).
Defined.

(** ** [testSelector] *)

Lemma closes_refl s : closes s s.
Proof. repeat split. exists []. rewrite app_nil_r. reflexivity. Qed.

Lemma closes_trans a b c : closes a b -> closes b c -> closes a c.
Proof.
  intros (D1 & P1 & C1 & (l1 & L1)) (D2 & P2 & C2 & (l2 & L2)).
  repeat split; try congruence.
  exists (l1 ++ l2)%list. rewrite L2, L1, app_assoc. reflexivity.
Qed.

Lemma fetches_closes Pe s s' : fetches Pe s s' -> closes s s'.
Proof.
  intros (D & P & _). unfold closes. rewrite D, P. repeat split.
  exists []. rewrite app_nil_r. reflexivity.
Qed.

Lemma evaluate_samples_reads_only env doc selector testType :
  steps (fetches no_event) (SelectorTest.evaluate_samples env doc selector testType).
Proof.
  unfold SelectorTest.evaluate_samples, querySelectorAll, css_select.
  repeat steps_struct.
Qed.

Lemma propose_reads_only doc selector description suggestions :
  steps (fetches no_event) (SelectorTest.propose doc selector description suggestions).
Proof.
  unfold SelectorTest.propose, querySelectorAll, css_select.
  repeat steps_struct.
Qed.

Lemma generateSelectorSuggestions_reads_only env doc :
  steps (fetches no_event) (SelectorTest.generateSelectorSuggestions env doc).
Proof.
  unfold SelectorTest.generateSelectorSuggestions, querySelectorAll, css_select.
  repeat first [ apply propose_reads_only | steps_struct ].
Qed.

Lemma getPageInfo_reads_only env doc :
  steps (fetches no_event) (SelectorTest.getPageInfo env doc).
Proof.
  unfold SelectorTest.getPageInfo, querySelectorAll, css_select.
  repeat steps_struct.
Qed.

Lemma close_page_closes page : steps closes (SelectorTest.close_page page).
Proof.
  intros s. unfold SelectorTest.close_page, closes. simpl. repeat split.
  eexists. reflexivity.
Qed.

Lemma on_page_closes env w page url selector testType :
  steps closes (SelectorTest.on_page env w page url selector testType).
Proof.
  unfold SelectorTest.on_page.
  apply steps_bind; [exact closes_trans | |].
  { eapply steps_weaken; [apply (fetches_closes is_goto) |].
    apply steps_try_catch; [apply fetches_trans | |];
      intros; apply steps_goto; exact I. }
  intros doc.
  apply steps_bind; [exact closes_trans | |].
  { eapply steps_weaken; [apply (fetches_closes no_event) |].
    unfold querySelector, querySelectorAll, css_select. repeat steps_struct. }
  intros [el |].
  - apply steps_bind; [exact closes_trans | |].
    { eapply steps_weaken; [apply (fetches_closes no_event) |].
      apply evaluate_samples_reads_only. }
    intros result.
    apply steps_bind; [exact closes_trans | apply close_page_closes |].
    intros _. apply steps_ret, closes_refl.
  - apply steps_bind; [exact closes_trans | |].
    { eapply steps_weaken; [apply (fetches_closes no_event) |].
      apply generateSelectorSuggestions_reads_only. }
    intros suggestions.
    apply steps_bind; [exact closes_trans | |].
    { eapply steps_weaken; [apply (fetches_closes no_event) |].
      apply getPageInfo_reads_only. }
    intros pageInfo. apply steps_ret, closes_refl.
Qed.

(** What [on_page] returns is an answer of success or the answer that
    the selector was not found. *)
Lemma on_page_answers env w page url selector testType :
  yields (fun answer =>
            Js.get answer "success" = Js.VBool true
            \/ (Js.get answer "success" = Js.VBool false
                /\ Js.get answer "error" = Js.VStr SelectorTest.err_not_found
                /\ Js.get answer "errorType" = Js.VUndefined))
         (SelectorTest.on_page env w page url selector testType).
Proof.
  unfold SelectorTest.on_page.
  apply yields_bind; intros doc. apply yields_bind; intros [el |].
  - apply yields_bind; intros result. apply yields_bind; intros _.
    apply yields_ret. left. reflexivity.
  - apply yields_bind; intros suggestions. apply yields_bind; intros pageInfo.
    apply yields_ret. right. repeat split.
Qed.

Lemma classify_kinds message :
  In (fst (SelectorTest.classify message)) ["timeout"; "network"; "browser"; "unknown"].
Proof.
  unfold SelectorTest.classify.
  destruct (Js.includes message "Navigation timeout"); [simpl; tauto |].
  destruct (Js.includes message "net::ERR_"); [simpl; tauto |].
  destruct (Js.includes message "Protocol error"); simpl; tauto.
Qed.

(** [testSelector] as a whole: the answer, the database, the page. *)
Lemma testSelector_settles :
  forall (env : SelectorTest.page_env) (w : Web.t) (url selector testType : string)
         (o : SelectorTest.options) (s : World),
    let run := SelectorTest.testSelector env w url selector testType o s in
    (exists answer,
       fst run = Returned answer
       /\ (Js.get answer "success" = Js.VBool true
           \/ (Js.get answer "success" = Js.VBool false
               /\ Js.get answer "error" = Js.VStr SelectorTest.err_not_found)
           \/ exists message,
                answer = SelectorTest.failure env url selector testType message
                /\ In (Js.get answer "errorType")
                      [Js.VStr "timeout"; Js.VStr "network"; Js.VStr "browser";
                       Js.VStr "unknown"]))
    /\ db (snd run) = db s
    /\ (upool (snd run) = upool s
        \/ exists page pool,
             Pool.getOrCreatePage w "universal" (upool s) = (Returned page, pool)
             /\ Pool.pagePool (upool (snd run)) = Pool.pagePool pool
             /\ In page (Pool.closed (upool (snd run)))).
Proof.
  intros env w url selector testType o s. cbv zeta.
  unfold SelectorTest.testSelector, SelectorTest.attempt.
  assert (Hfail : forall message,
             exists m,
               SelectorTest.failure env url selector testType message
               = SelectorTest.failure env url selector testType m
               /\ In (Js.get (SelectorTest.failure env url selector testType message)
                             "errorType")
                     [Js.VStr "timeout"; Js.VStr "network"; Js.VStr "browser";
                      Js.VStr "unknown"]).
  { intros message. exists message. split; [reflexivity |].
    unfold SelectorTest.failure.
    cbn [Js.get Js.assoc String.eqb Ascii.eqb Bool.eqb].
    pose proof (classify_kinds message) as H.
    destruct H as [H | [H | [H | [H | []]]]]; rewrite <- H; simpl; tauto. }
  destruct (SelectorTest.refusal w url selector o) as [message |].
  { cbn [fst snd]. split; [| split; [reflexivity | left; reflexivity]].
    eexists. split; [reflexivity |]. right. right. apply Hfail. }
  unfold UniversalCrawler.getOrCreatePage, UniversalCrawler.initBrowser, throw.
  destruct (0 <? List.length (Pool.pagePool (upool s)))%nat eqn:Eidle;
    [| cbn [fst snd db upool];
       split; [eexists; split; [reflexivity |]; right; right; apply Hfail |];
       split; [reflexivity | left; reflexivity]].
  destruct (Pool.getOrCreatePage w "universal" (upool s)) as [[page | message] pool] eqn:Epool.
  - set (s1 := mkWorld (db s) pool (log s)).
    pose proof (on_page_closes env w page url selector testType s1) as Hc.
    pose proof (on_page_answers env w page url selector testType s1) as Ha.
    destruct (SelectorTest.on_page env w page url selector testType s1) as [r s2].
    cbn [fst snd] in Hc, Ha. destruct Hc as (Hdb & Hidle & _ & (pages & Hclosed)).
    assert (Hanswer : exists answer,
               match r with
               | Returned v => v
               | Threw message => SelectorTest.failure env url selector testType message
               end = answer
               /\ (Js.get answer "success" = Js.VBool true
                   \/ (Js.get answer "success" = Js.VBool false
                       /\ Js.get answer "error" = Js.VStr SelectorTest.err_not_found)
                   \/ exists message,
                        answer = SelectorTest.failure env url selector testType message
                        /\ In (Js.get answer "errorType")
                              [Js.VStr "timeout"; Js.VStr "network"; Js.VStr "browser";
                               Js.VStr "unknown"])).
    { destruct r as [v | message].
      - exists v. split; [reflexivity |].
        destruct (Ha v eq_refl) as [H | (H1 & H2 & _)]; [left; exact H |].
        right. left. split; assumption.
      - eexists. split; [reflexivity |]. right. right. apply Hfail. }
    destruct Hanswer as (answer & Er & Hshape). rewrite Er.
    destruct (SelectorTest.isClosed page s2) eqn:Eclosed; cbn [fst snd].
    + split; [exists answer; split; [reflexivity | exact Hshape] |].
      split; [exact Hdb |]. right. exists page, pool.
      split; [reflexivity |]. split; [exact Hidle |].
      unfold SelectorTest.isClosed in Eclosed. apply existsb_exists in Eclosed.
      destruct Eclosed as (q & Hq & E). apply Nat.eqb_eq in E. subst q. exact Hq.
    + split; [exists answer; split; [reflexivity | exact Hshape] |].
      unfold SelectorTest.close_page. cbn [fst snd db upool Pool.pagePool Pool.closed].
      split; [exact Hdb |]. right. exists page, pool.
      split; [reflexivity |]. split; [exact Hidle |].
      apply in_or_app. right. left. reflexivity.
  - cbn [fst snd db upool].
    split; [eexists; split; [reflexivity |]; right; right; apply Hfail |].
    split; [reflexivity |].
    left. unfold Pool.getOrCreatePage in Epool.
    rewrite Eidle in Epool. discriminate Epool.
Qed.

(** X20. [testSelector] of the service never throws.  Its answer is one
    of success, or the answer that the selector was not found on the
    page, or the answer built from an error, whose [errorType] is one
    of timeout, network, browser and unknown.  The database is not
    touched.  The page it takes is closed when it returns, on every
    path, and is not put back among the idle pages; when it takes no
    page the pool is as before. *)
Theorem testSelector_always_answers_and_closes_its_page :
  forall (env : SelectorTest.page_env) (w : Web.t) (url selector testType : string)
         (o : SelectorTest.options) (s : World),
    let run := SelectorTest.testSelector env w url selector testType o s in
    (exists answer,
       fst run = Returned answer
       /\ (Js.get answer "success" = Js.VBool true
           \/ (Js.get answer "success" = Js.VBool false
               /\ Js.get answer "error" = Js.VStr SelectorTest.err_not_found)
           \/ exists message,
                answer = SelectorTest.failure env url selector testType message
                /\ In (Js.get answer "errorType")
                      [Js.VStr "timeout"; Js.VStr "network"; Js.VStr "browser";
                       Js.VStr "unknown"]))
    /\ db (snd run) = db s
    /\ (upool (snd run) = upool s
        \/ exists page pool,
             Pool.getOrCreatePage w "universal" (upool s) = (Returned page, pool)
             /\ Pool.pagePool (upool (snd run)) = Pool.pagePool pool
             /\ In page (Pool.closed (upool (snd run)))).
Proof.
  intros env w url selector testType o s. apply testSelector_settles.
Qed.

(** X21. [testSelector] refuses its input before it takes a page.  The
    input passes exactly when the navigation timeout is within
    5000..120000, the wait within 1000..30000, the URL and the selector
    are not empty and the URL parses.  Otherwise the answer is the
    error answer with the message of the first check that fails, and
    the world is as before: no page is taken and nothing is loaded. *)
Theorem testSelector_refuses_bad_input_before_taking_a_page :
  forall (env : SelectorTest.page_env) (w : Web.t) (url selector testType : string)
         (o : SelectorTest.options),
    (SelectorTest.refusal w url selector o = None
     <-> (5000 <= SelectorTest.timeout o <= 120000
          /\ 1000 <= SelectorTest.waitTime o <= 30000
          /\ url <> "" /\ selector <> ""
          /\ Web.URL_parts w url <> None))
    /\ (forall message s,
          SelectorTest.refusal w url selector o = Some message ->
          SelectorTest.testSelector env w url selector testType o s
          = (Returned (SelectorTest.failure env url selector testType message), s)
          /\ In message [SelectorTest.err_timeout; SelectorTest.err_waitTime;
                         SelectorTest.err_required; SelectorTest.err_url]).
Proof.
  intros env w url selector testType o. split.
  - unfold SelectorTest.refusal.
    destruct (Z.ltb_spec (SelectorTest.timeout o) 5000);
      [cbn [orb]; split; [discriminate | lia] |].
    rewrite Z.gtb_ltb.
    destruct (Z.ltb_spec 120000 (SelectorTest.timeout o));
      [cbn [orb]; split; [discriminate | lia] |].
    cbn [orb].
    destruct (Z.ltb_spec (SelectorTest.waitTime o) 1000);
      [cbn [orb]; split; [discriminate | lia] |].
    rewrite Z.gtb_ltb.
    destruct (Z.ltb_spec 30000 (SelectorTest.waitTime o));
      [cbn [orb]; split; [discriminate | lia] |].
    cbn [orb Js.truthy].
    destruct (String.eqb_spec url "") as [Eu | Eu];
      [cbn [negb orb]; split; [discriminate | tauto] |].
    destruct (String.eqb_spec selector "") as [Es | Es];
      [cbn [negb orb]; split; [discriminate | tauto] |].
    cbn [negb orb].
    destruct (Web.URL_parts w url) as [parts |].
    + split; [intros _; repeat split; try lia; try assumption; discriminate
             | reflexivity].
    + split; [discriminate | intros (_ & _ & _ & _ & Hparts); contradiction].
  - intros message s H. split.
    + unfold SelectorTest.testSelector, SelectorTest.attempt. rewrite H. reflexivity.
    + unfold SelectorTest.refusal in H.
      destruct ((SelectorTest.timeout o <? 5000) || (SelectorTest.timeout o >? 120000));
        [injection H as <-; simpl; tauto |].
      destruct ((SelectorTest.waitTime o <? 1000) || (SelectorTest.waitTime o >? 30000));
        [injection H as <-; simpl; tauto |].
      destruct (negb (Js.truthy (Js.VStr url)) || negb (Js.truthy (Js.VStr selector)));
        [injection H as <-; simpl; tauto |].
      destruct (Web.URL_parts w url); [discriminate |].
      injection H as <-. simpl. tauto.
Qed.

(** ** The suggestions *)

Lemma propose_matching doc selector description suggestions :
  Forall (fun p => (0 < SelectorTest.s_count p)%nat) suggestions ->
  yields (Forall (fun p => (0 < SelectorTest.s_count p)%nat))
         (SelectorTest.propose doc selector description suggestions).
Proof.
  intros H. unfold SelectorTest.propose.
  apply yields_bind; intros elements.
  destruct (Nat.ltb_spec 0 (List.length elements)); apply yields_ret; [| exact H].
  apply Forall_app. split; [exact H |]. constructor; [assumption | constructor].
Qed.

(** X22. [generateSelectorSuggestions] never throws and changes nothing;
    it proposes at most ten selectors, and every selector it proposes
    matches at least one element of the page. *)
Theorem selector_suggestions_are_few_and_match :
  forall (env : SelectorTest.page_env) (doc : Web.document) (s : World),
    exists suggestions,
      SelectorTest.generateSelectorSuggestions env doc s = (Returned suggestions, s)
      /\ (List.length suggestions <= 10)%nat
      /\ Forall (fun p => (0 < SelectorTest.s_count p)%nat) suggestions.
Proof.
  intros env doc s.
  pose proof (generateSelectorSuggestions_reads_only env doc s) as Hs.
  apply fetches_nothing in Hs.
  assert (Hy : yields (fun l => (List.length l <= 10)%nat
                                /\ Forall (fun p => (0 < SelectorTest.s_count p)%nat) l)
                      (SelectorTest.generateSelectorSuggestions env doc)).
  { unfold SelectorTest.generateSelectorSuggestions.
    apply yields_try_catch; [| intros; apply yields_ret; split; [simpl; lia | constructor]].
    eapply yields_bind_with
      with (Q := Forall (fun p => (0 < SelectorTest.s_count p)%nat)).
    { apply yields_foldM; [| constructor]. intros acc tag Hacc.
      apply propose_matching, Hacc. }
    intros by_tag Hby. apply yields_bind; intros allElements.
    eapply yields_bind_with
      with (Q := Forall (fun p => (0 < SelectorTest.s_count p)%nat)).
    { apply yields_foldM; [| exact Hby]. intros acc cls Hacc.
      apply propose_matching, Hacc. }
    intros suggestions Hall. apply yields_ret. unfold Js.slice0. split.
    - apply firstn_le_length.
    - rewrite Forall_forall in *. intros p Hp. apply Hall.
      apply (In_firstn 10 suggestions p Hp). }
  assert (Hr : returns (SelectorTest.generateSelectorSuggestions env doc)).
  { unfold SelectorTest.generateSelectorSuggestions. apply returns_try_catch.
    intros. apply returns_ret. }
  destruct (Hr s) as [suggestions E]. pose proof (Hy s suggestions E) as Hq.
  destruct (SelectorTest.generateSelectorSuggestions env doc s) as [r s'].
  cbn [fst snd] in *. subst r s'.
  exists suggestions. split; [reflexivity | exact Hq].
Qed.

(** X23. The routes [POST /test-selector] and
    [POST /crawler/test-selector], for a body whose [url] and
    [selector] are texts: the status of the answer is 200, 400, 408 or
    503, and it is 400, with no page taken and nothing loaded, when the
    URL or the selector is empty or the URL does not parse. *)
Theorem test_selector_route_answers_200_400_408_or_503 :
  forall (env : SelectorTest.page_env) (w : Web.t) (url selector testType : string)
         (s : World),
    let run := SelectorTest.post_test_selector env w url selector testType s in
    (exists status, fst run = Returned status /\ In status [200; 400; 408; 503])
    /\ (url = "" \/ selector = "" \/ Web.URL_parts w url = None ->
        run = (Returned 400, s)).
Proof.
  intros env w url selector testType s. cbv zeta.
  unfold SelectorTest.post_test_selector. split.
  - destruct (negb (Js.truthy (Js.VStr url)) || negb (Js.truthy (Js.VStr selector)));
      [exists 400; split; [reflexivity | simpl; tauto] |].
    destruct (Web.URL_parts w url);
      [| exists 400; split; [reflexivity | simpl; tauto]].
    destruct (testSelector_settles env w url selector testType
                SelectorTest.defaults s) as ((answer & E & Hshape) & _).
    unfold bind.
    destruct (SelectorTest.testSelector env w url selector testType
                SelectorTest.defaults s) as [r s1].
    cbn [fst] in E. subst r.
    destruct Hshape as [H | [(H & _) | (message & Ea & Hin)]].
    + rewrite H. exists 200. split; [reflexivity | simpl; tauto].
    + rewrite H. cbn [Js.truthy].
      eexists. split; [reflexivity |].
      unfold SelectorTest.status_of.
      destruct (Js.get answer "errorType"); try (simpl; tauto).
      destruct (String.eqb s0 "timeout" || String.eqb s0 "network"); [simpl; tauto |].
      destruct (String.eqb s0 "browser"); simpl; tauto.
    + subst answer.
      cbn [SelectorTest.failure Js.get Js.assoc String.eqb Ascii.eqb Bool.eqb Js.truthy].
      eexists. split; [reflexivity |].
      unfold SelectorTest.status_of.
      destruct (String.eqb _ "timeout" || String.eqb _ "network"); [simpl; tauto |].
      destruct (String.eqb _ "browser"); simpl; tauto.
  - intros [H | [H | H]].
    + subst url. reflexivity.
    + subst selector. cbn [Js.truthy String.eqb negb]. rewrite orb_true_r. reflexivity.
    + rewrite H.
      destruct (negb (Js.truthy (Js.VStr url)) || negb (Js.truthy (Js.VStr selector)));
        reflexivity.
Qed.
